(** * goderive: the derivation engine and its specification

    The first part embeds the program, module by module:
    - [types]      the part of go/types the generators switch on;
    - [text]       formats, and the lines handed to the printer;
    - [helper]     helper.go, the canonical type label [typeName];
    - [derive]     derive/find.go, the call-site finder;
    - [registry]   what the generators obtain from derive.TypesMap and
                   derive.Fields, which are not among the sources;
    - [copyto], [compare], [equal]   the generators;
    - [generated]  the bodies the generators print for slices and maps,
                   read as functions on Go values;
    - [driver]     the loop of [main] over one package;
    - [gostring], [compose], [max]   three more generators.
    The second part states and proves the properties, one module of
    facts for each module of the program. *)

From Stdlib Require Import ZArith Lia Bool List Ascii String.
From Stdlib Require Import DecimalString DecimalZ.
From stdpp Require Import base gmap strings list sorting.

Import ListNotations.
Local Open Scope string_scope.
Local Open Scope Z_scope.

Set Warnings "-register-all,-clear-no-such-hyp".

(* stdpp blocks [simpl] on string append; the emitted code is text, so it
   is wanted here. *)
#[global] Arguments String.append !s1 s2 : simpl nomatch.

(* ===================================================================== *)
(** ** go/types: the type model the generators consume                   *)
(* ===================================================================== *)

Module types.

(** [types.BasicKind], in the order of go/types. [Byte] and [Rune] are
    the same kinds as [Uint8] and [Int32]. *)
Inductive BasicKind :=
| Invalid
| Bool | Int | Int8 | Int16 | Int32 | Int64
| Uint | Uint8 | Uint16 | Uint32 | Uint64 | Uintptr
| Float32 | Float64 | Complex64 | Complex128
| String | UnsafePointer
| UntypedBool | UntypedInt | UntypedRune | UntypedFloat
| UntypedComplex | UntypedString | UntypedNil.

Definition Byte := Uint8.
Definition Rune := Int32.

#[global] Instance BasicKind_eq_dec : EqDecision BasicKind.
Proof. solve_decision. Defined.

(** The basic types: the predeclared [types.Typ[kind]], and the two
    aliases of the universe scope, [byte] and [rune], which have the
    kinds of [uint8] and [int32] and names of their own. *)
Inductive BasicType :=
| Typ (kind : BasicKind)
| universeByte
| universeRune.

(** [Basic.Kind()]. *)
Definition Kind (b : BasicType) : BasicKind :=
  match b with
  | Typ kind => kind
  | universeByte => Byte
  | universeRune => Rune
  end.

(** A type descriptor. A named type carries its package path, its name,
    its underlying type and its method set, which is what
    [Underlying()], [NumMethods()] and [Method(i)] give; a struct is the
    list of its fields in declaration order. A descriptor is a finite
    tree: it stands for a type whose declaration does not refer to
    itself. *)
Inductive type :=
| Basic (b : BasicType)
| Pointer (elem : type)
| Array (len : Z) (elem : type)
| Slice (elem : type)
| Map (key elem : type)
| Struct (fields : list (string * type))
| Named (pkg name : string) (underlying : type)
        (methods : list (string * type))
| Signature (params results : list type)
| Chan (elem : type)
| Interface (methods : list (string * type)).

(** [Type.Underlying()]: a named type gives the type it was declared
    with, every other type is its own underlying type. *)
Definition Underlying (t : type) : type :=
  match t with
  | Named _ _ u _ => u
  | _ => t
  end.

(** [Basic.Name()], the name a basic type is printed with. *)
Definition BasicName (b : BasicType) : string :=
  match b with
  | universeByte => "byte"
  | universeRune => "rune"
  | Typ k =>
  match k with
  | Invalid => "invalid type"
  | Bool => "bool" | Int => "int" | Int8 => "int8" | Int16 => "int16"
  | Int32 => "int32" | Int64 => "int64"
  | Uint => "uint" | Uint8 => "uint8" | Uint16 => "uint16"
  | Uint32 => "uint32" | Uint64 => "uint64" | Uintptr => "uintptr"
  | Float32 => "float32" | Float64 => "float64"
  | Complex64 => "complex64" | Complex128 => "complex128"
  | String => "string" | UnsafePointer => "unsafe.Pointer"
  | UntypedBool => "untyped bool" | UntypedInt => "untyped int"
  | UntypedRune => "untyped rune" | UntypedFloat => "untyped float"
  | UntypedComplex => "untyped complex"
  | UntypedString => "untyped string" | UntypedNil => "untyped nil"
  end
  end.

(** [strconv.Itoa]: decimal digits, with a leading minus sign for a
    negative number. *)
Definition Itoa (n : Z) : string := NilZero.string_of_int (Z.to_int n).

(** [strings.Join]. *)
Fixpoint Join (ss : list string) (sep : string) : string :=
  match ss with
  | [] => ""
  | [s] => s
  | s :: rest => s ++ sep ++ Join rest sep
  end.

(** A [types.Qualifier] maps a package path to the prefix printed in
    front of its names; the empty string prints the bare name. *)
Definition Qualifier := string -> string.

(** [types.RelativeTo(pkg)]. *)
Definition RelativeTo (pkg : string) : Qualifier :=
  fun other => if String.eqb pkg other then "" else other.

(** The parameters and results of a function type as go/types writes
    them, from their printed types: [(a, b) r], with parentheses around
    the results when they are several. *)
Definition signatureString (params results : list string) : string :=
  "(" ++ Join params ", " ++ ")"
  ++ match results with
     | [] => ""
     | [r] => " " ++ r
     | _ => " (" ++ Join results ", " ++ ")"
     end.

(** [types.TypeString]: the source form of a type. A function type is
    [func] followed by its signature; a method of an interface is its
    name followed by its signature, without [func]. *)
Fixpoint TypeString (t : type) (qual : Qualifier) : string :=
  match t with
  | Basic b => BasicName b
  | Pointer e => "*" ++ TypeString e qual
  | Array n e => "[" ++ Itoa n ++ "]" ++ TypeString e qual
  | Slice e => "[]" ++ TypeString e qual
  | Map k e => "map[" ++ TypeString k qual ++ "]" ++ TypeString e qual
  | Struct fs =>
      "struct{"
      ++ Join (List.map (fun f => fst f ++ " " ++ TypeString (snd f) qual) fs) "; "
      ++ "}"
  | Named pkg name _ _ =>
      match qual pkg with
      | "" => name
      | q => q ++ "." ++ name
      end
  | Signature ps rs =>
      "func" ++ signatureString (List.map (fun p => TypeString p qual) ps)
                                (List.map (fun r => TypeString r qual) rs)
  | Chan e => "chan " ++ TypeString e qual
  | Interface ms =>
      "interface{"
      ++ Join (List.map (fun m =>
                 fst m ++ match snd m with
                          | Signature ps rs =>
                              signatureString
                                (List.map (fun p => TypeString p qual) ps)
                                (List.map (fun r => TypeString r qual) rs)
                          | _ => TypeString (snd m) qual
                          end) ms) "; "
      ++ "}"
  end.

(** [types.Identical]: structural identity; two basic types are
    identical when they have the same kind, two named types when they
    are the same declaration. *)
Fixpoint Identical (x y : type) : bool :=
  match x, y with
  | Basic a, Basic b => bool_decide (Kind a = Kind b)
  | Pointer a, Pointer b => Identical a b
  | Array n a, Array m b => (n =? m) && Identical a b
  | Slice a, Slice b => Identical a b
  | Map k a, Map l b => Identical k l && Identical a b
  | Struct fs, Struct gs =>
      (fix fields (fs gs : list (string * type)) : bool :=
         match fs, gs with
         | [], [] => true
         | f :: fs, g :: gs =>
             String.eqb (fst f) (fst g) && Identical (snd f) (snd g) && fields fs gs
         | _, _ => false
         end) fs gs
  | Named p n _ _, Named q m _ _ => String.eqb p q && String.eqb n m
  | Signature ps rs, Signature qs ss =>
      (fix tuple (ps qs : list type) : bool :=
         match ps, qs with
         | [], [] => true
         | p :: ps, q :: qs => Identical p q && tuple ps qs
         | _, _ => false
         end) ps qs
      && (fix tuple (ps qs : list type) : bool :=
         match ps, qs with
         | [], [] => true
         | p :: ps, q :: qs => Identical p q && tuple ps qs
         | _, _ => false
         end) rs ss
  | Chan a, Chan b => Identical a b
  | Interface ms, Interface ns =>
      (fix methods (ms ns : list (string * type)) : bool :=
         match ms, ns with
         | [], [] => true
         | f :: ms, g :: ns =>
             String.eqb (fst f) (fst g) && Identical (snd f) (snd g) && methods ms ns
         | _, _ => false
         end) ms ns
  | _, _ => false
  end.

(** [typ.String()], which is what [%s] prints for a type: its names come
    with the path of their package. *)
Definition show (typ : type) : string := TypeString typ (fun path => path).

(** The number of constructors of a type, for inductions that go
    through the underlying type. *)
Fixpoint tsize (t : type) : nat :=
  match t with
  | Basic _ => 1
  | Pointer e | Slice e | Chan e => S (tsize e)
  | Array _ e => S (tsize e)
  | Map k e => S (tsize k + tsize e)
  | Struct fs => S (list_sum (List.map (fun f => tsize (snd f)) fs))
  | Named _ _ u ms => S (tsize u + list_sum (List.map (fun f => tsize (snd f)) ms))
  | Signature ps rs => S (list_sum (List.map tsize ps) + list_sum (List.map tsize rs))
  | Interface ms => S (list_sum (List.map (fun f => tsize (snd f)) ms))
  end.

End types.

(* ===================================================================== *)
(** ** Text: formats and the printer                                     *)
(* ===================================================================== *)

Module text.

(** [fmt.Sprintf] for the formats of the generators: each [%s] takes the
    next argument. *)
Fixpoint Sprintf (format : string) (a : list string) : string :=
  match format with
  | EmptyString => ""
  | String "%" (String "s" rest) =>
      match a with
      | x :: a => x ++ Sprintf rest a
      | [] => "%!s(MISSING)" ++ Sprintf rest []
      end
  | String c rest => String c (Sprintf rest a)
  end.

(** [strings.HasPrefix]. *)
Fixpoint HasPrefix (s prefix : string) : bool :=
  match prefix, s with
  | EmptyString, _ => true
  | String p prefix, String c s => Ascii.eqb c p && HasPrefix s prefix
  | _, _ => false
  end.

(** [strings.HasSuffix], for a suffix of one character. *)
Fixpoint HasSuffix1 (s : string) (suffix : ascii) : bool :=
  match s with
  | EmptyString => false
  | String c EmptyString => Ascii.eqb c suffix
  | String _ s => HasSuffix1 s suffix
  end.

(** [strings.Split(s, ".")[0]]. *)
Fixpoint firstField (s : string) : string :=
  match s with
  | EmptyString => ""
  | String c s => if Ascii.eqb c "." then "" else String c (firstField s)
  end.

(** [strings.Replace(s, "*", "", -1)]. *)
Fixpoint dropStars (s : string) : string :=
  match s with
  | EmptyString => ""
  | String c s => if Ascii.eqb c "*" then dropStars s else String c (dropStars s)
  end.

(** The double quote, which a string literal cannot hold. *)
Definition quote : string := String (ascii_of_nat 34) "".

(** [s[len(prefix):]], for a prefix that is not longer than [s]. *)
Fixpoint dropPrefix (s prefix : string) : string :=
  match prefix, s with
  | String _ prefix, String _ s => dropPrefix s prefix
  | _, _ => s
  end.

(** [strings.TrimPrefix]. *)
Definition TrimPrefix (s prefix : string) : string :=
  if HasPrefix s prefix then dropPrefix s prefix else s.

(** [strings.Contains], for a substring of one character. *)
Fixpoint Contains1 (s : string) (substr : ascii) : bool :=
  match s with
  | EmptyString => false
  | String c s => Ascii.eqb c substr || Contains1 s substr
  end.

(** [strings.Contains]. *)
Fixpoint Contains (s substr : string) : bool :=
  HasPrefix s substr ||
  match s with
  | EmptyString => false
  | String _ r => Contains r substr
  end.

(** The line feed, written [\n] in a Go string. *)
Definition newline : string := String (ascii_of_nat 10) "".

(** What a generator hands to the printer: a line, or a change of
    indentation.

    Modelled from the spec: derive.Printer is not among the sources; the
    specification has it accept an ordered sequence of statement and
    indentation events. *)
Inductive Line :=
| P (line : string)
| In
| Out.

(** The lines with their depth of indentation. *)
Fixpoint layout (depth : nat) (out : list Line) : list (nat * string) :=
  match out with
  | [] => []
  | P line :: out => (depth, line) :: layout depth out
  | In :: out => layout (S depth) out
  | Out :: out => layout (Nat.pred depth) out
  end.

(** A generator either returns, fails with an error, or panics; the text
    printed before stays printed. *)
Inductive result (A : Type) :=
| Ok (a : A)
| Err (msg : string)
| Panic (msg : string).
Arguments Ok {A} a.
Arguments Err {A} msg.
Arguments Panic {A} msg.

Definition Gen (A : Type) : Type := list Line * result A.

Definition ret {A} (a : A) : Gen A := ([], Ok a).

Definition bind {A B} (m : Gen A) (k : A -> Gen B) : Gen B :=
  match m with
  | (out, Ok a) => let (out', r) := k a in (app out out', r)
  | (out, Err msg) => (out, Err msg)
  | (out, Panic msg) => (out, Panic msg)
  end.

Definition emit (l : Line) : Gen unit := ([l], Ok tt).

(** [p.P(format, a...)]. *)
Definition printf (format : string) (a : list string) : Gen unit :=
  emit (P (Sprintf format a)).

(** [return fmt.Errorf(...)]. *)
Definition Errorf {A} (format : string) (a : list string) : Gen A :=
  ([], Err (Sprintf format a)).

(** The result of a function that prints nothing. *)
Definition lift {A} (r : result A) : Gen A := ([], r).

(** Each member of a list in turn, stopping at the first error. *)
Fixpoint forEach {A} (l : list A) (f : A -> Gen unit) : Gen unit :=
  match l with
  | [] => ret tt
  | x :: l => bind (f x) (fun _ => forEach l f)
  end.

(** The text a generator printed. *)
Definition printed {A} (m : Gen A) : list Line := fst m.

(** The depth of indentation after a text that starts at [depth]; none
    when the text steps out further than it stepped in. *)
Fixpoint closes (depth : nat) (out : list Line) : option nat :=
  match out with
  | [] => Some depth
  | P _ :: out => closes depth out
  | In :: out => closes (S depth) out
  | Out :: out =>
      match depth with
      | O => None
      | S depth => closes depth out
      end
  end.

End text.

Notation "x <- m ;; k" := (text.bind m (fun x => k))
  (at level 100, m at next level, right associativity).
Notation "m ;;; k" := (text.bind m (fun _ => k))
  (at level 100, right associativity).

(* ===================================================================== *)
(** ** helper.go                                                         *)
(* ===================================================================== *)

Module helper.

(** [typeName]: the canonical label of a type. *)
Fixpoint typeName (typ : types.type) (qual : types.Qualifier) : string :=
  match typ with
  | types.Pointer elem => "PtrTo" ++ typeName elem qual
  | types.Array len elem =>
      let sizeStr := types.Itoa len in
      "Array" ++ sizeStr ++ "Of" ++ typeName elem qual
  | types.Slice elem => "SliceOf" ++ typeName elem qual
  | types.Map key elem =>
      "MapOf" ++ typeName key qual ++ "To" ++ typeName elem qual
  | _ => types.TypeString typ qual
  end.

(** A type is a leaf of [typeName] when the switch falls through to
    [types.TypeString]. *)
Definition isLeaf (typ : types.type) : bool :=
  match typ with
  | types.Pointer _ | types.Array _ _ | types.Slice _ | types.Map _ _ => false
  | _ => true
  end.

Definition isUpper (c : ascii) : bool :=
  (65 <=? nat_of_ascii c)%nat && (nat_of_ascii c <=? 90)%nat.

(** No upper-case ASCII letter occurs in [s]. *)
Fixpoint lower (s : string) : bool :=
  match s with
  | EmptyString => true
  | String c r => negb (isUpper c) && lower r
  end.

(** [s] is empty or starts with an upper-case letter: what can follow
    the length of an array inside a label, where [Of] follows it. *)
Definition sep (s : string) : bool :=
  match s with
  | EmptyString => true
  | String c _ => isUpper c
  end.

(** What can follow a label inside a longer label: nothing, or the [To]
    that a map puts after the label of its key. *)
Definition follows (s : string) : bool :=
  match s with
  | EmptyString => true
  | _ => text.HasPrefix s "To"
  end.

(** The text begins with one of the tags of [typeName]. *)
Definition startsWithTag (s : string) : bool :=
  text.HasPrefix s "PtrTo" || text.HasPrefix s "SliceOf"
  || text.HasPrefix s "MapOf" || text.HasPrefix s "Array".

(** A printed leaf that can end the key of a map, where the [To] of the
    map follows it: it is not empty, it does not begin with a tag, [To]
    does not occur in it after its first character, and it is not
    [Ptr], which reads as [PtrTo] with the [To] that follows. *)
Definition keyLeaf (s : string) : bool :=
  match s with
  | EmptyString => false
  | String _ r =>
      negb (text.Contains r "To") && negb (startsWithTag s)
      && negb (String.eqb s "Ptr")
  end.

(** The type can stand as the key of a map: each of its leaves, as it
    prints, is a [keyLeaf]. *)
Fixpoint tagFreeKey (qual : types.Qualifier) (typ : types.type) : bool :=
  match typ with
  | types.Pointer elem => tagFreeKey qual elem
  | types.Array _ elem => tagFreeKey qual elem
  | types.Slice elem => tagFreeKey qual elem
  | types.Map key elem => tagFreeKey qual key && tagFreeKey qual elem
  | _ => keyLeaf (types.TypeString typ qual)
  end.

(** The leaves of the type, as they print, avoid the tag words: the
    leaf that ends the label does not begin with a tag, and the keys of
    its maps can stand as keys. Upper-case letters, dots, brackets and
    spaces are all allowed: [*T], [[]MyStruct], [lib.Foo],
    [map[string]token.Token] and [[]interface{M(int) string}] are such
    types. *)
Fixpoint tagFree (qual : types.Qualifier) (typ : types.type) : bool :=
  match typ with
  | types.Pointer elem => tagFree qual elem
  | types.Array _ elem => tagFree qual elem
  | types.Slice elem => tagFree qual elem
  | types.Map key elem => tagFreeKey qual key && tagFree qual elem
  | _ => negb (startsWithTag (types.TypeString typ qual))
  end.

(** The two types have the same pointer/array/slice/map structure, the
    same array lengths, and leaves that print alike. *)
Fixpoint sameShape (qual : types.Qualifier) (t u : types.type) : bool :=
  match t, u with
  | types.Pointer a, types.Pointer b => sameShape qual a b
  | types.Array n a, types.Array m b => (n =? m) && sameShape qual a b
  | types.Slice a, types.Slice b => sameShape qual a b
  | types.Map k a, types.Map l b => sameShape qual k l && sameShape qual a b
  | _, _ =>
      isLeaf t && isLeaf u && String.eqb (types.TypeString t qual) (types.TypeString u qual)
  end.

(** The type is built from predeclared basic types other than
    [unsafe.Pointer] with pointers, arrays, slices and maps. *)
Fixpoint basicOnly (typ : types.type) : bool :=
  match typ with
  | types.Basic (types.Typ kind) => negb (bool_decide (kind = types.UnsafePointer))
  | types.Pointer elem => basicOnly elem
  | types.Array _ elem => basicOnly elem
  | types.Slice elem => basicOnly elem
  | types.Map key elem => basicOnly key && basicOnly elem
  | _ => false
  end.

End helper.

(* ===================================================================== *)
(** ** derive/find.go: the call-site finder                              *)
(* ===================================================================== *)

Module derive.
Local Open Scope nat_scope.

Definition derivedFilename : string := "derived.gen.go".

(** [token.Pos]; [NoPos] is zero. *)
Definition Pos := nat.
Definition NoPos : Pos := 0%nat.

(** The syntax the finder looks at. An identifier is known by its
    position, which is what stands for the pointer [*ast.Ident] that
    [Uses] is keyed by; [Other] is any node the finder has no case for,
    with its children. *)
Inductive Node :=
| Ident (NamePos : Pos) (Name : string)
| SelectorExpr (X : Node) (Sel : string)
| CallExpr (Fun : Node) (Args : list Node)
| Other (children : list Node).

(** [types.Object], as far as [Visit] tells objects apart: a builtin, or
    any other object with the position of its declaration ([NoPos] for
    the objects of the universe scope, such as the type [float64]). *)
Inductive Object :=
| Builtin (name : string)
| Declared (name : string) (pos : Pos).

Definition Object_Pos (def : Object) : Pos :=
  match def with
  | Builtin _ => NoPos
  | Declared _ pos => pos
  end.

(** A file of a [token.FileSet]: its name and the range of positions it
    covers. *)
Record File := { Name : string; Base : Pos; Size : nat }.

(** [FileSet.File(p)]: the file that contains [p]; none for [NoPos]. *)
Fixpoint Fset_File (files : list File) (p : Pos) : option File :=
  match files with
  | [] => None
  | f :: rest =>
      if negb (Nat.eqb p NoPos) && Nat.leb (Base f) p && Nat.leb p (Base f + Size f)
      then Some f
      else Fset_File rest p
  end.

(** [filepath.Split]: the directory, up to and with the last slash, and
    the file name after it. *)
Fixpoint Split (path : string) : string * string :=
  match path with
  | EmptyString => ("", "")
  | String c rest =>
      let (dir, file) := Split rest in
      match dir with
      | EmptyString =>
          if Ascii.eqb c "/" then (String c "", file) else ("", String c file)
      | _ => (String c dir, file)
      end
  end.

Record finder := {
  program : list File;            (* program.Fset *)
  pkgInfo : gmap Pos Object;      (* pkgInfo.Uses *)
  undefined : list Node;
  derived : list Node;
  funcNames : gset string
}.

Definition add_undefined (this : finder) (call : Node) : finder :=
  {| program := program this; pkgInfo := pkgInfo this;
     undefined := app (undefined this) [call];
     derived := derived this; funcNames := funcNames this |}.

Definition add_derived (this : finder) (call : Node) : finder :=
  {| program := program this; pkgInfo := pkgInfo this;
     undefined := undefined this;
     derived := app (derived this) [call]; funcNames := funcNames this |}.

Definition add_funcName (this : finder) (name : string) : finder :=
  {| program := program this; pkgInfo := pkgInfo this;
     undefined := undefined this; derived := derived this;
     funcNames := {[ name ]} ∪ funcNames this |}.

(** [finder.Visit]. The visitor returned is always the finder itself, so
    the function gives the finder after the visit. *)
Definition Visit (this : finder) (node : Node) : finder :=
  match node with
  | CallExpr Fun _ =>
      let call := node in
      match Fun with
      | Ident fn Name =>
          match pkgInfo this !! fn with
          | None => add_undefined this call
          | Some def =>
              match def with
              | Builtin _ => this
              | _ =>
                  match Fset_File (program this) (Object_Pos def) with
                  | None => this (* probably a cast, for example float64() *)
                  | Some file =>
                      let (_, filename) := Split (derive.Name file) in
                      if String.eqb filename derivedFilename
                      then add_derived this call
                      else add_funcName this Name
                  end
              end
          end
      | _ => this
      end
  | _ => this
  end.

(** [ast.Walk] with a finder: visit the node, then its children in
    source order. *)
Fixpoint Walk (this : finder) (node : Node) : finder :=
  let this := Visit this node in
  match node with
  | Ident _ _ => this
  | SelectorExpr X _ => Walk this X
  | CallExpr Fun Args => fold_left Walk Args (Walk this Fun)
  | Other children => fold_left Walk children this
  end.

(** The classes of the specification. A call is a candidate when its
    callee is a plain identifier; [NotACandidate] is every call the
    finder passes over. *)
Inductive Class :=
| Undefined
| Derived
| Known (name : string)
| NotACandidate.

Definition callee (node : Node) : option (Pos * string) :=
  match node with
  | CallExpr (Ident fn Name) _ => Some (fn, Name)
  | _ => None
  end.

(** The base name of the file that declares [def], if a file does. *)
Definition definingFile (files : list File) (def : Object) : option string :=
  match Fset_File files (Object_Pos def) with
  | None => None
  | Some file => Some (snd (Split (Name file)))
  end.

Definition classify (files : list File) (uses : gmap Pos Object) (node : Node)
  : Class :=
  match callee node with
  | None => NotACandidate
  | Some (fn, Name) =>
      match uses !! fn with
      | None => Undefined
      | Some def =>
          match definingFile files def with
          | None => NotACandidate
          | Some filename =>
              if String.eqb filename derivedFilename then Derived else Known Name
          end
      end
  end.

Definition isUndefined files uses (node : Node) : bool :=
  match classify files uses node with Undefined => true | _ => false end.

Definition isDerived files uses (node : Node) : bool :=
  match classify files uses node with Derived => true | _ => false end.

(** What the finder keeps of a node of a given class. *)
Definition record (this : finder) (node : Node) (c : Class) : finder :=
  match c with
  | Undefined => add_undefined this node
  | Derived => add_derived this node
  | Known name => add_funcName this name
  | NotACandidate => this
  end.

(** All the nodes of a tree, in the order [Walk] visits them. *)
Fixpoint nodes (node : Node) : list Node :=
  node ::
  match node with
  | Ident _ _ => []
  | SelectorExpr X _ => nodes X
  | CallExpr Fun Args => app (nodes Fun) (flat_map nodes Args)
  | Other children => flat_map nodes children
  end.

(** [ast.File], as far as it is used: its position and its
    declarations. *)
Record AstFile := { FilePos : Pos; Decls : list Node }.

(** [loader.PackageInfo]: the files of the package, [Uses], and
    [TypeOf], which gives nil for an expression that has no type. *)
Record PackageInfo := {
  Files : list AstFile;
  Uses : gmap Pos Object;
  TypeOf : Node -> option types.type
}.

(** [Call]; the fields [Name] and [Args] are [CallName] and [CallArgs],
    and a nil type is [None]. *)
Record Call := {
  Expr : Node;
  CallName : string;
  CallArgs : list (option types.type)
}.

(** [getInputTypes]: the types of the arguments of a call. *)
Definition getInputTypes (pkgInfo : PackageInfo) (call : Node)
  : list (option types.type) :=
  match call with
  | CallExpr _ Args => List.map (TypeOf pkgInfo) Args
  | _ => []
  end.

(** [newCall]. The expression is a call expression; it is kept as a
    [Node] here, and a node that is not a call whose callee is an
    identifier is the case the source panics on. *)
Definition newCall (pkgInfo : PackageInfo) (expr : Node) : text.result Call :=
  match expr with
  | CallExpr (Ident _ name) _ =>
      let typs := getInputTypes pkgInfo expr in
      text.Ok {| Expr := expr; CallName := name; CallArgs := typs |}
  | _ => text.Panic "unreachable, finder has already eliminated this option"
  end.

(** [Call.HasUndefined]. *)
Definition HasUndefined (this : Call) : bool :=
  existsb (fun arg =>
             match arg with
             | None => true
             | Some (types.Basic basic) =>
                 bool_decide (types.Kind basic = types.Invalid)
             | Some _ => false
             end) (CallArgs this).

(** [fileInfo]; its fields [undefined], [derived] and [funcNames] are
    [undefinedCalls], [derivedCalls] and [knownNames]. *)
Record fileInfo := {
  astFile : AstFile;
  fullpath : string;
  undefinedCalls : list Call;
  derivedCalls : list Call;
  knownNames : gset string
}.

(** [newCall] for each call of a list in turn. *)
Fixpoint newCalls (pkgInfo : PackageInfo) (exprs : list Node)
  : text.result (list Call) :=
  match exprs with
  | [] => text.Ok []
  | expr :: exprs =>
      match newCall pkgInfo expr with
      | text.Ok call =>
          match newCalls pkgInfo exprs with
          | text.Ok calls => text.Ok (call :: calls)
          | text.Err msg => text.Err msg
          | text.Panic msg => text.Panic msg
          end
      | text.Err msg => text.Err msg
      | text.Panic msg => text.Panic msg
      end
  end.

(** The loop of [NewFileInfos] over the files of the package. *)
Fixpoint fileInfos (program : list File) (pkgInfo : PackageInfo)
  (files : list AstFile) : text.result (list fileInfo) :=
  match files with
  | [] => text.Ok []
  | astFile :: files =>
      match Fset_File program (FilePos astFile) with
      | None =>
          (* probably derived.gen.go has non parsable code. *)
          fileInfos program pkgInfo files
      | Some file =>
          let fullpath := derive.Name file in
          let (_, fname) := Split fullpath in
          if String.eqb fname derivedFilename then fileInfos program pkgInfo files
          else
            let f := fold_left Walk (Decls astFile)
                       {| program := program; pkgInfo := Uses pkgInfo;
                          undefined := []; derived := []; funcNames := ∅ |} in
            match newCalls pkgInfo (undefined f) with
            | text.Ok undefined =>
                match newCalls pkgInfo (derived f) with
                | text.Ok derived =>
                    match fileInfos program pkgInfo files with
                    | text.Ok files =>
                        text.Ok ({| astFile := astFile; fullpath := fullpath;
                                    undefinedCalls := undefined;
                                    derivedCalls := derived;
                                    knownNames := funcNames f |} :: files)
                    | text.Err msg => text.Err msg
                    | text.Panic msg => text.Panic msg
                    end
                | text.Err msg => text.Err msg
                | text.Panic msg => text.Panic msg
                end
            | text.Err msg => text.Err msg
            | text.Panic msg => text.Panic msg
            end
      end
  end.

(** [NewFileInfos]. *)
Definition NewFileInfos (program : list File) (pkgInfo : PackageInfo)
  : text.result (list fileInfo) :=
  fileInfos program pkgInfo (Files pkgInfo).

(** The name a visit adds to [funcNames], if it adds one. *)
Definition knownName (files : list File) (uses : gmap Pos Object) (node : Node)
  : option string :=
  match classify files uses node with
  | Known name => Some name
  | _ => None
  end.

(** A file is scanned when the file set has it and it is not
    derived.gen.go. *)
Definition scanned (program : list File) (astFile : AstFile) : bool :=
  match Fset_File program (FilePos astFile) with
  | None => false
  | Some file => negb (String.eqb (snd (Split (derive.Name file))) derivedFilename)
  end.

(** A finder at the start of a file of the package [pkg], with one
    source file and the output of an earlier run. *)
Definition files0 : list File :=
  [ {| Name := "/go/src/pkg/a.go"; Base := 1; Size := 100 |};
    {| Name := "/go/src/pkg/derived.gen.go"; Base := 102; Size := 50 |} ].

Definition finder0 (uses : gmap Pos Object) : finder :=
  {| program := files0; pkgInfo := uses;
     undefined := []; derived := []; funcNames := ∅ |}.

End derive.

(* ===================================================================== *)
(** ** What the generators obtain from package derive                    *)
(* ===================================================================== *)

Module registry.

(** A field as a generator sees it.

    Modelled from the spec: derive/fields.go is not among the sources.
    The specification gives a field a position in declaration order, a
    type and a visibility flag, and has the aggregate marked as needing
    low-level access if any field is inaccessible. [Private] is that
    flag, [typeStr] the printed type of the field. *)
Record Field := {
  FieldName : string;
  Typ : types.type;               (* the field's [Type] *)
  typeStr : string;
  Private : bool
}.

(** [Field.Name(recv, unsafePkg)]: the expression that reads or writes the
    field of [recv]. Without an import it is the selector; with the
    import of unsafe it is the address of the field taken by reflection.

    Modelled from the spec: the fallback is an address computation
    equivalent to unsafe low-level field access. *)
Definition Name (f : Field) (recv : string) (unsafePkg : option string) : string :=
  match unsafePkg with
  | None => recv ++ "." ++ FieldName f
  | Some unsafe =>
      "*(*" ++ typeStr f ++ ")(" ++ unsafe ++ ".Pointer(" ++ recv
      ++ ".FieldByName(" ++ text.quote ++ FieldName f ++ text.quote
      ++ ").UnsafeAddr()))"
  end.

Record FieldSet := {
  Fields : list Field;
  Reflect : bool
}.

(** [derive.TypesMap] together with [derive.Fields], as the generators
    use them: the printed form of a type, the name of the function
    derived for a type, and the fields of a struct. [GetFuncName] also
    queues the type for generation; the queue does not change the text
    printed and is left out. *)
Record TypesMap := {
  TypeString : types.type -> string;
  GetFuncName : types.type -> string;
  StructFields : list (string * types.type) -> FieldSet
}.

(** [ast.IsExported]: the name starts with an upper-case letter. *)
Definition IsExported (name : string) : bool :=
  match name with
  | EmptyString => false
  | String c _ => helper.isUpper c
  end.

(** Modelled from the spec: the fields of a struct in declaration order,
    a field being inaccessible when it is not exported, and the struct
    needing low-level access when a field is inaccessible. *)
Definition derive_Fields (typeString : types.type -> string)
  (strct : list (string * types.type)) : FieldSet :=
  let fields :=
    List.map (fun f => {| FieldName := fst f; Typ := snd f;
                          typeStr := typeString (snd f);
                          Private := negb (IsExported (fst f)) |}) strct in
  {| Fields := fields; Reflect := existsb Private fields |}.

(** Modelled from the spec: the canonical name of the function derived
    for a type is the prefix followed by the label of the type. *)
Definition NewTypesMap (qual : types.Qualifier) (prefix : string) : TypesMap :=
  {| TypeString := fun typ => types.TypeString typ qual;
     GetFuncName := fun typ => prefix ++ helper.typeName typ qual;
     StructFields := derive_Fields (fun typ => types.TypeString typ qual) |}.

(** The names reserved so far, each for its argument types.

    Modelled from the spec: the registry (derive.TypesMap) is not among
    the sources. The specification has it reserve the name asked for,
    give the same name again to an identical request, and fail on a
    name taken by a request for other types when no renaming is
    allowed. *)
Definition Reserved := list (string * list types.type).

Fixpoint Identicals (xs ys : list types.type) : bool :=
  match xs, ys with
  | [], [] => true
  | x :: xs, y :: ys => types.Identical x y && Identicals xs ys
  | _, _ => false
  end.

Definition SetFuncName (name : string) (typs : list types.type) (r : Reserved)
  : text.result string * Reserved :=
  match List.find (fun e => String.eqb (fst e) name) r with
  | Some (_, typs') =>
      if Identicals typs typs' then (text.Ok name, r)
      else (text.Err (text.Sprintf "conflicting function names: %s" [name]), r)
  | None => (text.Ok name, app r [(name, typs)])
  end.

End registry.

(* ===================================================================== *)
(** ** plugin/copyto/copyto.go                                           *)
(* ===================================================================== *)

Module copyto.
Import text.

Record gen := {
  TypesMap : registry.TypesMap;
  bytesPkg : string;
  reflectPkg : string;
  unsafePkg : string
}.

Definition TypeString (g : gen) := registry.TypeString (TypesMap g).
Definition GetFuncName (g : gen) := registry.GetFuncName (TypesMap g).

(** [gen.Add]. [SetFuncName] is the registry's, acting on a registry
    state [r]; the two errors of [Add] itself leave the state alone. *)
Definition Add {R : Type}
  (SetFuncName : string -> list types.type -> R -> result string * R)
  (this : gen) (name : string) (typs : list types.type) (r : R)
  : result string * R :=
  if negb (Nat.eqb (length typs) 2) then
    (Err (Sprintf "%s does not have two arguments" [name]), r)
  else
    match typs with
    | typs0 :: typs1 :: _ =>
        if negb (types.Identical typs0 typs1) then
          (Err (Sprintf
                  "%s has two arguments, but they are of different types %s != %s"
                  [name; TypeString this typs0; TypeString this typs1]), r)
        else SetFuncName name [typs0] r
    | _ => (Panic "index out of range", r)
    end.

Definition nullable (typ : types.type) : bool :=
  match typ with
  | types.Pointer _ | types.Slice _ | types.Map _ _ => true
  | _ => false
  end.

Definition wrap (value : string) : string :=
  if HasPrefix value "*" || HasPrefix value "&" || HasSuffix1 value "]"
  then "(" ++ value ++ ")"
  else value.

Definition prepend (before after : string) : string :=
  let b := dropStars (firstField before) in
  b ++ "_" ++ after.

Fixpoint canCopy (tt : types.type) : bool :=
  let t := types.Underlying tt in
  match t with
  | types.Basic b => negb (bool_decide (types.Kind b = types.UntypedNil))
  | types.Struct fields => forallb (fun f => canCopy (snd f)) fields
  | types.Array _ elem => canCopy elem
  | _ => false
  end.

(** [hasCopyToMethod], for a named type: a method [CopyTo] with one
    parameter and no result. *)
Definition hasCopyToMethod (typ : types.type) : bool :=
  match typ with
  | types.Named _ _ _ methods =>
      existsb (fun meth =>
        String.eqb (fst meth) "CopyTo" &&
        match snd meth with
        | types.Signature params results =>
            Nat.eqb (length params) 1 && Nat.eqb (length results) 0
        | _ => false
        end) methods
  | _ => false
  end.

Definition isNamed (typ : types.type) : bool :=
  match typ with types.Named _ _ _ _ => true | _ => false end.

(** The two operands for a field of a struct reached through [this] and
    [that], [thisv] and [thatv] being the reflected values. *)
Definition fieldOperands (g : gen) (field : registry.Field)
  (this that thisv thatv : string) : string * string :=
  if negb (registry.Private field) then
    (registry.Name field this None, registry.Name field that None)
  else
    (registry.Name field thisv (Some (unsafePkg g)),
     registry.Name field thatv (Some (unsafePkg g))).

(** The loop over the elements that [genStatement] prints for a slice
    and for an array. *)
Definition rangeLoop (genField : types.type -> string -> string -> Gen unit)
  (elmType : types.type) (this that : string) : Gen unit :=
  let thisvalue := prepend this "value" in
  let thisi := prepend this "i" in
  printf "for %s, %s := range %s {" [thisi; thisvalue; this] ;;;
  emit In ;;;
  genField elmType thisvalue (wrap that ++ "[" ++ thisi ++ "]") ;;;
  emit Out ;;;
  printf "}" [].

(** [gen.genField]. The array case calls [genStatement] and drops its
    error; [genStatement] gets there with a type that cannot be copied
    and whose underlying type is an array, so what it prints is the loop
    over the elements ([genField_Array] below states it). *)
Fixpoint genField (g : gen) (fieldType : types.type)
  (thisField thatField : string) {struct fieldType} : Gen unit :=
  if canCopy fieldType then printf "%s = %s" [thatField; thisField]
  else
    let typ := types.Underlying fieldType in
    match typ with
    | types.Pointer ref =>
        printf "if %s == nil {" [thisField] ;;;
        emit In ;;;
        printf "%s = nil" [thatField] ;;;
        emit Out ;;;
        printf "} else {" [] ;;;
        emit In ;;;
        printf "%s = new(%s)" [thatField; TypeString g ref] ;;;
        (if isNamed ref && hasCopyToMethod ref then
           printf "%s.CopyTo(%s)" [wrap thisField; thatField]
         else if canCopy ref then
           printf "*%s = *%s" [thatField; thisField]
         else
           printf "%s(%s, %s)" [GetFuncName g typ; thisField; thatField]) ;;;
        emit Out ;;;
        printf "}" []
    | types.Array _ elmType =>
        (printed (rangeLoop (genField g) elmType thisField thatField), Ok tt)
    | types.Slice elem =>
        printf "if %s == nil {" [thisField] ;;;
        emit In ;;;
        printf "%s = nil" [thatField] ;;;
        emit Out ;;;
        printf "} else {" [] ;;;
        emit In ;;;
        printf "if %s != nil {" [thatField] ;;;
        emit In ;;;
        printf "if len(%s) > len(%s) {" [thisField; thatField] ;;;
        emit In ;;;
        printf "if cap(%s) >= len(%s) {" [thatField; thisField] ;;;
        emit In ;;;
        printf "%s = (%s)[:len(%s)]" [thatField; thatField; thisField] ;;;
        emit Out ;;;
        printf "} else {" [] ;;;
        emit In ;;;
        printf "%s = make(%s, len(%s))" [thatField; TypeString g typ; thisField] ;;;
        emit Out ;;;
        printf "}" [] ;;;
        emit Out ;;;
        printf "} else if len(%s) < len(%s) {" [thisField; thatField] ;;;
        emit In ;;;
        printf "%s = (%s)[:len(%s)]" [thatField; thatField; thisField] ;;;
        emit Out ;;;
        printf "}" [] ;;;
        emit Out ;;;
        printf "} else {" [] ;;;
        emit In ;;;
        printf "%s = make(%s, len(%s))" [thatField; TypeString g typ; thisField] ;;;
        emit Out ;;;
        printf "}" [] ;;;
        (if canCopy elem then
           printf "copy(%s, %s)" [thatField; thisField]
         else
           printf "%s(%s, %s)" [GetFuncName g typ; thisField; thatField]) ;;;
        emit Out ;;;
        printf "}" []
    | types.Map _ _ =>
        printf "if %s != nil {" [thisField] ;;;
        emit In ;;;
        printf "%s = make(%s, len(%s))" [thatField; TypeString g typ; thisField] ;;;
        printf "%s(%s, %s)" [GetFuncName g typ; thisField; thatField] ;;;
        emit Out ;;;
        printf "} else {" [] ;;;
        emit In ;;;
        printf "%s = nil" [thatField] ;;;
        emit Out ;;;
        printf "}" []
    | types.Struct _ =>
        printf "field := new(%s)" [TypeString g fieldType] ;;;
        (if isNamed fieldType && hasCopyToMethod fieldType then
           printf "%s.CopyTo(field)" [wrap thisField]
         else
           printf "%s(%s, %s)" [GetFuncName g fieldType; thisField; thatField]) ;;;
        printf "%s = *field" [thatField]
    | _ => Errorf "unsupported field type %s" [TypeString g fieldType]
    end.

(** [gen.genStatement]. *)
Definition genStatement (g : gen) (typ : types.type) (this that : string)
  : Gen unit :=
  if canCopy typ then printf "%s = %s" [that; this]
  else
    let unsupported : Gen unit :=
      Errorf "unsupported copyto type: %s" [TypeString g typ] in
    match types.Underlying typ with
    | types.Pointer reftyp =>
        let thisref := "*" ++ this in
        let thatref := "*" ++ that in
        match types.Underlying reftyp with
        | types.Struct strct =>
            if isNamed reftyp then
              let fields := registry.StructFields (TypesMap g) strct in
              if Nat.ltb 0 (length (registry.Fields fields)) then
                let thisv := prepend this "v" in
                let thatv := prepend that "v" in
                (if registry.Reflect fields then
                   printf (thisv ++ " := " ++ reflectPkg g ++ ".Indirect("
                           ++ reflectPkg g ++ ".ValueOf(%s))") [this] ;;;
                   printf (thatv ++ " := " ++ reflectPkg g ++ ".Indirect("
                           ++ reflectPkg g ++ ".ValueOf(%s))") [that]
                 else ret tt) ;;;
                forEach (registry.Fields fields) (fun field =>
                  let fieldType := registry.Typ field in
                  let (thisField, thatField) :=
                    fieldOperands g field this that thisv thatv in
                  genField g fieldType thisField thatField)
              else ret tt
            else unsupported
        | _ => genField g reftyp thisref thatref
        end
    | types.Slice elmType =>
        if canCopy elmType then printf "copy(%s, %s)" [that; this]
        else
          rangeLoop (genField g) elmType this that
    | types.Array _ elmType =>
        rangeLoop (genField g) elmType this that
    | types.Map keyType elmType =>
        let thiskey := prepend this "key" in
        let thisvalue := prepend this "value" in
        printf "for %s, %s := range %s {" [thiskey; thisvalue; this] ;;;
        emit In ;;;
        thatkey <- (if negb (canCopy keyType) then
                      genField g keyType thiskey thiskey ;;;
                      ret (prepend that "key")
                    else ret thiskey) ;;
        (if nullable elmType then
           printf "if %s == nil {" [thisvalue] ;;;
           emit In ;;;
           printf "%s = nil" [wrap that ++ "[" ++ thatkey ++ "]"] ;;;
           emit Out ;;;
           printf "}" []
         else ret tt) ;;;
        genField g elmType thisvalue (wrap that ++ "[" ++ thatkey ++ "]") ;;;
        emit Out ;;;
        printf "}" []
    | _ => unsupported
    end.

(** [New]: the generator for a package; an import gives the name of the
    package it imports. *)
Definition New (typesMap : registry.TypesMap) : gen :=
  {| TypesMap := typesMap;
     bytesPkg := "bytes";
     reflectPkg := "reflect";
     unsafePkg := "unsafe" |}.

(** The generator of a package [main] with the default prefix. *)
Definition main : gen :=
  New (registry.NewTypesMap (types.RelativeTo "main") "deriveCopyTo").

(** A struct of another package with an exported and an unexported
    field. *)
Definition mixed : types.type :=
  types.Named "lib" "T"
    (types.Struct [("A", types.Basic (types.Typ types.Int)); ("b", types.Basic (types.Typ types.String))])
    [].

(** The types that can be copied or compared in one piece, as the
    specification describes them, with the two precisions the code
    forces: a type is looked at through its underlying type, and the
    basic type of the untyped nil is not one of them. *)
Inductive bulk : types.type -> Prop :=
| bulk_basic (t : types.type) (b : types.BasicType) :
    types.Underlying t = types.Basic b -> types.Kind b <> types.UntypedNil ->
    bulk t
| bulk_struct (t : types.type) (fields : list (string * types.type)) :
    types.Underlying t = types.Struct fields ->
    Forall (fun f => bulk (snd f)) fields -> bulk t
| bulk_array (t : types.type) (n : Z) (elem : types.type) :
    types.Underlying t = types.Array n elem -> bulk elem -> bulk t.

(** The same closure with every basic type in it, as the specification
    words it. *)
Inductive bulkAsStated : types.type -> Prop :=
| stated_basic (t : types.type) (b : types.BasicType) :
    types.Underlying t = types.Basic b -> bulkAsStated t
| stated_struct (t : types.type) (fields : list (string * types.type)) :
    types.Underlying t = types.Struct fields ->
    Forall (fun f => bulkAsStated (snd f)) fields -> bulkAsStated t
| stated_array (t : types.type) (n : Z) (elem : types.type) :
    types.Underlying t = types.Array n elem -> bulkAsStated elem -> bulkAsStated t.

(** The first line of the loop [rangeLoop] prints. *)
Definition forLine (this : string) : Line :=
  P (Sprintf "for %s, %s := range %s {"
       [prepend this "i"; prepend this "value"; this]).

(** The types [genField] has a case for: those that can be copied in
    one piece, and those whose underlying type is a pointer, an array, a
    slice, a map or a struct. *)
Definition fieldSupported (fieldType : types.type) : bool :=
  canCopy fieldType ||
  match types.Underlying fieldType with
  | types.Pointer _ | types.Array _ _ | types.Slice _ | types.Map _ _
  | types.Struct _ => true
  | _ => false
  end.

(** The types [genField] has a case for and that, when they are arrays
    that cannot be copied in one piece, have such a type for
    elements. *)
Fixpoint sound (fieldType : types.type) : bool :=
  canCopy fieldType ||
  match types.Underlying fieldType with
  | types.Pointer _ | types.Slice _ | types.Map _ _ | types.Struct _ => true
  | types.Array _ elem => sound elem
  | _ => false
  end.

(** The types [genStatement] has a case for: those that can be copied
    in one piece, slices, arrays and maps, and pointers, except a
    pointer to a struct type that is not named. *)
Definition rootSupported (typ : types.type) : bool :=
  canCopy typ ||
  match types.Underlying typ with
  | types.Pointer reftyp =>
      match types.Underlying reftyp with
      | types.Struct _ => isNamed reftyp
      | _ => true
      end
  | types.Slice _ | types.Array _ _ | types.Map _ _ => true
  | _ => false
  end.

(** A result that is no panic and no error other than the one of
    [genField]. *)
Definition fieldError {A : Type} (g : gen) (r : result A) : Prop :=
  match r with
  | Ok _ => True
  | Err msg =>
      exists fieldType,
        msg = Sprintf "unsupported field type %s" [TypeString g fieldType]
  | Panic _ => False
  end.

(** [strings.HasPrefix(s, "(") && strings.HasSuffix(s, ")")] decides
    whether [not] adds parentheses. *)
Definition not (s : string) : string :=
  if HasPrefix s "(" && HasSuffix1 s ")" then "!" ++ s
  else "!(" ++ s ++ ")".

(** [gen.genFunc]; [g.Generating(typ)] is bookkeeping of the registry. *)
Definition genFunc (g : gen) (typ : types.type) : Gen unit :=
  let typeStr := TypeString g typ in
  printf "" [] ;;;
  printf "func %s(this, that %s) {" [GetFuncName g typ; typeStr] ;;;
  emit In ;;;
  genStatement g typ "this" "that" ;;;
  emit Out ;;;
  printf "}" [].

End copyto.

(* ===================================================================== *)
(** ** The compare plugin (in plugin/compose/compose.go)                 *)
(* ===================================================================== *)

Module compare.
Import text.

(** The generator; [keys] and [sort] are the [GetFuncName] of the two
    plugins it depends on. *)
Record compare := {
  TypesMap : registry.TypesMap;
  bytesPkg : string;
  stringsPkg : string;
  reflectPkg : string;
  unsafePkg : string;
  keys : types.type -> string;
  sort : types.type -> string
}.

Definition TypeString (g : compare) := registry.TypeString (TypesMap g).
Definition GetFuncName (g : compare) := registry.GetFuncName (TypesMap g).

(** [New]; [deps] gives, for the name of a plugin, the [GetFuncName] of
    its registry. *)
Definition New (typesMap : registry.TypesMap)
  (deps : string -> types.type -> string) : compare :=
  {| TypesMap := typesMap;
     bytesPkg := "bytes";
     stringsPkg := "strings";
     reflectPkg := "reflect";
     unsafePkg := "unsafe";
     keys := deps "keys";
     sort := deps "sort" |}.

(** [compare.Add]. *)
Definition Add {R : Type}
  (SetFuncName : string -> list types.type -> R -> result string * R)
  (this : compare) (name : string) (typs : list types.type) (r : R)
  : result string * R :=
  if negb (Nat.eqb (length typs) 2) then
    (Err (Sprintf "%s does not have two arguments" [name]), r)
  else
    match typs with
    | typs0 :: typs1 :: _ =>
        if negb (types.Identical typs0 typs1) then
          (Err (Sprintf
                  "%s has two arguments, but they are of different types %s != %s"
                  [name; TypeString this typs0; TypeString this typs1]), r)
        else SetFuncName name [typs0] r
    | _ => (Panic "index out of range", r)
    end.

(** [hasCompareMethod], for a named type: a method [Compare] with one
    parameter and the one result [int]. *)
Definition hasCompareMethod (typ : types.type) : bool :=
  match typ with
  | types.Named _ _ _ methods =>
      existsb (fun meth =>
        String.eqb (fst meth) "Compare" &&
        match snd meth with
        | types.Signature params [types.Basic b] =>
            Nat.eqb (length params) 1 && bool_decide (types.Kind b = types.Int)
        | _ => false
        end) methods
  | _ => false
  end.

Definition wrap (value : string) : string :=
  if HasPrefix value "*" || HasPrefix value "&"
  then "(" ++ value ++ ")"
  else value.

(** The case [*types.Pointer] of [compare.field]. *)
Definition fieldPointer (this : compare) (thisField thatField : string)
  (typ ref : types.type) : result string :=
  match ref with
  | types.Named _ _ _ _ =>
      if hasCompareMethod ref then
        Ok (Sprintf "%s.Compare(%s)" [wrap thisField; thatField])
      else
        Ok (Sprintf "%s(%s, %s)" [GetFuncName this typ; thisField; thatField])
  | _ => Ok (Sprintf "%s(%s, %s)" [GetFuncName this typ; thisField; thatField])
  end.

(** [compare.field]. A named type without a [Compare] method is handed
    on as a pointer to it, which is the pointer case. *)
Definition field (this : compare) (thisField thatField : string)
  (fieldType : types.type) : result string :=
  match fieldType with
  | types.Basic typ =>
      if bool_decide (types.Kind typ = types.String) then
        Ok (Sprintf "%s.Compare(%s, %s)" [stringsPkg this; thisField; thatField])
      else
        Ok (Sprintf "%s(%s, %s)" [GetFuncName this fieldType; thisField; thatField])
  | types.Pointer ref => fieldPointer this thisField thatField fieldType ref
  | types.Array _ _ | types.Map _ _ =>
      Ok (Sprintf "%s(%s, %s)" [GetFuncName this fieldType; thisField; thatField])
  | types.Slice elem =>
      match elem with
      | types.Basic b =>
          if bool_decide (types.Kind b = types.Byte) then
            Ok (Sprintf "%s.Compare(%s, %s)" [bytesPkg this; thisField; thatField])
          else
            Ok (Sprintf "%s(%s, %s)" [GetFuncName this fieldType; thisField; thatField])
      | _ =>
          Ok (Sprintf "%s(%s, %s)" [GetFuncName this fieldType; thisField; thatField])
      end
  | types.Named _ _ _ _ =>
      if hasCompareMethod fieldType then
        Ok (Sprintf "%s.Compare(&%s)" [thisField; thatField])
      else
        fieldPointer this ("&" ++ thisField) ("&" ++ thatField)
          (types.Pointer fieldType) fieldType
  | _ => Err (Sprintf "unsupported field type %s" [TypeString this fieldType])
  end.

(** The types [compare.field] has a case for. *)
Definition fieldSupported (fieldType : types.type) : bool :=
  match fieldType with
  | types.Struct _ | types.Signature _ _ | types.Chan _ | types.Interface _ => false
  | _ => true
  end.

(** The operands for a field of a struct reached through [this] and
    [that]. *)
Definition fieldOperands (g : compare) (field : registry.Field)
  (this that : string) : string * string :=
  if negb (registry.Private field) then
    (registry.Name field this None, registry.Name field that None)
  else
    (registry.Name field "thisv" (Some (unsafePkg g)),
     registry.Name field "thatv" (Some (unsafePkg g))).

(** The opening of the cases for pointers, slices and maps: nil against
    nil is equal, nil is less than anything else. *)
Definition nilChecks (this that : string) : Gen unit :=
  printf "if %s == nil {" [this] ;;;
  emit In ;;;
  printf "if %s == nil {" [that] ;;;
  emit In ;;;
  printf "return 0" [] ;;;
  emit Out ;;;
  printf "}" [] ;;;
  printf "return -1" [] ;;;
  emit Out ;;;
  printf "}" [] ;;;
  printf "if %s == nil {" [that] ;;;
  emit In ;;;
  printf "return 1" [] ;;;
  emit Out ;;;
  printf "}" [].

(** The comparison of the lengths, in the cases for slices, arrays and
    maps. *)
Definition lenChecks (this that : string) : Gen unit :=
  printf "if len(%s) != len(%s) {" [this; that] ;;;
  emit In ;;;
  printf "if len(%s) < len(%s) {" [this; that] ;;;
  emit In ;;;
  printf "return -1" [] ;;;
  emit Out ;;;
  printf "}" [] ;;;
  printf "return 1" [] ;;;
  emit Out ;;;
  printf "}" [].

(** [if c := ...; c != 0 { return c }]. *)
Definition returnIfDiffers (cmpStr : string) : Gen unit :=
  printf "if c := %s; c != 0 {" [cmpStr] ;;;
  emit In ;;;
  printf "return c" [] ;;;
  emit Out ;;;
  printf "}" [].

(** [compare.genStatement]. *)
Definition genStatement (g : compare) (typ : types.type) (this that : string)
  : Gen unit :=
  match typ with
  | types.Pointer reftyp =>
      nilChecks this that ;;;
      match reftyp with
      | types.Named _ _ underlying _ =>
          match underlying with
          | types.Struct strct =>
              let fields := registry.StructFields (TypesMap g) strct in
              (if registry.Reflect fields then
                 printf ("thisv := " ++ reflectPkg g ++ ".Indirect("
                         ++ reflectPkg g ++ ".ValueOf(" ++ this ++ "))") [] ;;;
                 printf ("thatv := " ++ reflectPkg g ++ ".Indirect("
                         ++ reflectPkg g ++ ".ValueOf(" ++ that ++ "))") []
               else ret tt) ;;;
              forEach (registry.Fields fields) (fun fld =>
                let fieldType := registry.Typ fld in
                let (thisField, thatField) := fieldOperands g fld this that in
                fieldStr <- lift (field g thisField thatField fieldType) ;;
                returnIfDiffers fieldStr) ;;;
              printf "return 0" []
          | _ => lift (Panic "interface conversion: types.Type is not *types.Struct")
          end
      | _ => printf "return %s(*%s, *%s)" [GetFuncName g reftyp; this; that]
      end
  | types.Basic ttyp =>
      match types.Kind ttyp with
      | types.String =>
          printf "return %s.Compare(%s, %s)" [stringsPkg g; this; that]
      | types.Complex128 | types.Complex64 =>
          printf "if thisr, thatr := real(%s), real(%s); thisr == thatr {" [this; that] ;;;
          emit In ;;;
          printf "if thisi, thati := imag(%s), imag(%s); thisi == thati {" [this; that] ;;;
          emit In ;;;
          printf "return 0" [] ;;;
          emit Out ;;;
          printf "} else if thisi < thati {" [] ;;;
          emit In ;;;
          printf "return -1" [] ;;;
          emit Out ;;;
          printf "} else {" [] ;;;
          emit In ;;;
          printf "return 1" [] ;;;
          emit Out ;;;
          printf "}" [] ;;;
          emit Out ;;;
          printf "} else if thisr < thatr {" [] ;;;
          emit In ;;;
          printf "return -1" [] ;;;
          emit Out ;;;
          printf "} else {" [] ;;;
          emit In ;;;
          printf "return 1" [] ;;;
          emit Out ;;;
          printf "}" []
      | types.Bool =>
          printf "if %s == %s {" [this; that] ;;;
          emit In ;;;
          printf "return 0" [] ;;;
          emit Out ;;;
          printf "}" [] ;;;
          printf "if %s {" [that] ;;;
          emit In ;;;
          printf "return -1" [] ;;;
          emit Out ;;;
          printf "}" [] ;;;
          printf "return 1" []
      | _ =>
          printf "if %s != %s {" [this; that] ;;;
          emit In ;;;
          printf "if %s < %s {" [this; that] ;;;
          emit In ;;;
          printf "return -1" [] ;;;
          emit Out ;;;
          printf "} else {" [] ;;;
          emit In ;;;
          printf "return 1" [] ;;;
          emit Out ;;;
          printf "}" [] ;;;
          emit Out ;;;
          printf "}" [] ;;;
          printf "return 0" []
      end
  | types.Named _ _ _ _ =>
      fieldStr <- lift (field g ("&" ++ this) ("&" ++ that) (types.Pointer typ)) ;;
      printf ("return " ++ fieldStr) []
  | types.Slice elem =>
      nilChecks this that ;;;
      lenChecks this that ;;;
      printf "for i := 0; i < len(%s); i++ {" [this] ;;;
      emit In ;;;
      cmpStr <- lift (field g (this ++ "[i]") (that ++ "[i]") elem) ;;
      returnIfDiffers cmpStr ;;;
      emit Out ;;;
      printf "}" [] ;;;
      printf "return 0" []
  | types.Array _ elem =>
      lenChecks this that ;;;
      printf "for i := 0; i < len(%s); i++ {" [this] ;;;
      emit In ;;;
      cmpStr <- lift (field g (this ++ "[i]") (that ++ "[i]") elem) ;;
      returnIfDiffers cmpStr ;;;
      emit Out ;;;
      printf "}" [] ;;;
      printf "return 0" []
  | types.Map key elem =>
      nilChecks this that ;;;
      lenChecks this that ;;;
      printf "thiskeys := %s(%s(%s))" [sort g (types.Slice key); keys g typ; this] ;;;
      printf "thatkeys := %s(%s(%s))" [sort g (types.Slice key); keys g typ; that] ;;;
      printf "for i, thiskey := range thiskeys {" [] ;;;
      emit In ;;;
      printf "thatkey := thatkeys[i]" [] ;;;
      printf "if thiskey == thatkey {" [] ;;;
      emit In ;;;
      printf "thisvalue := this[thiskey]" [] ;;;
      printf "thatvalue := that[thatkey]" [] ;;;
      cmpStr <- lift (field g "thisvalue" "thatvalue" elem) ;;
      returnIfDiffers cmpStr ;;;
      emit Out ;;;
      printf "} else {" [] ;;;
      emit In ;;;
      cmpStr2 <- lift (field g "thiskey" "thatkey" key) ;;
      returnIfDiffers cmpStr2 ;;;
      emit Out ;;;
      printf "}" [] ;;;
      emit Out ;;;
      printf "}" [] ;;;
      printf "return 0" []
  | _ => Errorf "unsupported compare type: %s" [TypeString g typ]
  end.

(** [compare.genFunc]. *)
Definition genFunc (g : compare) (typ : types.type) : Gen unit :=
  let typeStr := TypeString g typ in
  printf "" [] ;;;
  printf "func %s(this, that %s) int {" [GetFuncName g typ; typeStr] ;;;
  emit In ;;;
  genStatement g typ "this" "that" ;;;
  emit Out ;;;
  printf "}" [].

(** The generator of a package [main] with the plugins' default
    prefixes. *)
Definition main : compare :=
  New (registry.NewTypesMap (types.RelativeTo "main") "deriveCompare")
      (fun name =>
         registry.GetFuncName
           (registry.NewTypesMap (types.RelativeTo "main")
              (if String.eqb name "keys" then "deriveKeys" else "deriveSort"))).

End compare.

(* ===================================================================== *)
(** ** The first equal generator (package main, with helper.go)          *)
(* ===================================================================== *)

Module equal.
Import text.

Definition eqFuncPrefix : string := "deriveEqual".

(** The generator. Its [typesMap], which is not among the sources, keeps
    the types that still need a function; it does not change the text
    printed for a type and is left out. *)
Record equal := {
  qual : types.Qualifier;
  bytesPkg : string;
  prefix : string
}.

Definition newEqual (qual : types.Qualifier) (prefix : string) : equal :=
  {| qual := qual; bytesPkg := "bytes"; prefix := prefix |}.

Definition funcName (this : equal) (typ : types.type) : string :=
  eqFuncPrefix ++ helper.typeName typ (qual this).

Definition not (s : string) : string :=
  match s with
  | String "(" _ => "!" ++ s
  | _ => "!(" ++ s ++ ")"
  end.

Fixpoint isComparable (tt : types.type) : bool :=
  let t := types.Underlying tt in
  match t with
  | types.Basic b => negb (bool_decide (types.Kind b = types.UntypedNil))
  | types.Struct fields => forallb (fun f => isComparable (snd f)) fields
  | types.Array _ elem => isComparable elem
  | _ => false
  end.

(** [equal.field]. The format with [%[1]s], [%[2]s] and [%[3]s] is
    written with its arguments repeated. An unsupported type is printed
    with [%#v] in the source; the message here gives the type as
    [types.TypeString] does. *)
Fixpoint field (this : equal) (thisField thatField : string)
  (fieldType : types.type) : result string :=
  if isComparable fieldType then
    Ok (Sprintf "%s == %s" [thisField; thatField])
  else
    match fieldType with
    | types.Pointer ref =>
        match ref with
        | types.Named _ _ _ _ =>
            Ok (Sprintf "%s.Equal(%s)" [thisField; thatField])
        | _ =>
            match field this ("*" ++ thisField) ("*" ++ thatField) ref with
            | Ok eqStr =>
                Ok (Sprintf
                      "((%s == nil && %s == nil) || (%s != nil && %s != nil && %s))"
                      [thisField; thatField; thisField; thatField; eqStr])
            | Err msg => Err msg
            | Panic msg => Panic msg
            end
        end
    | types.Array _ _ =>
        Ok (Sprintf "%s(%s, %s)" [funcName this fieldType; thisField; thatField])
    | types.Slice elem =>
        match elem with
        | types.Basic b =>
            if bool_decide (types.Kind b = types.Byte) then
              Ok (Sprintf "%s.Equal(%s, %s)" [bytesPkg this; thisField; thatField])
            else
              Ok (Sprintf "%s(%s, %s)" [funcName this fieldType; thisField; thatField])
        | _ =>
            Ok (Sprintf "%s(%s, %s)" [funcName this fieldType; thisField; thatField])
        end
    | types.Map _ _ =>
        Ok (Sprintf "%s(%s, %s)" [funcName this fieldType; thisField; thatField])
    | types.Named _ _ _ _ =>
        Ok (Sprintf "%s.Equal(&%s)" [thisField; thatField])
    | _ =>
        Err (Sprintf "unsupported type %s" [types.TypeString fieldType (qual this)])
    end.

(** The types [equal.field] gives an expression for: those compared
    with [==], arrays, slices, maps, named types, pointers to named
    types, and pointers to such types. *)
Fixpoint fieldSupported (fieldType : types.type) : bool :=
  isComparable fieldType ||
  match fieldType with
  | types.Pointer ref =>
      match ref with
      | types.Named _ _ _ _ => true
      | _ => fieldSupported ref
      end
  | types.Array _ _ | types.Slice _ | types.Map _ _ | types.Named _ _ _ _ => true
  | _ => false
  end.

(** [if !(eqStr) { return false }]. *)
Definition returnFalseUnless (eqStr : string) : Gen unit :=
  printf "if %s {" [not eqStr] ;;;
  emit In ;;;
  printf "return false" [] ;;;
  emit Out ;;;
  printf "}" [].

(** The opening of the cases for slices and maps. *)
Definition nilAndLenChecks : Gen unit :=
  printf "if this == nil || that == nil {" [] ;;;
  emit In ;;;
  printf "return this == nil && that == nil" [] ;;;
  emit Out ;;;
  printf "}" [] ;;;
  printf "if len(this) != len(that) {" [] ;;;
  emit In ;;;
  printf "return false" [] ;;;
  emit Out ;;;
  printf "}" [].

(** The fields of a struct, one conjunct a line. *)
Fixpoint structFields (this : equal) (fields : list (string * types.type))
  : Gen unit :=
  match fields with
  | [] => ret tt
  | (fieldName, fieldType) :: rest =>
      let thisField := "this." ++ fieldName in
      let thatField := "that." ++ fieldName in
      fieldStr <- lift (field this thisField thatField fieldType) ;;
      (match rest with
       | _ :: _ => printf (fieldStr ++ " &&") []
       | [] => printf fieldStr []
       end) ;;;
      structFields this rest
  end.

(** [equal.genFuncFor]. *)
Definition genFuncFor (this : equal) (typ : types.type) : Gen unit :=
  let typeStr := types.TypeString typ (qual this) in
  printf "" [] ;;;
  printf "func %s(this, that %s) bool {" [funcName this typ; typeStr] ;;;
  emit In ;;;
  (match typ with
   | types.Pointer ref =>
       match types.Underlying ref with
       | types.Basic _ =>
           fieldStr <- lift (field this "this" "that" typ) ;;
           printf ("return " ++ fieldStr) []
       | (types.Slice _ | types.Array _ _ | types.Map _ _) as tttyp =>
           printf "return (this == nil && that == nil) || (this != nil) && (that != nil) && %s(%s, %s)"
                  [funcName this tttyp; "*this"; "*that"]
       | types.Struct fields =>
           (match fields with
            | [] => printf "return (this == nil && that == nil) || (this != nil) && (that != nil)" []
            | _ => printf "return (this == nil && that == nil) || (this != nil) && (that != nil) &&" []
            end) ;;;
           emit In ;;;
           structFields this fields ;;;
           emit Out
       | _ =>
           Errorf "unsupported: pointer is not a named struct, but %s"
                  [types.TypeString ref (qual this)]
       end
   | types.Slice elem =>
       nilAndLenChecks ;;;
       printf "for i := 0; i < len(this); i++ {" [] ;;;
       emit In ;;;
       eqStr <- lift (field this "this[i]" "that[i]" elem) ;;
       returnFalseUnless eqStr ;;;
       emit Out ;;;
       printf "}" [] ;;;
       printf "return true" []
   | types.Array _ elem =>
       printf "for i := 0; i < len(this); i++ {" [] ;;;
       emit In ;;;
       eqStr <- lift (field this "this[i]" "that[i]" elem) ;;
       returnFalseUnless eqStr ;;;
       emit Out ;;;
       printf "}" [] ;;;
       printf "return true" []
   | types.Map _ elem =>
       nilAndLenChecks ;;;
       printf "for k, v := range this {" [] ;;;
       emit In ;;;
       printf "thatv, ok := that[k]" [] ;;;
       printf "if !ok {" [] ;;;
       emit In ;;;
       printf "return false" [] ;;;
       emit Out ;;;
       printf "}" [] ;;;
       eqStr <- lift (field this "v" "thatv" elem) ;;
       returnFalseUnless eqStr ;;;
       emit Out ;;;
       printf "}" [] ;;;
       printf "return true" []
   | _ => Errorf "unsupported type: %s" [types.TypeString typ (qual this)]
   end) ;;;
  emit Out ;;;
  printf "}" [].

(** The first loop of [generateEqual], over the calls of the package: a
    call is the callee with the types of the arguments, which
    [pkgInfo.TypeOf] gives. The result is the types handed to
    [m.Set(t0, false)], in order. *)
Fixpoint requests (qual : types.Qualifier)
  (calls : list (derive.Node * list types.type)) : result (list types.type) :=
  match calls with
  | [] => Ok []
  | (Fun, Args) :: calls =>
      match Fun with
      | derive.Ident _ Name =>
          if negb (HasPrefix Name eqFuncPrefix) then requests qual calls
          else if negb (Nat.eqb (length Args) 2) then
            Err (Sprintf ("%s does not have two arguments" ++ newline) [Name])
          else
            match Args with
            | t0 :: t1 :: _ =>
                if negb (types.Identical t0 t1) then
                  Err (Sprintf
                         ("%s has two arguments, but they are of different types %s != %s"
                          ++ newline)
                         [Name; types.show t0; types.show t1])
                else
                  let name := TrimPrefix Name eqFuncPrefix in
                  let typeStr := helper.typeName t0 qual in
                  if negb (String.eqb typeStr name) then
                    Err (Sprintf ("%s's suffix %s does not match the type %s" ++ newline)
                           [Name; name; typeStr])
                  else
                    match requests qual calls with
                    | Ok typs => Ok (t0 :: typs)
                    | Err msg => Err msg
                    | Panic msg => Panic msg
                    end
            | _ => Panic "index out of range"
            end
      | _ => requests qual calls
      end
  end.

(** A call [requests] looks at: its callee is an identifier that starts
    with the prefix. *)
Definition isRequest (call : derive.Node * list types.type) : bool :=
  match fst call with
  | derive.Ident _ Name => HasPrefix Name eqFuncPrefix
  | _ => false
  end.

(** The name a call is made under, when its callee is an identifier. *)
Definition calleeName (call : derive.Node * list types.type) : string :=
  match fst call with
  | derive.Ident _ Name => Name
  | _ => ""
  end.

End equal.

(* ===================================================================== *)
(** ** The functions the generators print                                *)
(* ===================================================================== *)

(** The bodies printed for slices and maps, read as functions on Go
    values. A slice or map variable is [None] when it is nil. A function
    called from the body (the comparison of two elements, the sorting of
    keys) is a parameter, the keys a range over a map gives are an
    argument, and the calls made are recorded, so that "before any
    element is inspected" can be said. *)
Module generated.

(** A loop that returns the first result that is not zero, and zero
    when there is none: the value returned, and the number of results
    looked at. *)
Fixpoint firstNonZero (cs : list Z) : Z :=
  match cs with
  | [] => 0
  | c :: cs => if negb (c =? 0) then c else firstNonZero cs
  end.

Fixpoint upToNonZero (cs : list Z) : nat :=
  match cs with
  | [] => 0
  | c :: cs => if negb (c =? 0) then 1 else S (upToNonZero cs)
  end.

(** The body printed for an integer type:
    [if this != that { if this < that { return -1 } else { return 1 } };
    return 0]. *)
Definition compareInt (this that : Z) : Z :=
  if negb (this =? that) then
    if this <? that then -1 else 1
  else 0.

(** [bytes.Compare] of the Go library, as its documentation has it: the
    lexicographic order of two byte slices, -1, 0 or 1, a nil slice
    counting as an empty one. *)
Fixpoint bytesCompareList (a b : list Z) : Z :=
  match a, b with
  | [], [] => 0
  | [], _ :: _ => -1
  | _ :: _, [] => 1
  | x :: a, y :: b =>
      if x <? y then -1 else if y <? x then 1 else bytesCompareList a b
  end.

Definition bytesCompare (a b : option (list Z)) : Z :=
  bytesCompareList (default [] a) (default [] b).

(** The text of the body for a slice type; [cmpStr] is the comparison of
    the elements [this[i]] and [that[i]]. *)
Definition compareSliceText (this that cmpStr : string) : list text.Line :=
  [ text.P (text.Sprintf "if %s == nil {" [this]); text.In;
      text.P (text.Sprintf "if %s == nil {" [that]); text.In;
        text.P "return 0"; text.Out;
      text.P "}";
      text.P "return -1"; text.Out;
    text.P "}";
    text.P (text.Sprintf "if %s == nil {" [that]); text.In;
      text.P "return 1"; text.Out;
    text.P "}";
    text.P (text.Sprintf "if len(%s) != len(%s) {" [this; that]); text.In;
      text.P (text.Sprintf "if len(%s) < len(%s) {" [this; that]); text.In;
        text.P "return -1"; text.Out;
      text.P "}";
      text.P "return 1"; text.Out;
    text.P "}";
    text.P (text.Sprintf "for i := 0; i < len(%s); i++ {" [this]); text.In;
      text.P (text.Sprintf "if c := %s; c != 0 {" [cmpStr]); text.In;
        text.P "return c"; text.Out;
      text.P "}"; text.Out;
    text.P "}";
    text.P "return 0" ].

Section compareSlice.
Context {A : Type}.
(** The comparison the body calls for two elements, [cmpStr]. *)
Variable cmp : A -> A -> Z.

(** [for i := 0; i < len(this); i++ { if c := cmp(this[i], that[i]); c != 0
    { return c } }; return 0], from [i] with [n] rounds to go. The result
    is the indices inspected and the value returned, or [None] for an
    index out of range. *)
Fixpoint elementLoop (this that : list A) (i n : nat) : list nat * option Z :=
  match n with
  | O => ([], Some 0)
  | S n =>
      match this !! i, that !! i with
      | Some x, Some y =>
          let c := cmp x y in
          if negb (c =? 0) then ([i], Some c)
          else let (seen, r) := elementLoop this that (S i) n in (i :: seen, r)
      | _, _ => ([i], None)
      end
  end.

(** The body of [deriveCompare] for a slice type, [compareSliceText]
    with [cmp] for the meaning of [cmpStr]. *)
Definition compareSlice (this that : option (list A)) : list nat * option Z :=
  match this with
  | None =>
      match that with
      | None => ([], Some 0)
      | Some _ => ([], Some (-1))
      end
  | Some this =>
      match that with
      | None => ([], Some 1)
      | Some that =>
          if negb (Nat.eqb (length this) (length that)) then
            if Nat.ltb (length this) (length that) then ([], Some (-1))
            else ([], Some 1)
          else elementLoop this that 0 (length this)
      end
  end.

End compareSlice.

(** The text of the body for a map type; [sortName] and [keysName] are
    the functions derived for sorting a slice of keys and for the keys of
    the map, [cmpStr] compares [thisvalue] and [thatvalue], [cmpStr2]
    compares [thiskey] and [thatkey]. *)
Definition compareMapText (this that sortName keysName cmpStr cmpStr2 : string)
  : list text.Line :=
  [ text.P (text.Sprintf "if %s == nil {" [this]); text.In;
      text.P (text.Sprintf "if %s == nil {" [that]); text.In;
        text.P "return 0"; text.Out;
      text.P "}";
      text.P "return -1"; text.Out;
    text.P "}";
    text.P (text.Sprintf "if %s == nil {" [that]); text.In;
      text.P "return 1"; text.Out;
    text.P "}";
    text.P (text.Sprintf "if len(%s) != len(%s) {" [this; that]); text.In;
      text.P (text.Sprintf "if len(%s) < len(%s) {" [this; that]); text.In;
        text.P "return -1"; text.Out;
      text.P "}";
      text.P "return 1"; text.Out;
    text.P "}";
    text.P (text.Sprintf "thiskeys := %s(%s(%s))" [sortName; keysName; this]);
    text.P (text.Sprintf "thatkeys := %s(%s(%s))" [sortName; keysName; that]);
    text.P "for i, thiskey := range thiskeys {"; text.In;
      text.P "thatkey := thatkeys[i]";
      text.P "if thiskey == thatkey {"; text.In;
        text.P "thisvalue := this[thiskey]";
        text.P "thatvalue := that[thatkey]";
        text.P (text.Sprintf "if c := %s; c != 0 {" [cmpStr]); text.In;
          text.P "return c"; text.Out;
        text.P "}"; text.Out;
      text.P "} else {"; text.In;
        text.P (text.Sprintf "if c := %s; c != 0 {" [cmpStr2]); text.In;
          text.P "return c"; text.Out;
        text.P "}"; text.Out;
      text.P "}"; text.Out;
    text.P "}";
    text.P "return 0" ].

Section compareMap.
Context {K V : Type} `{Countable K}.
(** The zero value of the element type, which [m[k]] gives for a key
    that is not in the map. *)
Variable zero : V.
(** The functions the body calls: the sorting of a slice of keys, the
    comparison of two keys and of two values. The keys of a map are not
    a function of the map: they are arguments of [compareMap]. *)
Variable deriveSort : list K -> list K.
Variable cmpKey : K -> K -> Z.
Variable cmpValue : V -> V -> Z.

(** What [deriveKeys(m)] can return: the keys of [m], each once, in any
    order. Go does not fix the order of a range over a map, and two
    ranges over the same map need not agree.

    Modelled from the spec: the keys plugin is not among the sources;
    the Readme gives it the type [deriveKeys(map[K]V) []K]. *)
Definition keysOf (m : gmap K V) (keys : list K) : Prop :=
  keys ≡ₚ (map_to_list m).*1.

(** What the body does, in order: it asks for the keys of a map, sorts a
    slice of keys, compares two values, compares two keys. *)
Inductive Call :=
| Keys (m : gmap K V)
| SortKeys (keys : list K)
| CompareValues (thisvalue thatvalue : V)
| CompareKeys (thiskey thatkey : K).

(** [m[k]]. *)
Definition index (m : gmap K V) (k : K) : V :=
  match m !! k with
  | Some v => v
  | None => zero
  end.

(** [for i, thiskey := range thiskeys { ... }; return 0], at index [i]. *)
Fixpoint keyLoop (this that : gmap K V) (thiskeys thatkeys : list K) (i : nat)
  : list Call * option Z :=
  match thiskeys with
  | [] => ([], Some 0)
  | thiskey :: rest =>
      match thatkeys !! i with
      | None => ([], None)
      | Some thatkey =>
          if bool_decide (thiskey = thatkey) then
            let thisvalue := index this thiskey in
            let thatvalue := index that thatkey in
            let c := cmpValue thisvalue thatvalue in
            if negb (c =? 0) then ([CompareValues thisvalue thatvalue], Some c)
            else
              let (calls, r) := keyLoop this that rest thatkeys (S i) in
              (CompareValues thisvalue thatvalue :: calls, r)
          else
            let c := cmpKey thiskey thatkey in
            if negb (c =? 0) then ([CompareKeys thiskey thatkey], Some c)
            else
              let (calls, r) := keyLoop this that rest thatkeys (S i) in
              (CompareKeys thiskey thatkey :: calls, r)
      end
  end.

(** The body of [deriveCompare] for a map type, [compareMapText] with
    [deriveSort] for the sorting named there, [cmpValue] for the meaning
    of [cmpStr] and [cmpKey] for that of [cmpStr2]. [thisrange] and
    [thatrange] are what the two calls of [deriveKeys] return in this
    run, the keys of [this] and of [that] in the order the ranges
    happen to take. *)
Definition compareMap (thisrange thatrange : list K)
  (this that : option (gmap K V)) : list Call * option Z :=
  match this with
  | None =>
      match that with
      | None => ([], Some 0)
      | Some _ => ([], Some (-1))
      end
  | Some this =>
      match that with
      | None => ([], Some 1)
      | Some that =>
          if negb (Nat.eqb (size this) (size that)) then
            if Nat.ltb (size this) (size that) then ([], Some (-1))
            else ([], Some 1)
          else
            let thiskeys := deriveSort thisrange in
            let thatkeys := deriveSort thatrange in
            let (calls, r) := keyLoop this that thiskeys thatkeys 0 in
            (Keys this :: SortKeys thisrange :: Keys that :: SortKeys thatrange
               :: calls, r)
      end
  end.

(** What a pair of keys at the same index contributes: the comparison of
    the two values when the keys are equal, the comparison of the keys
    when they are not. *)
Definition verdict (this that : gmap K V) (p : K * K) : Z :=
  if bool_decide (fst p = snd p)
  then cmpValue (index this (fst p)) (index that (snd p))
  else cmpKey (fst p) (snd p).

Definition callFor (this that : gmap K V) (p : K * K) : Call :=
  if bool_decide (fst p = snd p)
  then CompareValues (index this (fst p)) (index that (snd p))
  else CompareKeys (fst p) (snd p).

End compareMap.

(** The text for a field of slice type; [typeStr] is the slice type and
    [copyLine] the statement that copies the elements. *)
Definition copySliceText (thisField thatField typeStr : string)
  (copyLine : text.Line) : list text.Line :=
  [ text.P (text.Sprintf "if %s == nil {" [thisField]); text.In;
      text.P (text.Sprintf "%s = nil" [thatField]); text.Out;
    text.P "} else {"; text.In;
      text.P (text.Sprintf "if %s != nil {" [thatField]); text.In;
        text.P (text.Sprintf "if len(%s) > len(%s) {" [thisField; thatField]); text.In;
          text.P (text.Sprintf "if cap(%s) >= len(%s) {" [thatField; thisField]); text.In;
            text.P (text.Sprintf "%s = (%s)[:len(%s)]" [thatField; thatField; thisField]);
            text.Out;
          text.P "} else {"; text.In;
            text.P (text.Sprintf "%s = make(%s, len(%s))" [thatField; typeStr; thisField]);
            text.Out;
          text.P "}"; text.Out;
        text.P (text.Sprintf "} else if len(%s) < len(%s) {" [thisField; thatField]); text.In;
          text.P (text.Sprintf "%s = (%s)[:len(%s)]" [thatField; thatField; thisField]);
          text.Out;
        text.P "}"; text.Out;
      text.P "} else {"; text.In;
        text.P (text.Sprintf "%s = make(%s, len(%s))" [thatField; typeStr; thisField]);
        text.Out;
      text.P "}";
      copyLine;
      text.Out;
    text.P "}" ].

(** The sorting of a slice of integers, as [deriveSort] gives it for
    [[]int]. *)
Definition sortInts (l : list Z) : list Z := merge_sort Z.le l.

Section copySlice.
Context {A : Type}.
(** The zero value of the element type, which [make] fills with. *)
Variable zero : A.

(** A slice that is not nil: the array it points into, where it starts
    there, its length and its capacity. *)
Record slice := { array : nat; start : nat; len : nat; cap : nat }.

(** The arrays allocated so far; [make] adds one at the end. *)
Definition heap := list (list A).

Definition reslice (s : slice) (n : nat) : slice :=
  {| array := array s; start := start s; len := n; cap := cap s |}.

(** [make([]T, n)]. *)
Definition make (h : heap) (n : nat) : heap * slice :=
  (app h [repeat zero n],
   {| array := length h; start := 0; len := n; cap := n |}).

(** The elements of a slice. *)
Definition elements (h : heap) (s : slice) : list A :=
  match h !! array s with
  | Some a => take (len s) (drop (start s) a)
  | None => []
  end.

(** Overwriting an array from position [i] on with the values [vs]. *)
Definition overwrite (a : list A) (i : nat) (vs : list A) : list A :=
  app (take i a) (app vs (drop (i + length vs) a)).

(** The builtin [copy(dst, src)]: the first [min(len(dst), len(src))]
    elements of [src], written over the start of [dst]. *)
Definition copy (h : heap) (dst src : slice) : heap :=
  let vs := take (Nat.min (len dst) (len src)) (elements h src) in
  match h !! array dst with
  | Some a => <[array dst := overwrite a (start dst) vs]> h
  | None => h
  end.

(** The copy of a field of slice type, [copySliceText] with
    [copyElements] for the meaning of [copyLine]: the builtin
    [copy(that, this)] when the elements can be copied, and the function
    derived for the slice type otherwise. The result is the heap and the
    new value of [that]. *)
Definition copySlice (copyElements : heap -> slice -> slice -> heap)
  (h : heap) (this that : option slice) : heap * option slice :=
  match this with
  | None => (h, None)
  | Some this =>
      let (h, that) :=
        match that with
        | Some that =>
            if Nat.ltb (len that) (len this) then
              if Nat.leb (len this) (cap that) then (h, reslice that (len this))
              else make h (len this)
            else if Nat.ltb (len this) (len that) then (h, reslice that (len this))
            else (h, that)
        | None => make h (len this)
        end in
      (copyElements h this that, Some that)
  end.

(** [copy(that, this)], with the arguments in the order of the derived
    function. *)
Definition builtinCopy (h : heap) (this that : slice) : heap := copy h that this.

(** The body printed for a slice type whose elements can be copied in
    one piece, [copy(that, this)], as the function derived for the slice
    type runs it: [that] is a parameter, so the slice of the caller
    keeps its array, its length and its capacity, and nothing is copied
    from or to a nil slice. The result is the heap and the slice the
    caller has afterwards. *)
Definition copyRoot (h : heap) (this that : option slice) : heap * option slice :=
  match this, that with
  | Some this, Some that => (builtinCopy h this that, Some that)
  | _, _ => (h, that)
  end.

(** A slice lies within an array of the heap. *)
Definition valid (h : heap) (s : slice) : Prop :=
  exists a, h !! array s = Some a /\
            (len s <= cap s)%nat /\ (start s + cap s <= length a)%nat.

End copySlice.

End generated.

(* ===================================================================== *)
(** ** The command: the loop of [main] over one package                  *)
(* ===================================================================== *)

Module driver.

(** What one pass over the package observes of its collaborators: the
    loader, the finder and the plugins' [Add], the plugins' [Generate]
    and the file system. Calls are kept as their [types.ExprString]. *)
Record Pass := {
  loadError : option string;      (* derive.Load(path), on a reload only *)
  addError : option string;       (* a plugin's Add refusing a call *)
  notgenerated : list string;     (* the calls no plugin took *)
  generateError : option string;  (* a plugin's Generate failing *)
  HasContent : bool;              (* p.HasContent() *)
  writeError : option string      (* os.Create or p.WriteTo failing *)
}.

(** What a run shows to the outside: lines on the log and writes of
    derived.gen.go, tagged with the pass that wrote it. *)
Inductive Event :=
| Printf (msg : string)
| WriteDerived (pass : nat).

(** [log.Fatal] ends the process; otherwise the body falls through to
    the loop test with the new value of [ungenerated]. *)
Inductive Step :=
| Fatal (msg : string)
| Next (ungenerated : Z).

(** The body of [for ungenerated != 0 { ... }], pass number [i]. *)
Definition body (i : nat) (ungenerated : Z) (p : Pass) : list Event * Step :=
  match (if ungenerated >? 0 then loadError p else None) with
  | Some err => ([], Fatal err)
  | None =>
  match addError p with
  | Some err => ([], Fatal err)
  | None =>
  let len := Z.of_nat (length (notgenerated p)) in
  match (if (len >? 0) && (ungenerated =? len) then notgenerated p else []) with
  | c :: _ => ([], Fatal ("cannot generate " ++ c))
  | [] =>
  let ungenerated := len in
  let log := List.map (fun c => Printf ("could not yet generate: " ++ c))
                      (notgenerated p) in
  match generateError p with
  | Some err => (log, Fatal err)
  | None =>
  if HasContent p then
    match writeError p with
    | Some err => (log, Fatal err)
    | None => (app log [WriteDerived i], Next ungenerated)
    end
  else (log, Next ungenerated)
  end end end end.

Inductive Exit :=
| ExitFatal (msg : string)   (* non-zero status *)
| ExitOK                     (* the loop ended *)
| Running.                   (* still looping when the fuel ran out *)

(** [ungenerated := -1; for ungenerated != 0 { body }], the passes being
    given by [passes]. *)
Fixpoint loop (fuel : nat) (passes : nat -> Pass) (i : nat) (ungenerated : Z)
  : list Event * Exit :=
  if ungenerated =? 0 then ([], ExitOK)
  else
    match fuel with
    | O => ([], Running)
    | S fuel =>
        match body i ungenerated (passes i) with
        | (log, Fatal msg) => (log, ExitFatal msg)
        | (log, Next ungenerated) =>
            let (log', exit) := loop fuel passes (S i) ungenerated in
            (app log log', exit)
        end
    end.

Definition run (fuel : nat) (passes : nat -> Pass) : list Event * Exit :=
  loop fuel passes 0%nat (-1).

(** How the loop goes on after a pass. *)
Definition loopsAgain (s : Step) : bool :=
  match s with Next u => negb (u =? 0) | Fatal _ => false end.
Definition succeeds (s : Step) : bool :=
  match s with Next u => u =? 0 | Fatal _ => false end.
Definition aborts (s : Step) : bool :=
  match s with Fatal _ => true | Next _ => false end.
Definition wrote (i : nat) (log : list Event) : bool :=
  existsb (fun e => match e with WriteDerived j => Nat.eqb i j | _ => false end) log.

(** A pass in which the collaborators raise no error of their own. *)
Definition quiet (p : Pass) : Prop :=
  loadError p = None /\ addError p = None /\
  generateError p = None /\ writeError p = None.

(** A pass that leaves [cs] and has generated code to write. *)
Definition leaves (cs : list string) : Pass :=
  {| loadError := None; addError := None; notgenerated := cs;
     generateError := None; HasContent := true; writeError := None |}.

(** A generator of the list of [main] together with its plugin:
    [g.Name()], [g.GetPrefix()] and [plugins[g.Name()].Add], which acts
    on the state [S] of the plugins. The arguments are [call.Args] as
    they are, a nil type being [None]. *)
Record Generator (S : Type) := {
  GeneratorName : string;
  GetPrefix : string;
  Add : string -> list (option types.type) -> S -> text.result string * S
}.
Arguments GeneratorName {S} g.
Arguments GetPrefix {S} g.
Arguments Add {S} g name typs s.

(** What the loop over the calls of a file does besides collecting the
    calls that are not generated. *)
Inductive Action :=
| Asked (generator name : string) (typs : list (option types.type))
                                         (* p.Add(call.Name, call.Args) *)
| Logged (msg : string)                  (* log.Printf *)
| NewIdent (call : derive.Node) (name : string).
                                         (* call.Expr.Fun = ast.NewIdent(name) *)

Section calls.
Context {S : Type}.
Variables autoname dedup : bool.

(** The function literal [generated := func() bool { ... }()], from the
    generators [gs] on: the first generator whose prefix the name of the
    call has is asked, and no other. The result is [generated], the new
    value of [changed] and the state of the plugins; [log.Fatalf] is
    [Err]. *)
Fixpoint generated (gs : list (Generator S)) (call : derive.Call)
  (changed : bool) (s : S) : list Action * text.result (bool * bool * S) :=
  match gs with
  | [] => ([], text.Ok (false, changed, s))
  | g :: gs =>
      if negb (text.HasPrefix (derive.CallName call) (GetPrefix g)) then
        generated gs call changed s
      else
        let (r, s) := Add g (derive.CallName call) (derive.CallArgs call) s in
        let asked :=
          Asked (GeneratorName g) (derive.CallName call) (derive.CallArgs call) in
        match r with
        | text.Err err =>
            ([asked], text.Err (text.Sprintf "%s: %s" [GeneratorName g; err]))
        | text.Panic msg => ([asked], text.Panic msg)
        | text.Ok name =>
            if negb (String.eqb name (derive.CallName call)) then
              if negb autoname && negb dedup then
                ([asked],
                 text.Panic "unreachable: function names cannot be changed if it is not allowed by the user")
              else
                ([asked;
                  Logged (text.Sprintf "changing function call name from %s to %s"
                            [derive.CallName call; name]);
                  NewIdent (derive.Expr call) name],
                 text.Ok (true, true, s))
            else ([asked], text.Ok (true, changed, s))
        end
  end.

(** [for _, call := range calls { ... }] for the calls of one file, with
    the generators of [main]. *)
Fixpoint forCalls (generators : list (Generator S)) (calls : list derive.Call)
  (notgenerated : list derive.Node) (changed : bool) (s : S)
  : list Action * text.result (list derive.Node * bool * S) :=
  match calls with
  | [] => ([], text.Ok (notgenerated, changed, s))
  | call :: calls =>
      if derive.HasUndefined call then
        forCalls generators calls (app notgenerated [derive.Expr call]) changed s
      else
        match generated generators call changed s with
        | (acts, text.Ok (isGenerated, changed, s)) =>
            let notgenerated :=
              if negb isGenerated then app notgenerated [derive.Expr call]
              else notgenerated in
            let (acts', r) := forCalls generators calls notgenerated changed s in
            (app acts acts', r)
        | (acts, text.Err msg) => (acts, text.Err msg)
        | (acts, text.Panic msg) => (acts, text.Panic msg)
        end
  end.

End calls.

(** The generator that takes a call is the first whose prefix the name
    of the call starts with. *)
Definition takes {S : Type} (call : derive.Call) (g : Generator S) : bool :=
  text.HasPrefix (derive.CallName call) (GetPrefix g).

(** What a call makes the loop ask: nothing when an argument is
    undefined, and otherwise the first generator that takes it. *)
Definition request {S : Type} (generators : list (Generator S))
  (call : derive.Call) : list Action :=
  if derive.HasUndefined call then []
  else
    match List.find (takes call) generators with
    | Some g =>
        [Asked (GeneratorName g) (derive.CallName call) (derive.CallArgs call)]
    | None => []
    end.

(** A generator whose plugin accepts every request under the name asked
    for. *)
Definition accepting (name prefix : string) : Generator unit :=
  {| GeneratorName := name; GetPrefix := prefix;
     Add := fun name _ s => (text.Ok name, s) |}.

Definition isAsked (a : Action) : bool :=
  match a with Asked _ _ _ => true | _ => false end.

Definition isNewIdent (a : Action) : bool :=
  match a with NewIdent _ _ => true | _ => false end.

End driver.

(* ===================================================================== *)
(** ** The gostring plugin                                               *)
(* ===================================================================== *)

Module gostring.
Import text.

(** The generator, with what it uses of its [derive.TypesMap]:
    [IsExternal] for a named type, and [derive.Fields] for the fields of
    a struct, which here takes the flag [external]. *)
Record gen := {
  TypeString : types.type -> string;
  GetFuncName : types.type -> string;
  IsExternal : types.type -> bool;
  Fields : list (string * types.type) -> bool -> registry.FieldSet;
  strconvPkg : string;
  bytesPkg : string;
  fmtPkg : string
}.

(** [gen.Add]. *)
Definition Add {R : Type}
  (SetFuncName : string -> list types.type -> R -> result string * R)
  (this : gen) (name : string) (typs : list types.type) (r : R)
  : result string * R :=
  if negb (Nat.eqb (length typs) 1) then
    (Err (Sprintf "%s does not have two arguments" [name]), r)
  else
    match typs with
    | typs0 :: _ => SetFuncName name [typs0] r
    | [] => (Panic "index out of range", r)
    end.

(** [gen.W]: a line that, when the derived function runs, writes the
    line [s] to its buffer. The format holds a quoted string that ends
    in the two characters of a Go line feed escape. *)
Definition W (g : gen) (format : string) (a : list string) : Gen unit :=
  let s := Sprintf format a in
  printf ("%s.Fprintf(buf, " ++ quote ++ "%s\n" ++ quote ++ ")") [fmtPkg g; s].

(** The line printed for a value that [%#v] or a derived function
    renders. *)
Definition assign (g : gen) (this verb value : string) : Gen unit :=
  printf ("%s.Fprintf(buf, " ++ quote ++ "%s = %s\n" ++ quote ++ ", %s)")
         [fmtPkg g; this; verb; value].

(** The loop over the elements of a slice or an array. *)
Definition elements (g : gen) (elmTyp : types.type) (this : string) : Gen unit :=
  printf "for i := range %s {" [this] ;;;
  emit In ;;;
  let goStringElm := GetFuncName g elmTyp in
  printf ("%s.Fprintf(buf, " ++ quote ++ "%s[%s] = %s\n" ++ quote ++ ", %s, %s)")
         [fmtPkg g; this; "%d"; "%s"; "i"; goStringElm ++ "(" ++ this ++ "[i])"] ;;;
  emit Out ;;;
  printf "}" [].

(** [gen.genField]. *)
Definition genField (g : gen) (fieldType : types.type) (this : string)
  : Gen unit :=
  match types.Underlying fieldType with
  | types.Basic _ => assign g this "%#v" this
  | (types.Pointer _) as typ =>
      printf "if %s != nil {" [this] ;;;
      emit In ;;;
      assign g this "%s" (GetFuncName g typ ++ "(" ++ this ++ ")") ;;;
      emit Out ;;;
      printf "}" []
  | (types.Slice elmTyp) as typ =>
      printf "if %s != nil {" [this] ;;;
      emit In ;;;
      (match elmTyp with
       | types.Basic _ => assign g this "%#v" this
       | _ =>
           printf ("%s.Fprintf(buf, " ++ quote ++ "%s = make(%s, %s)\n" ++ quote
                   ++ ", %s)")
                  [fmtPkg g; this; TypeString g typ; "%d"; "len(" ++ this ++ ")"] ;;;
           elements g elmTyp this
       end) ;;;
      emit Out ;;;
      printf "}" []
  | types.Array _ elmTyp =>
      match elmTyp with
      | types.Basic _ => assign g this "%#v" this
      | _ => elements g elmTyp this
      end
  | _ => Errorf "unsupported field type %s" [types.show fieldType]
  end.

(** [gen.genStatement]. An unsupported type is printed with [%#v] in the
    source; the message here gives the type as [%s] does. *)
Definition genStatement (g : gen) (typ : types.type) (this : string) : Gen unit :=
  match types.Underlying typ with
  | types.Basic _ =>
      printf ("%s.Fprintf(buf, " ++ quote ++ "return %s\n" ++ quote ++ ", %s)")
             [fmtPkg g; "%#v"; this]
  | types.Pointer reftyp =>
      printf "if %s == nil {" [this] ;;;
      emit In ;;;
      W g "return nil" [] ;;;
      emit Out ;;;
      printf "} else {" [] ;;;
      emit In ;;;
      let thisref := "*" ++ this in
      (match types.Underlying reftyp with
       | types.Struct strct =>
           match reftyp with
           | types.Named _ _ _ _ =>
               let external := IsExternal g reftyp in
               let fields := Fields g strct external in
               if Nat.eqb (length (registry.Fields fields)) 0 then
                 W g "return &%s{}" [TypeString g reftyp]
               else
                 W g "%s := &%s{}" [this; TypeString g reftyp] ;;;
                 forEach (registry.Fields fields) (fun field =>
                   if registry.Private field then
                     Errorf "private fields not supported, found %s in %s"
                            [registry.Name field "" None; types.show reftyp]
                   else
                     let thisField := registry.Name field this None in
                     genField g (registry.Typ field) thisField) ;;;
                 W g "return %s" [this]
           | _ => ret tt
           end
       | _ =>
           W g "%s := new(%s)" [this; TypeString g reftyp] ;;;
           (printed (genField g reftyp thisref), Ok tt) ;;;
           W g "return %s" [this]
       end) ;;;
      emit Out ;;;
      printf "}" []
  | _ => Errorf "unsupported root type: %s" [types.show typ]
  end.

(** [gen.genFunc]; [g.Generating(typ)] is bookkeeping of the registry. *)
Definition genFunc (g : gen) (typ : types.type) : Gen unit :=
  let typeStr := TypeString g typ in
  printf "" [] ;;;
  printf "func %s(this %s) string {" [GetFuncName g typ; typeStr] ;;;
  emit In ;;;
  printf "buf := %s.NewBuffer(nil)" [bytesPkg g] ;;;
  printf ("%s.Fprintf(buf, " ++ quote ++ "func() %s {\n" ++ quote ++ ")")
         [fmtPkg g; typeStr] ;;;
  genStatement g typ "this" ;;;
  printf ("%s.Fprintf(buf, " ++ quote ++ "}()\n" ++ quote ++ ")") [fmtPkg g] ;;;
  printf "return buf.String()" [] ;;;
  emit Out ;;;
  printf "}" [].

(** The generator of a package [main]; every struct is taken to be
    declared in the package, and its fields are those of
    [registry.derive_Fields]. *)
Definition main : gen :=
  {| TypeString := fun typ => types.TypeString typ (types.RelativeTo "main");
     GetFuncName := fun typ =>
       "deriveGoString" ++ helper.typeName typ (types.RelativeTo "main");
     IsExternal := fun _ => false;
     Fields := fun strct _ =>
       registry.derive_Fields
         (fun typ => types.TypeString typ (types.RelativeTo "main")) strct;
     strconvPkg := "strconv";
     bytesPkg := "bytes";
     fmtPkg := "fmt" |}.

(** The types [genStatement] generates for: a type whose underlying type
    is basic, or a pointer; behind the pointer, a named struct must have
    no private field, and fields of types [genField] has a case for. *)
Definition fieldSupported (fieldType : types.type) : bool :=
  match types.Underlying fieldType with
  | types.Basic _ | types.Pointer _ | types.Slice _ | types.Array _ _ => true
  | _ => false
  end.

Definition rootSupported (g : gen) (typ : types.type) : bool :=
  match types.Underlying typ with
  | types.Basic _ => true
  | types.Pointer reftyp =>
      match types.Underlying reftyp with
      | types.Struct strct =>
          match reftyp with
          | types.Named _ _ _ _ =>
              forallb (fun field => negb (registry.Private field)
                                    && fieldSupported (registry.Typ field))
                      (registry.Fields (Fields g strct (IsExternal g reftyp)))
          | _ => true
          end
      | _ => true
      end
  | _ => false
  end.

End gostring.

(* ===================================================================== *)
(** ** The compose plugin (in plugin/compose/compose.go)                 *)
(* ===================================================================== *)

Module compose.
Import text.

(** The generator, with what it uses of its [derive.TypesMap]: here
    [GetFuncName] takes all the types of a request. *)
Record gen := {
  TypeString : types.type -> string;
  GetFuncName : list types.type -> string
}.

Definition typeStrings (g : gen) (typs : list types.type) : list string :=
  List.map (TypeString g) typs.

Definition wrap (s : string) : string :=
  if Contains1 s "," then "(" ++ s ++ ")" else s.

Definition vars (prefix : string) (num : nat) : list string :=
  List.map (fun i => prefix ++ types.Itoa (Z.of_nat i)) (seq 0 num).

(** [zip]: [rr[i]] is out of range when [rr] is shorter than [ss]. *)
Fixpoint zip (ss rr : list string) : result (list string) :=
  match ss with
  | [] => Ok []
  | s :: ss =>
      match rr with
      | [] => Panic "index out of range"
      | r :: rr =>
          match zip ss rr with
          | Ok qq => Ok ((s ++ " " ++ r) :: qq)
          | Err msg => Err msg
          | Panic msg => Panic msg
          end
      end
  end.

Section gen.
(** [derive.IsError] and [derive.Zero] are not among the sources, and
    [types.AssignableTo] is go/types: the generator is read with any
    three such functions. *)
Variable IsError : types.type -> bool.
Variable AssignableTo : types.type -> types.type -> bool.
Variable Zero : types.type -> string.

(** What the Go runtime reports when a nil pointer is dereferenced. *)
Definition nilDereference : string :=
  "invalid memory address or nil pointer dereference".

(** [gen.errorType]. For a function without results [Results()] is a
    nil tuple in go/types: its [Len()] is 0, and
    [Results().At(Results().Len() - 1)] reads the variables of the nil
    tuple, which dereferences a nil pointer. *)
Definition errorType (g : gen) (name : string) (typs : list types.type)
  : result (list types.type * list types.type * list types.type) :=
  if negb (Nat.eqb (length typs) 2) then
    Err (Sprintf "%s does not have two arguments" [name])
  else
    match typs with
    | typs0 :: typs1 :: _ =>
        match typs0 with
        | types.Signature params results =>
            let as_ := params in
            if Nat.eqb (length results) 0 then
              Err (Sprintf "%s, the first function, %s, does not return any parameters"
                     [name; types.show typs0])
            else
              match last results with
              | None => Panic nilDereference
              | Some errType =>
                  if negb (IsError errType) then
                    Err (Sprintf
                           "%s, the first function's last result, %s, is not of type error"
                           [name; types.show errType])
                  else
                    let bs := removelast results in
                    match typs1 with
                    | types.Signature params2 results2 =>
                        if negb (Nat.eqb (length params2) (length bs)) then
                          Err (Sprintf
                                 "%s, the second function's (%s) number of input parameters do not match the first function's (%s) number of output parameters"
                                 [name; types.show typs1; types.show typs0])
                        else if negb (forallb (fun p => AssignableTo (fst p) (snd p))
                                        (combine bs params2)) then
                          Err (Sprintf
                                 "%s, the second function's (%s) input parameters types do not match the first function's (%s) output parameters types"
                                 [name; types.show typs1; types.show typs0])
                        else
                          match last results2 with
                          | None => Panic nilDereference
                          | Some errType2 =>
                              if negb (IsError errType) then
                                Err (Sprintf
                                       "%s, the second function's last result, %s, is not of type error"
                                       [name; types.show errType2])
                              else
                                let cs := removelast results2 in
                                Ok (as_, bs, cs)
                          end
                    | _ =>
                        Err (Sprintf
                               "%s, the second argument, %s, is not of type function"
                               [name; types.show typs1])
                    end
              end
        | _ =>
            Err (Sprintf "%s, the first argument, %s, is not of type function"
                   [name; types.show typs0])
        end
    | _ => Panic "index out of range"
    end.

(** [gen.Add]. *)
Definition Add {R : Type}
  (SetFuncName : string -> list types.type -> R -> result string * R)
  (g : gen) (name : string) (typs : list types.type) (r : R)
  : result string * R :=
  if negb (Nat.eqb (length typs) 2) then
    (Err (Sprintf "%s does not have two arguments" [name]), r)
  else
    match typs with
    | typs0 :: _ =>
        match typs0 with
        | types.Signature _ _ =>
            match errorType g name typs with
            | Err err => (Err err, r)
            | Panic msg => (Panic msg, r)
            | Ok _ => SetFuncName name typs r
            end
        | _ => (Err (Sprintf "unsupported type %s" [types.show typs0]), r)
        end
    | [] => (Panic "index out of range", r)
    end.

(** [gen.genError]; [g.Generating(typs...)] is bookkeeping of the
    registry. *)
Definition genError (g : gen) (typs : list types.type) : Gen unit :=
  let name := GetFuncName g typs in
  abc <- lift (errorType g name typs) ;;
  let '(as_, bs, cs) := abc in
  let ats := typeStrings g as_ in
  let bts := typeStrings g bs in
  let cts := typeStrings g cs in
  let bterrs := app bts ["error"] in
  let cterrs := app cts ["error"] in
  let a := types.Join ats ", " in
  let b := types.Join bterrs ", " in
  let c := types.Join cterrs ", " in
  printf "" [] ;;;
  if Nat.ltb 0 (length ats) then
    printf "func %s(f func(%s) %s, g func(%s) %s) func(%s) %s {"
           [name; a; wrap b; types.Join bts ", "; wrap c; a; wrap c] ;;;
    emit In ;;;
    let avars := vars "a" (length ats) in
    avartyps <- lift (zip avars ats) ;;
    printf "return func(%s) %s {" [types.Join avartyps ", "; wrap c] ;;;
    emit In ;;;
    let bvars := vars "b" (length bts) in
    let bvarserr := app bvars ["err"] in
    printf "%s := f(%s)" [types.Join bvarserr ", "; types.Join avars ", "] ;;;
    printf "if err != nil {" [] ;;;
    emit In ;;;
    let zeros := List.map Zero cs in
    let ret := app zeros ["err"] in
    printf "return %s" [types.Join ret ", "] ;;;
    emit Out ;;;
    printf "}" [] ;;;
    printf "return g(%s)" [types.Join bvars ", "] ;;;
    emit Out ;;;
    printf "}" [] ;;;
    emit Out ;;;
    printf "}" []
  else
    printf "func %s(f func() %s, g func(%s) %s) %s {"
           [name; wrap b; types.Join bts ", "; wrap c; wrap c] ;;;
    emit In ;;;
    let bvars := vars "b" (length bts) in
    let bvarserr := app bvars ["err"] in
    printf "%s := f()" [types.Join bvarserr ", "] ;;;
    printf "if err != nil {" [] ;;;
    emit In ;;;
    let zeros := List.map Zero cs in
    let ret := app zeros ["err"] in
    printf "return %s" [types.Join ret ", "] ;;;
    emit Out ;;;
    printf "}" [] ;;;
    printf "return g(%s)" [types.Join bvars ", "] ;;;
    emit Out ;;;
    printf "}" [].

(** [gen.Generate]. *)
Definition Generate (g : gen) (typs : list types.type) : Gen unit :=
  match typs with
  | typs0 :: _ =>
      match typs0 with
      | types.Signature _ _ => genError g typs
      | _ =>
          Errorf
            "unsupported type %s, not (a slice of slices) or (a slice of string) or (a function and error)"
            [types.show typs0]
      end
  | [] => lift (Panic "index out of range")
  end.

End gen.

(** The predeclared type [error], and a function that recognises it,
    for the examples; the generator of a package [main]. *)
Definition error : types.type := types.Named "" "error" (types.Interface []) [].

Definition isError (typ : types.type) : bool :=
  match typ with
  | types.Named "" "error" _ _ => true
  | _ => false
  end.

Definition main : gen :=
  {| TypeString := fun typ => types.TypeString typ (types.RelativeTo "main");
     GetFuncName := fun _ => "deriveCompose" |}.

(** The conditions under which [errorType] accepts two function types:
    the first has a last result that is an error, the second takes what
    the first returns before it, and the second has a result. *)
Definition composable (IsError : types.type -> bool)
  (AssignableTo : types.type -> types.type -> bool)
  (params results params2 results2 : list types.type) : Prop :=
  (exists errType, last results = Some errType /\ IsError errType = true) /\
  length params2 = length (removelast results) /\
  Forall2 (fun b b2 => AssignableTo b b2 = true) (removelast results) params2 /\
  results2 <> [].

End compose.

(* ===================================================================== *)
(** ** The max plugin (in plugin/compose/compose.go)                     *)
(* ===================================================================== *)

Module max.
Import text.

(** The generator; [compare] is the [GetFuncName] of the compare
    plugin. *)
Record gen := {
  TypeString : types.type -> string;
  GetFuncName : list types.type -> string;
  compare : types.type -> string
}.

Section gen.
(** [types.AssignableTo] is go/types: the generator is read with any
    such function. *)
Variable AssignableTo : types.type -> types.type -> bool.

(** [gen.Add]. *)
Definition Add {R : Type}
  (SetFuncName : string -> list types.type -> R -> result string * R)
  (this : gen) (name : string) (typs : list types.type) (r : R)
  : result string * R :=
  if negb (Nat.eqb (length typs) 2) then
    (Err (Sprintf "%s does not have two arguments" [name]), r)
  else
    match typs with
    | typs0 :: typs1 :: _ =>
        if types.Identical typs0 typs1 then SetFuncName name [typs0; typs1] r
        else
          match typs0 with
          | types.Slice elem =>
              if negb (AssignableTo typs1 elem) then
                (Err (Sprintf
                        "%s, the second argument, %s, is not is assignable to an element that of the slice type %s"
                        [name; types.show typs1; types.show typs0]), r)
              else SetFuncName name [typs0; typs1] r
          | _ =>
              (Err (Sprintf "%s, the first argument, %s, is not of type slice"
                      [name; types.show typs0]), r)
          end
    | _ => (Panic "index out of range", r)
    end.

End gen.

(** [gen.genTwo]. *)
Definition genTwo (this : gen) (typ typ2 : types.type) : Gen unit :=
  let typeStr := TypeString this typ in
  printf "" [] ;;;
  printf "func %s(a, b %s) %s {" [GetFuncName this [typ; typ2]; typeStr; typeStr] ;;;
  emit In ;;;
  (match typ with
   | types.Basic _ => printf "if a > b {" []
   | _ => printf "if %s(a, b) > 0 {" [compare this typ]
   end) ;;;
  emit In ;;;
  printf "return a" [] ;;;
  emit Out ;;;
  printf "}" [] ;;;
  printf "return b" [] ;;;
  emit Out ;;;
  printf "}" [].

(** The text of the function for a slice: [head] is its first line and
    [test] the line that compares an element with the maximum so far. *)
Definition maxSliceText (head test : string) : list Line :=
  [ P "";
    P head; In;
      P "if len(list) == 0 {"; In;
        P "return def"; Out;
      P "}";
      P "m := list[0]";
      P "list = list[1:]";
      P "for i, v := range list {"; In;
        P test; In;
          P "m = list[i]"; Out;
        P "}"; Out;
      P "}";
      P "return m"; Out;
    P "}" ].

(** [gen.genSlice], for the slice type with the element type [etyp]. *)
Definition genSlice (this : gen) (etyp typ2 : types.type) : Gen unit :=
  let typ := types.Slice etyp in
  let typeStr := TypeString this etyp in
  printf "" [] ;;;
  printf "func %s(list []%s, def %s) %s {"
         [GetFuncName this [typ; typ2]; typeStr; typeStr; typeStr] ;;;
  emit In ;;;
  printf "if len(list) == 0 {" [] ;;;
  emit In ;;;
  printf "return def" [] ;;;
  emit Out ;;;
  printf "}" [] ;;;
  printf "m := list[0]" [] ;;;
  printf "list = list[1:]" [] ;;;
  printf "for i, v := range list {" [] ;;;
  emit In ;;;
  (match etyp with
   | types.Basic _ => printf "if v > m {" []
   | _ => printf "if %s(v, m) > 0 {" [compare this etyp]
   end) ;;;
  emit In ;;;
  printf "m = list[i]" [] ;;;
  emit Out ;;;
  printf "}" [] ;;;
  emit Out ;;;
  printf "}" [] ;;;
  printf "return m" [] ;;;
  emit Out ;;;
  printf "}" [].

(** [gen.Generate]. *)
Definition Generate (this : gen) (typs : list types.type) : Gen unit :=
  match typs with
  | typs0 :: typs1 :: _ =>
      if types.Identical typs0 typs1 then genTwo this typs0 typs1
      else
        match typs0 with
        | types.Slice etyp => genSlice this etyp typs1
        | _ =>
            Errorf "%s, the first argument, %s, is not of type slice"
                   [GetFuncName this [typs0; typs1]; types.show typs0]
        end
  | _ => lift (Panic "index out of range")
  end.

(** The generator of a package [main]. *)
Definition main : gen :=
  {| TypeString := fun typ => types.TypeString typ (types.RelativeTo "main");
     GetFuncName := fun _ => "deriveMax";
     compare := fun typ =>
       "deriveCompare" ++ helper.typeName typ (types.RelativeTo "main") |}.

Section derived.
Context {T : Type}.
(** [v > m], or [deriveCompare(v, m) > 0] for an element type that is
    not basic. *)
Variable greater : T -> T -> bool.

(** The function printed by [genTwo]. *)
Definition deriveMaxTwo (a b : T) : T :=
  if greater a b then a else b.

(** [for i, v := range list { if v > m { m = list[i] } }], at index [i],
    with [rest] the elements from [i] on. *)
Fixpoint rangeList (list_ : list T) (rest : list T) (i : nat) (m : T) : T :=
  match rest with
  | [] => m
  | v :: rest =>
      let m := if greater v m
               then match list_ !! i with Some x => x | None => m end
               else m in
      rangeList list_ rest (S i) m
  end.

(** The function printed by [genSlice], [maxSliceText]. *)
Definition deriveMax (list_ : list T) (def : T) : T :=
  if Nat.eqb (length list_) 0 then def
  else
    match list_ with
    | [] => def
    | m :: list_ => rangeList list_ list_ 0 m
    end.

End derived.

End max.

(* ===================================================================== *)
(** * Properties                                                         *)
(* ===================================================================== *)

Module helper_facts.
Import helper.

Lemma append_assoc (a b c : string) : (a ++ b) ++ c = a ++ (b ++ c).
Proof. induction a as [|x a IH]; simpl; [reflexivity|now rewrite IH]. Qed.

Lemma lower_app (a b : string) : lower (a ++ b) = lower a && lower b.
Proof.
  induction a as [|x a IH]; simpl; [reflexivity|].
  rewrite IH. now rewrite andb_assoc.
Qed.

(** A lower-case word followed by a separator can be read back in one
    way only. *)
Lemma split_unique (a b s1 s2 : string) :
  lower a = true -> lower b = true -> sep s1 = true -> sep s2 = true ->
  a ++ s1 = b ++ s2 -> a = b /\ s1 = s2.
Proof.
  revert b. induction a as [|x a IH]; intros [|y b] La Lb S1 S2 E; simpl in *.
  - now split.
  - subst s1. simpl in S1. apply andb_true_iff in Lb as [Hy _].
    rewrite S1 in Hy. discriminate.
  - subst s2. simpl in S2. apply andb_true_iff in La as [Hx _].
    rewrite S2 in Hx. discriminate.
  - injection E as -> E.
    apply andb_true_iff in La as [_ La]. apply andb_true_iff in Lb as [_ Lb].
    destruct (IH b La Lb S1 S2 E) as [-> ->]. now split.
Qed.

Lemma lower_uint (d : Decimal.uint) : lower (NilEmpty.string_of_uint d) = true.
Proof. induction d; simpl; auto. Qed.

Lemma lower_Itoa (n : Z) : lower (types.Itoa n) = true.
Proof.
  unfold types.Itoa, NilZero.string_of_int, NilZero.string_of_uint.
  destruct (Z.to_int n) as [d|d]; destruct d; simpl; auto using lower_uint.
Qed.

Lemma Itoa_inj (n m : Z) : types.Itoa n = types.Itoa m -> n = m.
Proof.
  unfold types.Itoa. intros E.
  assert (H : forall z, NilZero.int_of_string (NilZero.string_of_int (Z.to_int z))
                        = Some (Z.to_int z)).
  { intros z. apply NilZero.isi; destruct z; simpl; try discriminate;
      intros [= Hp]; revert Hp; apply DecimalPos.Unsigned.to_uint_nonnil. }
  apply (f_equal NilZero.int_of_string) in E. rewrite !H in E.
  injection E as E. now apply DecimalZ.to_int_inj.
Qed.

Lemma append_nil_r (a : string) : a ++ "" = a.
Proof. induction a as [|x a IH]; simpl; [reflexivity|now rewrite IH]. Qed.

(** Two ways of cutting the same text: one of the first parts is a
    prefix of the other. *)
Lemma prefix_cases (a b c d : string) :
  a ++ b = c ++ d ->
  (exists x, c = a ++ x /\ b = x ++ d) \/ (exists x, a = c ++ x /\ d = x ++ b).
Proof.
  revert c. induction a as [|x a IH]; intros c E; simpl in E.
  - left. exists c. now split.
  - destruct c as [|y c]; simpl in E.
    + right. exists (String x a). now split.
    + injection E as -> E. destruct (IH c E) as [(z & -> & ->)|(z & -> & ->)].
      * left. now exists z.
      * right. now exists z.
Qed.

Lemma HasPrefix_nil (s : string) : text.HasPrefix s "" = true.
Proof. now destruct s. Qed.

Lemma Contains_To (a b : string) : text.Contains (a ++ "To" ++ b) "To" = true.
Proof.
  induction a as [|x a IH]; [now destruct b|].
  change (text.HasPrefix (String x (a ++ "To" ++ b)) "To"
          || text.Contains (a ++ "To" ++ b) "To" = true).
  rewrite IH. apply orb_true_r.
Qed.

(** A leaf cannot be another leaf with more text after it, when what
    follows each of them is nothing or [To]. *)
Lemma key_extend (a x s : string) :
  keyLeaf a = true -> keyLeaf (a ++ x) = true ->
  follows (x ++ s) = true -> follows s = true -> x = "".
Proof.
  intros Ta Tb Sx Ss. destruct x as [|c x]; [reflexivity|exfalso].
  simpl in Sx. apply andb_true_iff in Sx as [Hc Sx].
  apply Ascii.eqb_eq in Hc as ->.
  destruct x as [|c x]; simpl in Sx.
  - destruct s as [|c s]; [discriminate Sx|].
    simpl in Sx, Ss. apply andb_true_iff in Sx as [Hc _].
    apply andb_true_iff in Ss as [Hc' _].
    apply Ascii.eqb_eq in Hc as ->. discriminate Hc'.
  - apply andb_true_iff in Sx as [Hc _]. apply Ascii.eqb_eq in Hc as ->.
    destruct a as [|c a]; [discriminate Ta|].
    unfold keyLeaf in Tb. cbn [String.append] in Tb.
    change (String "T" (String "o" x)) with ("To" ++ x) in Tb.
    rewrite Contains_To in Tb. discriminate Tb.
Qed.

(** A leaf followed by nothing or by [To] can be read back in one way
    only. *)
Lemma key_split (a b s1 s2 : string) :
  keyLeaf a = true -> keyLeaf b = true ->
  follows s1 = true -> follows s2 = true ->
  a ++ s1 = b ++ s2 -> a = b /\ s1 = s2.
Proof.
  intros Ta Tb S1 S2 E.
  destruct (prefix_cases _ _ _ _ E) as [(x & -> & ->)|(x & -> & ->)].
  - rewrite (key_extend a x s2 Ta Tb S1 S2). now rewrite append_nil_r.
  - rewrite (key_extend b x s1 Tb Ta S2 S1). now rewrite append_nil_r.
Qed.

(* One more character of the leaf [a] read against a tag: either the
   leaf ends here, and what follows it is not [To] (or the leaf is
   [Ptr]), or the character is that of the tag. *)
Ltac peel a E :=
  destruct a as [|? a];
  [ simpl in E; subst; simpl in *; discriminate
  | simpl in E; injection E as -> E ].

Ltac tagged Ta :=
  unfold keyLeaf, startsWithTag in Ta; simpl in Ta;
  rewrite HasPrefix_nil, ?andb_false_r in Ta; discriminate Ta.

Lemma key_not_PtrTo (a s rest : string) :
  keyLeaf a = true -> follows s = true -> a ++ s = "PtrTo" ++ rest -> False.
Proof. intros Ta S E. do 5 peel a E. tagged Ta. Qed.

Lemma key_not_SliceOf (a s rest : string) :
  keyLeaf a = true -> follows s = true -> a ++ s = "SliceOf" ++ rest -> False.
Proof. intros Ta S E. do 7 peel a E. tagged Ta. Qed.

Lemma key_not_MapOf (a s rest : string) :
  keyLeaf a = true -> follows s = true -> a ++ s = "MapOf" ++ rest -> False.
Proof. intros Ta S E. do 5 peel a E. tagged Ta. Qed.

Lemma key_not_Array (a s rest : string) :
  keyLeaf a = true -> follows s = true -> a ++ s = "Array" ++ rest -> False.
Proof. intros Ta S E. do 5 peel a E. tagged Ta. Qed.

Lemma typeName_leaf qual t : isLeaf t = true -> typeName t qual = types.TypeString t qual.
Proof. destruct t; simpl; intros; congruence. Qed.

Lemma tagFreeKey_leaf qual t :
  isLeaf t = true -> tagFreeKey qual t = keyLeaf (types.TypeString t qual).
Proof. destruct t; simpl; intros; congruence. Qed.

Lemma tagFree_leaf qual t :
  isLeaf t = true ->
  tagFree qual t = negb (startsWithTag (types.TypeString t qual)).
Proof. destruct t; simpl; intros; congruence. Qed.

(** The label of a pointer, array, slice or map begins with its tag. *)
Lemma typeName_tag qual t : isLeaf t = false -> startsWithTag (typeName t qual) = true.
Proof.
  destruct t; try discriminate; intros _; unfold startsWithTag; simpl;
    rewrite HasPrefix_nil; reflexivity.
Qed.

Lemma sameShape_leaf qual t u :
  isLeaf t = true -> isLeaf u = true ->
  sameShape qual t u = String.eqb (types.TypeString t qual) (types.TypeString u qual).
Proof. destruct t, u; simpl; intros; congruence. Qed.

(** Reading back the label of a key: a label followed by nothing or by
    [To] determines the shape of the type and the rest of the text. *)
Lemma typeName_key qual t :
  tagFreeKey qual t = true ->
  forall u s1 s2,
    tagFreeKey qual u = true -> follows s1 = true -> follows s2 = true ->
    typeName t qual ++ s1 = typeName u qual ++ s2 ->
    sameShape qual t u = true /\ s1 = s2.
Proof.
  assert (leaf_tag : forall a b s1 s2,
    isLeaf a = true -> isLeaf b = false -> tagFreeKey qual a = true ->
    follows s1 = true ->
    typeName a qual ++ s1 = typeName b qual ++ s2 -> False).
  { intros a b s1 s2 La Lb Ta S1 E.
    rewrite (tagFreeKey_leaf _ _ La) in Ta. rewrite (typeName_leaf _ _ La) in E.
    destruct b; try discriminate Lb; simpl in E.
    - exact (key_not_PtrTo _ _ _ Ta S1 E).
    - exact (key_not_Array _ _ _ Ta S1 E).
    - exact (key_not_SliceOf _ _ _ Ta S1 E).
    - exact (key_not_MapOf _ _ _ Ta S1 E). }
  assert (leaf_leaf : forall a b s1 s2,
    isLeaf a = true -> isLeaf b = true ->
    tagFreeKey qual a = true -> tagFreeKey qual b = true ->
    follows s1 = true -> follows s2 = true ->
    typeName a qual ++ s1 = typeName b qual ++ s2 ->
    sameShape qual a b = true /\ s1 = s2).
  { intros a b s1 s2 La Lb Ta Tb S1 S2 E.
    rewrite (tagFreeKey_leaf _ _ La) in Ta. rewrite (tagFreeKey_leaf _ _ Lb) in Tb.
    rewrite (typeName_leaf _ _ La), (typeName_leaf _ _ Lb) in E.
    destruct (key_split _ _ _ _ Ta Tb S1 S2 E) as [E1 E2].
    split; [|exact E2].
    rewrite (sameShape_leaf _ _ _ La Lb). now apply String.eqb_eq. }
  induction t as [k|e IH|n e IH|e IH|k IHk e IHe|fs|pkg nm un ms|ps rs|e _|ms];
    intros Tt u s1 s2 Tu S1 S2 E;
    try (destruct (isLeaf u) eqn:Lu;
         [ apply leaf_leaf; first [reflexivity | assumption]
         | exfalso; revert E; apply leaf_tag; first [reflexivity | assumption] ]).
  - (* pointer *)
    destruct u; try (exfalso; symmetry in E; revert E; apply leaf_tag;
           first [reflexivity | assumption]);
      simpl in E; try discriminate E.
    injection E as E. simpl in *. eauto.
  - (* array *)
    destruct u as [| |m e'| | | | | | |]; try (exfalso; symmetry in E; revert E; apply leaf_tag;
           first [reflexivity | assumption]);
      simpl in E; try discriminate E.
    injection E as E. rewrite !append_assoc in E.
    apply split_unique in E as [En E]; auto using lower_Itoa.
    apply Itoa_inj in En as ->. simpl in E. injection E as E.
    simpl in *. rewrite Z.eqb_refl. simpl. eauto.
  - (* slice *)
    destruct u; try (exfalso; symmetry in E; revert E; apply leaf_tag;
           first [reflexivity | assumption]);
      simpl in E; try discriminate E.
    injection E as E. simpl in *. eauto.
  - (* map *)
    destruct u as [| | | |k' e'| | | | |]; try (exfalso; symmetry in E; revert E; apply leaf_tag;
           first [reflexivity | assumption]);
      simpl in E; try discriminate E.
    injection E as E. rewrite !append_assoc in E. simpl in Tt, Tu.
    apply andb_true_iff in Tt as [Tk Te]. apply andb_true_iff in Tu as [Tk' Te'].
    apply IHk in E as [Hk E]; auto; try (simpl; apply HasPrefix_nil).
    simpl in E. injection E as E.
    apply IHe in E as [He E]; auto.
    simpl. rewrite Hk, He. auto.
Qed.

(** Reading back a whole label: the leaf that ends it has nothing after
    it, and need only not begin with a tag. *)
Lemma typeName_whole qual t :
  tagFree qual t = true ->
  forall u, tagFree qual u = true ->
    typeName t qual = typeName u qual -> sameShape qual t u = true.
Proof.
  assert (leaf_tag : forall a b,
    isLeaf a = true -> isLeaf b = false -> tagFree qual a = true ->
    typeName a qual = typeName b qual -> False).
  { intros a b La Lb Ta E.
    rewrite (tagFree_leaf _ _ La) in Ta. rewrite <- (typeName_leaf _ _ La) in Ta.
    rewrite E, (typeName_tag _ _ Lb) in Ta. discriminate Ta. }
  assert (leaf_leaf : forall a b,
    isLeaf a = true -> isLeaf b = true ->
    typeName a qual = typeName b qual -> sameShape qual a b = true).
  { intros a b La Lb E.
    rewrite (typeName_leaf _ _ La), (typeName_leaf _ _ Lb) in E.
    rewrite (sameShape_leaf _ _ _ La Lb). now apply String.eqb_eq. }
  induction t as [k|e IH|n e IH|e IH|k _ e IHe|fs|pkg nm un ms|ps rs|e _|ms];
    intros Tt u Tu E;
    try (destruct (isLeaf u) eqn:Lu;
         [ apply leaf_leaf; first [reflexivity | assumption]
         | exfalso; revert E; apply leaf_tag; first [reflexivity | assumption] ]).
  - (* pointer *)
    destruct u; try (exfalso; symmetry in E; revert E; apply leaf_tag;
           first [reflexivity | assumption]);
      simpl in E; try discriminate E.
    injection E as E. simpl in *. eauto.
  - (* array *)
    destruct u as [| |m e'| | | | | | |]; try (exfalso; symmetry in E; revert E; apply leaf_tag;
           first [reflexivity | assumption]);
      simpl in E; try discriminate E.
    injection E as E.
    apply split_unique in E as [En E]; auto using lower_Itoa.
    apply Itoa_inj in En as ->. simpl in E. injection E as E.
    simpl in *. rewrite Z.eqb_refl. simpl. eauto.
  - (* slice *)
    destruct u; try (exfalso; symmetry in E; revert E; apply leaf_tag;
           first [reflexivity | assumption]);
      simpl in E; try discriminate E.
    injection E as E. simpl in *. eauto.
  - (* map *)
    destruct u as [| | | |k' e'| | | | |]; try (exfalso; symmetry in E; revert E; apply leaf_tag;
           first [reflexivity | assumption]);
      simpl in E; try discriminate E.
    injection E as E. simpl in Tt, Tu.
    apply andb_true_iff in Tt as [Tk Te]. apply andb_true_iff in Tu as [Tk' Te'].
    apply (typeName_key qual k Tk k' _ _ Tk') in E as [Hk E];
      try (simpl; apply HasPrefix_nil).
    simpl in E. injection E as E.
    simpl. rewrite Hk. simpl. eauto.
Qed.

Lemma keyLeaf_startsWithTag (s : string) :
  keyLeaf s = true -> negb (startsWithTag s) = true.
Proof.
  destruct s as [|c r]; [discriminate|]. unfold keyLeaf. intros H.
  apply andb_true_iff in H as [H _]. now apply andb_true_iff in H as [_ H].
Qed.

(** A type that can stand as a key avoids the tag words. *)
Lemma tagFreeKey_tagFree qual t : tagFreeKey qual t = true -> tagFree qual t = true.
Proof.
  induction t as [k|e IH|n e IH|e IH|k _ e IHe|fs|pkg nm un ms|ps rs|e _|ms];
    simpl; auto; try apply keyLeaf_startsWithTag.
  intros H. apply andb_true_iff in H as [Hk He]. now rewrite Hk, IHe.
Qed.

Lemma sameShape_leaf_l qual t u :
  isLeaf t = true ->
  sameShape qual t u
  = isLeaf u && String.eqb (types.TypeString t qual) (types.TypeString u qual).
Proof. destruct t; try discriminate; destruct u; reflexivity. Qed.

Lemma sameShape_typeName qual t :
  forall u, sameShape qual t u = true -> typeName t qual = typeName u qual.
Proof.
  induction t as [k|e IH|n e IH|e IH|k IHk e IHe|fs|pkg nm un ms|ps rs|e _|ms];
    intros u H;
    try (rewrite sameShape_leaf_l in H by reflexivity;
         apply andb_true_iff in H as [Lu H]; apply String.eqb_eq in H;
         rewrite (typeName_leaf _ u Lu); exact H).
  - destruct u; simpl in H; try discriminate H.
    simpl. now rewrite (IH _ H).
  - destruct u; simpl in H; try discriminate H.
    apply andb_true_iff in H as [Hn H]. apply Z.eqb_eq in Hn as ->.
    simpl. now rewrite (IH _ H).
  - destruct u; simpl in H; try discriminate H.
    simpl. now rewrite (IH _ H).
  - destruct u; simpl in H; try discriminate H.
    apply andb_true_iff in H as [Hk H].
    simpl. rewrite (IHk _ Hk), (IHe _ H). reflexivity.
Qed.

(** C2 (as amended): [typeName] is a function of the type as it prints.
    Two types with the same pointer/array/slice/map structure, the same
    array lengths and leaves that print alike get the same label; and on
    types whose leaves avoid the tag words (see [tagFree]: the leaf that
    ends the label does not begin with [PtrTo], [Array], [SliceOf] or
    [MapOf], and a leaf that ends the key of a map is moreover not
    empty, not [Ptr], and has no [To] after its first character) the
    label is injective up to that: two such types with the same label
    have the same structure, the same array lengths and leaves that
    print alike. *)
Theorem typeName_injective_on_tagFree (qual : types.Qualifier) (t u : types.type) :
  (sameShape qual t u = true -> typeName t qual = typeName u qual) /\
  (tagFree qual t = true -> tagFree qual u = true ->
   typeName t qual = typeName u qual -> sameShape qual t u = true).
Proof.
  split; [apply sameShape_typeName|].
  intros Tt Tu E. exact (typeName_whole qual t Tt u Tu E).
Qed.

Lemma typeName_injective_on_tagFree_witness :
  let qual := types.RelativeTo "main" in
  let Foo := types.Named "main" "Foo" (types.Struct []) [] in
  let Foo' := types.Named "" "Foo" (types.Struct [("A", types.Basic (types.Typ types.Int))]) [] in
  let Stringer :=
    types.Interface [("String", types.Signature [] [types.Basic (types.Typ types.String)])] in
  let t := types.Pointer (types.Slice Foo) in
  let u := types.Pointer (types.Slice Foo') in
  let v := types.Map (types.Named "lib" "Foo" (types.Struct []) [])
             (types.Array 3 (types.Map Stringer
                               (types.Named "token" "Token" (types.Struct []) []))) in
  (typeName t qual = "PtrToSliceOfFoo" /\ typeName u qual = "PtrToSliceOfFoo" /\
   typeName v qual
   = "MapOflib.FooToArray3OfMapOfinterface{String() string}Totoken.Token") /\
  (tagFree qual t = true /\ tagFree qual u = true /\ tagFree qual v = true) /\
  sameShape qual t u = true /\
  typeName v qual = typeName v qual.
Proof.
  cbv zeta.
  set (qual := types.RelativeTo "main").
  set (t := types.Pointer (types.Slice (types.Named "main" "Foo" _ _))).
  set (u := types.Pointer (types.Slice (types.Named "" "Foo" _ _))).
  set (v := types.Map _ _).
  split; [repeat split|]. split; [repeat split|]. split.
  - apply (proj2 (typeName_injective_on_tagFree qual t u)); reflexivity.
  - apply (proj1 (typeName_injective_on_tagFree qual v v)). reflexivity.
Defined.

Lemma BasicName_inj (k1 k2 : types.BasicKind) :
  types.BasicName (types.Typ k1) = types.BasicName (types.Typ k2) -> k1 = k2.
Proof. destruct k1, k2; intros E; try reflexivity; discriminate E. Qed.

Lemma basicOnly_tagFree (qual : types.Qualifier) (t : types.type) :
  basicOnly t = true -> tagFreeKey qual t = true.
Proof.
  induction t as [b|e IH|n e IH|e IH|k IHk e IHe| | | | |]; simpl;
    try discriminate; auto.
  - destruct b as [k| |]; try discriminate. now destruct k.
  - intros H. apply andb_true_iff in H as [Hk He].
    now rewrite IHk, IHe.
Qed.

Lemma sameShape_basicOnly (qual : types.Qualifier) (t : types.type) :
  forall u, basicOnly t = true -> basicOnly u = true ->
            sameShape qual t u = true -> t = u.
Proof.
  induction t as [b|e IH|n e IH|e IH|k IHk e IHe| | | | |]; intros u Bt Bu S;
    try discriminate Bt.
  - destruct b as [k1| |]; try discriminate Bt.
    destruct u as [[k2| |]| | | | | | | | |]; try discriminate Bu;
      try discriminate S.
    simpl in S. apply String.eqb_eq in S. now rewrite (BasicName_inj _ _ S).
  - destruct u; try discriminate S; try discriminate Bu.
    simpl in *. f_equal. eauto.
  - destruct u; try discriminate S; try discriminate Bu.
    simpl in *. apply andb_true_iff in S as [Hn S].
    apply Z.eqb_eq in Hn as ->. f_equal. eauto.
  - destruct u; try discriminate S; try discriminate Bu.
    simpl in *. f_equal. eauto.
  - destruct u; try discriminate S; try discriminate Bu.
    simpl in *. apply andb_true_iff in S as [Sk Se].
    apply andb_true_iff in Bt as [Btk Bte]. apply andb_true_iff in Bu as [Buk Bue].
    f_equal; eauto.
Qed.

(** X26 ([typeName]): on the types built from the predeclared basic
    types with pointers, arrays, slices and maps, the label tells the
    types apart: two such types with the same label are the same
    type. *)
Lemma typeName_injective_on_basic (qual : types.Qualifier) (t u : types.type) :
  basicOnly t = true -> basicOnly u = true ->
  typeName t qual = typeName u qual -> t = u.
Proof.
  intros Bt Bu E. apply (sameShape_basicOnly qual); auto.
  assert (E' : typeName t qual ++ "" = typeName u qual ++ "") by now rewrite E.
  now destruct (typeName_key qual t (basicOnly_tagFree qual t Bt) u "" ""
                  (basicOnly_tagFree qual u Bu) eq_refl eq_refl E').
Qed.

(** C2 (as stated) fails in both directions. The named type [SliceOfint]
    and the slice type [[]int] are different types with the same label;
    and [[]byte] and [[]uint8] are identical types with different
    labels, since [byte] is printed under its own name. *)
Lemma typeName_collision :
  let qual := types.RelativeTo "main" in
  let t := types.Named "main" "SliceOfint" (types.Struct []) [] in
  let u := types.Slice (types.Basic (types.Typ types.Int)) in
  let bytes := types.Slice (types.Basic types.universeByte) in
  let uint8s := types.Slice (types.Basic (types.Typ types.Uint8)) in
  (types.Identical t u = false /\ typeName t qual = typeName u qual) /\
  (types.Identical bytes uint8s = true /\
   typeName bytes qual = "SliceOfbyte" /\ typeName uint8s qual = "SliceOfuint8").
Proof. cbv zeta. repeat split. Qed.

(** Why [Ptr] is not among the leaves that avoid the tag words: as the
    key of a map it is followed by [To], and [map[Ptr]map[int]*string]
    gets the label of [map[*map[int]Ptr]string]. *)
Lemma typeName_collision_Ptr :
  let qual := types.RelativeTo "main" in
  let Ptr := types.Named "main" "Ptr" (types.Struct []) [] in
  let int := types.Basic (types.Typ types.Int) in
  let string := types.Basic (types.Typ types.String) in
  let t := types.Map Ptr (types.Map int (types.Pointer string)) in
  let u := types.Map (types.Pointer (types.Map int Ptr)) string in
  typeName t qual = "MapOfPtrToMapOfintToPtrTostring" /\
  typeName u qual = "MapOfPtrToMapOfintToPtrTostring" /\
  sameShape qual t u = false /\ tagFree qual t = false.
Proof. cbv zeta. repeat split. Qed.

End helper_facts.

Module driver_facts.
Import driver.

Lemma body_quiet (i : nat) (prev : Z) (p : Pass) :
  quiet p ->
  body i prev p =
    let len := Z.of_nat (length (notgenerated p)) in
    let log := List.map (fun c => Printf ("could not yet generate: " ++ c))
                        (notgenerated p) in
    match (if (len >? 0) && (prev =? len) then notgenerated p else []) with
    | c :: _ => ([], Fatal ("cannot generate " ++ c))
    | [] => (if HasContent p then app log [WriteDerived i] else log, Next len)
    end.
Proof.
  intros (Hl & Ha & Hg & Hw). unfold body. rewrite Hl, Ha, Hg, Hw.
  destruct (prev >? 0); cbv zeta;
    destruct (_ && _); try destruct (notgenerated p); destruct (HasContent p);
    reflexivity.
Qed.

Lemma wrote_printf (i : nat) (cs : list string) (f : string -> string) :
  wrote i (List.map (fun c => Printf (f c)) cs) = false.
Proof. induction cs; simpl; auto. Qed.

Lemma wrote_app (i : nat) (l1 l2 : list Event) :
  wrote i (app l1 l2) = wrote i l1 || wrote i l2.
Proof. unfold wrote. apply existsb_app. Qed.

Lemma wrote_pass (i : nat) (hc : bool) (cs : list string) (f : string -> string) :
  wrote i (if hc then app (List.map (fun c => Printf (f c)) cs) [WriteDerived i]
           else List.map (fun c => Printf (f c)) cs) = hc.
Proof.
  destruct hc; [|apply wrote_printf].
  rewrite wrote_app, wrote_printf. simpl. now rewrite Nat.eqb_refl.
Qed.

(** C1 (as amended): after a pass in which nothing else failed, with [n]
    calls left and [prev] the value kept from the pass before, the driver
    aborts exactly when [n] is positive and equal to [prev]; it loops
    again exactly when [n] is positive and different from [prev], smaller
    or larger; it leaves the loop exactly when [n] is zero; and it writes
    derived.gen.go in every pass that has content and does not abort. *)
Theorem body_decision (i : nat) (prev : Z) (p : Pass) :
  quiet p ->
  let n := Z.of_nat (length (notgenerated p)) in
  let log := fst (body i prev p) in
  let s := snd (body i prev p) in
  (aborts s = true <-> 0 < n /\ prev = n) /\
  (loopsAgain s = true <-> 0 < n /\ prev <> n) /\
  (succeeds s = true <-> n = 0) /\
  (wrote i log = true <-> HasContent p = true /\ ~ (0 < n /\ prev = n)).
Proof.
  intros Q. cbv zeta. rewrite (body_quiet i prev p Q). cbv zeta.
  destruct (notgenerated p) as [|c cs] eqn:E.
  - (* nothing left *)
    change (Z.of_nat (length (@nil string))) with 0.
    rewrite Z.gtb_ltb, Z.ltb_irrefl. simpl.
    unfold fst, snd.
    rewrite (wrote_pass i _ [] (fun c => "could not yet generate: " ++ c)).
    simpl. repeat split; intros; try lia; try discriminate; try tauto.
  - set (n := Z.of_nat (length (c :: cs))).
    assert (Hpos : 0 < n) by (subst n; simpl length; lia).
    assert (Hgt : (n >? 0) = true) by (apply Z.gtb_lt; lia).
    rewrite Hgt. simpl andb.
    destruct (Z.eqb_spec prev n) as [He|He]; cbv iota.
    + simpl. repeat split; intros; try lia; try discriminate; try tauto.
    + assert (Hz : (n =? 0) = false) by (apply Z.eqb_neq; lia).
      unfold fst, snd.
      rewrite (wrote_pass i _ (c :: cs) (fun c => "could not yet generate: " ++ c)).
      unfold aborts, loopsAgain, succeeds. rewrite Hz.
      repeat split; intros; try lia; try discriminate; try tauto.
Qed.

Lemma body_decision_witness :
  let p := leaves ["deriveEqual(a, b)"] in
  quiet p /\
  (aborts (snd (body 1 3 p)) = true <-> 0 < 1 /\ 3 = 1) /\
  (loopsAgain (snd (body 1 3 p)) = true <-> 0 < 1 /\ 3 <> 1) /\
  (succeeds (snd (body 1 3 p)) = true <-> 1 = 0) /\
  (wrote 1 (fst (body 1 3 p)) = true <-> true = true /\ ~ (0 < 1 /\ 3 = 1)).
Proof.
  cbv zeta. split; [repeat split|].
  apply (body_decision 1 3 (leaves ["deriveEqual(a, b)"])). repeat split.
Defined.

(** C1 (as stated) fails: with one call left after the first pass and two
    after the second, the count has grown, yet the driver loops again;
    and it has written derived.gen.go in a pass that left calls
    unresolved. *)
Lemma loop_again_on_larger_count :
  let p := leaves ["deriveEqual(a, b)"; "deriveCompare(a, b)"] in
  let prev := 1 in
  let n := Z.of_nat (length (notgenerated p)) in
  quiet p /\ n = 2 /\
  ~ (loopsAgain (snd (body 1 prev p)) = true <-> n < prev) /\
  ~ (wrote 1 (fst (body 1 prev p)) = true <-> n = 0).
Proof.
  cbv zeta. split; [repeat split|]. split; [reflexivity|].
  split; intros [H _]; specialize (H eq_refl); simpl in H; lia.
Qed.

(** The same, as a whole run: three passes leaving one call, then two,
    then none. The run ends well after the third pass and has written
    derived.gen.go three times. *)
Example run_one_two_zero :
  let passes := fun i =>
    match i with
    | O => leaves ["deriveEqual(a, b)"]
    | S O => leaves ["deriveEqual(a, b)"; "deriveCompare(a, b)"]
    | _ => leaves []
    end in
  run 4 passes =
    ([ Printf "could not yet generate: deriveEqual(a, b)"; WriteDerived 0;
       Printf "could not yet generate: deriveEqual(a, b)";
       Printf "could not yet generate: deriveCompare(a, b)"; WriteDerived 1;
       WriteDerived 2 ],
     ExitOK).
Proof. reflexivity. Qed.

(** The count staying at one ends the run with the fatal error. *)
Example run_one_one :
  run 4 (fun _ => leaves ["deriveEqual(a, b)"]) =
    ([ Printf "could not yet generate: deriveEqual(a, b)"; WriteDerived 0 ],
     ExitFatal "cannot generate deriveEqual(a, b)").
Proof. reflexivity. Qed.

(** X27 (the loop of [main] over a package): when no collaborator fails
    and each pass leaves fewer unresolved calls than the pass before,
    until one leaves none, the loop comes to an end and the command
    succeeds, whatever the number of calls the first pass leaves. *)
Lemma loop_terminates (passes : nat -> Pass) :
  (forall i, quiet (passes i)) ->
  (forall i, Z.of_nat (length (notgenerated (passes (S i))))
             < Z.of_nat (length (notgenerated (passes i)))
             \/ notgenerated (passes i) = []) ->
  exists fuel, snd (run fuel passes) = ExitOK.
Proof.
  intros Q D.
  assert (G : forall k i prev,
    (length (notgenerated (passes i)) <= k)%nat ->
    prev <> Z.of_nat (length (notgenerated (passes i))) ->
    snd (loop (S (S k)) passes i prev) = ExitOK).
  { induction k as [|k IH]; intros i prev Hk Hp.
    - assert (E : notgenerated (passes i) = [])
        by (destruct (notgenerated (passes i)); simpl in Hk; [reflexivity|lia]).
      simpl loop. destruct (prev =? 0); [reflexivity|].
      rewrite (body_quiet _ _ _ (Q i)). cbv zeta. rewrite E. simpl.
      destruct (HasContent (passes i)); reflexivity.
    - change (loop (S (S (S k))) passes i prev)
        with (if prev =? 0 then ([], ExitOK)
              else match body i prev (passes i) with
                   | (log, Fatal msg) => (log, ExitFatal msg)
                   | (log, Next u) =>
                       let (log', exit) := loop (S (S k)) passes (S i) u in
                       (app log log', exit)
                   end).
      destruct (prev =? 0); [reflexivity|].
      rewrite (body_quiet _ _ _ (Q i)). cbv zeta.
      apply Z.eqb_neq in Hp. rewrite Hp, andb_false_r.
      destruct (D i) as [Hd|Hd].
      + specialize (IH (S i) (Z.of_nat (length (notgenerated (passes i))))).
        destruct (loop (S (S k)) passes (S i) _) as [log' ex].
        simpl. apply IH; lia.
      + rewrite Hd. simpl length. change (Z.of_nat 0) with 0.
        destruct (loop (S (S k)) passes (S i) 0) as [log' ex] eqn:L.
        simpl in L. injection L as _ <-. reflexivity. }
  exists (S (S (length (notgenerated (passes 0%nat))))).
  apply G; [lia|lia].
Qed.

End driver_facts.

Module derive_facts.
Import derive.
Local Open Scope nat_scope.

Lemma Fset_File_NoPos (files : list File) : Fset_File files NoPos = None.
Proof. induction files as [|f files IH]; simpl; auto. Qed.

Lemma definingFile_Builtin (files : list File) (name : string) :
  definingFile files (Builtin name) = None.
Proof. unfold definingFile. simpl. now rewrite Fset_File_NoPos. Qed.

Lemma Visit_classify (this : finder) (node : Node) :
  Visit this node = record this node (classify (program this) (pkgInfo this) node).
Proof.
  unfold classify.
  destruct node as [p n|X sel|Fun Args|cs]; try reflexivity.
  destruct Fun as [fn Name| | |]; try reflexivity.
  simpl. destruct (pkgInfo this !! fn) as [def|]; [|reflexivity].
  destruct def as [b|nm pos].
  - now rewrite definingFile_Builtin.
  - unfold definingFile. simpl.
    destruct (Fset_File (program this) pos) as [file|]; [|reflexivity].
    destruct (Split (derive.Name file)) as [dir filename]. simpl.
    destruct (String.eqb filename derivedFilename); reflexivity.
Qed.

Lemma Node_rect' (P : Node -> Prop) :
  (forall p n, P (Ident p n)) ->
  (forall X sel, P X -> P (SelectorExpr X sel)) ->
  (forall Fun Args, P Fun -> Forall P Args -> P (CallExpr Fun Args)) ->
  (forall children, Forall P children -> P (Other children)) ->
  forall node, P node.
Proof.
  intros HI HS HC HO.
  fix IH 1. intros [p n|X sel|Fun Args|children].
  - apply HI.
  - apply HS, IH.
  - apply HC; [apply IH|].
    induction Args as [|a Args IHa]; constructor; [apply IH|exact IHa].
  - apply HO.
    induction children as [|a cs IHa]; constructor; [apply IH|exact IHa].
Qed.

Lemma fold_Walk_nodes (l : list Node) :
  Forall (fun a => forall this, Walk this a = fold_left Visit (nodes a) this) l ->
  forall this, fold_left Walk l this = fold_left Visit (flat_map nodes l) this.
Proof.
  induction 1 as [|a l Ha _ IH]; intros this; simpl; [reflexivity|].
  now rewrite fold_left_app, <- Ha, IH.
Qed.

(** Walking a tree visits each of its nodes once, in source order. *)
Lemma Walk_nodes (node : Node) :
  forall this, Walk this node = fold_left Visit (nodes node) this.
Proof.
  induction node as [p n|X sel IH|Fun Args IHF IHA|children IHC] using Node_rect';
    intros this; simpl.
  - reflexivity.
  - apply IH.
  - rewrite fold_left_app, <- IHF. now apply fold_Walk_nodes.
  - now apply fold_Walk_nodes.
Qed.

Lemma record_program this node c : program (record this node c) = program this.
Proof. now destruct c. Qed.

Lemma record_pkgInfo this node c : pkgInfo (record this node c) = pkgInfo this.
Proof. now destruct c. Qed.

Lemma fold_Visit (l : list Node) :
  forall this,
    let this' := fold_left Visit l this in
    program this' = program this /\ pkgInfo this' = pkgInfo this /\
    undefined this'
    = app (undefined this)
          (List.filter (isUndefined (program this) (pkgInfo this)) l) /\
    derived this'
    = app (derived this)
          (List.filter (isDerived (program this) (pkgInfo this)) l).
Proof.
  induction l as [|a l IH]; intros this; cbv zeta.
  - simpl. rewrite !app_nil_r. auto.
  - simpl fold_left. destruct (IH (Visit this a)) as (Hp & Hu & Hun & Hde).
    rewrite Hp, Hu, Hun, Hde. rewrite Visit_classify.
    rewrite record_program, record_pkgInfo.
    repeat split; auto; simpl List.filter.
    + unfold isUndefined at 2.
      destruct (classify (program this) (pkgInfo this) a); simpl;
        rewrite <- ?app_assoc; reflexivity.
    + unfold isDerived at 2.
      destruct (classify (program this) (pkgInfo this) a); simpl;
        rewrite <- ?app_assoc; reflexivity.
Qed.

(** C3 (as amended): a visit gives a call expression exactly one of four
    outcomes, decided by what its callee resolves to: undefined when a
    plain identifier resolves to nothing, derived when it resolves to a
    symbol declared in a file named derived.gen.go, known (its name kept
    in [funcNames]) when it resolves to a symbol declared in another
    file, and passed over otherwise; and a walk over a tree keeps, in
    source order, exactly the undefined and the derived calls of the
    tree. *)
Theorem finder_classification (this : finder) (node : Node) :
  let files := program this in
  let uses := pkgInfo this in
  Visit this node = record this node (classify files uses node) /\
  (isUndefined files uses node && isDerived files uses node) = false /\
  undefined (Walk this node)
  = app (undefined this) (List.filter (isUndefined files uses) (nodes node)) /\
  derived (Walk this node)
  = app (derived this) (List.filter (isDerived files uses) (nodes node)).
Proof.
  cbv zeta. split; [apply Visit_classify|]. split.
  - unfold isUndefined, isDerived.
    now destruct (classify (program this) (pkgInfo this) node).
  - rewrite Walk_nodes. destruct (fold_Visit (nodes node) this) as (_ & _ & Hu & Hd).
    now split.
Qed.

(** C3 (as stated) fails: [len] resolves to a symbol, a builtin, which is
    not declared in derived.gen.go, and the visit of [len(xs)] does not
    keep its name; the same holds for the conversion [float64(x)]. *)
Lemma builtin_call_not_recorded :
  let uses : gmap Pos Object :=
    {[ 10%nat := Builtin "len"; 20%nat := Declared "float64" NoPos ]} in
  let this := finder0 uses in
  let call := CallExpr (Ident 10 "len") [Ident 14 "xs"] in
  let conv := CallExpr (Ident 20 "float64") [Ident 28 "x"] in
  uses !! 10%nat = Some (Builtin "len") /\
  definingFile files0 (Builtin "len") <> Some derivedFilename /\
("len" ∉ funcNames (Visit this call)) /\
  uses !! 20%nat = Some (Declared "float64" NoPos) /\
  definingFile files0 (Declared "float64" NoPos) <> Some derivedFilename /\
  ("float64" ∉ funcNames (Visit this conv)).
Proof.
  cbv zeta. repeat split; try discriminate; try reflexivity;
    vm_compute; intros H; inversion H.
Qed.

(** C10: a call whose callee is not a plain identifier, or resolves to a
    builtin, or resolves to a symbol without a source file, leaves the
    finder as it was; it is neither an undefined nor a derived call, and
    no walk over any tree adds it to the undefined or the derived
    calls. *)
Theorem Visit_passes_over (this : finder) (Fun : Node) (Args : list Node) :
  let call := CallExpr Fun Args in
  ((forall fn Name, Fun <> Ident fn Name) \/
   (exists fn Name b, Fun = Ident fn Name /\ pkgInfo this !! fn = Some (Builtin b)) \/
   (exists fn Name def, Fun = Ident fn Name /\ pkgInfo this !! fn = Some def /\
      Fset_File (program this) (Object_Pos def) = None)) ->
  Visit this call = this /\
  forall tree,
    (In call (undefined (Walk this tree)) -> In call (undefined this)) /\
    (In call (derived (Walk this tree)) -> In call (derived this)).
Proof.
  cbv zeta. intros H.
  assert (C : classify (program this) (pkgInfo this) (CallExpr Fun Args)
              = NotACandidate).
  { unfold classify.
    destruct H as [H|[(fn & Name & b & -> & Hb)|(fn & Name & def & -> & Hd & Hf)]].
    - destruct Fun as [fn nm| | |]; try reflexivity. now destruct (H fn nm).
    - simpl. now rewrite Hb, definingFile_Builtin.
    - simpl. rewrite Hd. unfold definingFile. now rewrite Hf. }
  split; [now rewrite Visit_classify, C|].
  intros tree. rewrite Walk_nodes.
  destruct (fold_Visit (nodes tree) this) as (_ & _ & Hu & Hd).
  cbv zeta in Hu, Hd. rewrite Hu, Hd.
  split; intros Hin; apply in_app_or in Hin as [Hin|Hin]; auto;
    apply filter_In in Hin as [_ Hin]; unfold isUndefined, isDerived in Hin;
    rewrite C in Hin; discriminate.
Qed.

Lemma Visit_passes_over_witness :
  let uses : gmap Pos Object := {[ 10%nat := Builtin "len" ]} in
  let this := finder0 uses in
  let call := CallExpr (Ident 10 "len") [Ident 14 "xs"] in
  Visit this call = this /\
  forall tree,
    (In call (undefined (Walk this tree)) -> In call (undefined this)) /\
    (In call (derived (Walk this tree)) -> In call (derived this)).
Proof.
  apply (Visit_passes_over (finder0 {[ 10%nat := Builtin "len" ]})
           (Ident 10 "len") [Ident 14 "xs"]).
  right. left. exists 10%nat, "len", "len". split; reflexivity.
Defined.

End derive_facts.

Module text_facts.
Import text.

Lemma printed_bind {A B} (m : Gen A) (k : A -> Gen B) (a : A) :
  snd m = Ok a -> printed (bind m k) = app (printed m) (printed (k a)).
Proof.
  destruct m as [out r]. simpl. intros ->. simpl.
  now destruct (k a).
Qed.

Lemma result_bind {A B} (m : Gen A) (k : A -> Gen B) (a : A) :
  snd m = Ok a -> snd (bind m k) = snd (k a).
Proof.
  destruct m as [out r]. simpl. intros ->. simpl.
  now destruct (k a).
Qed.

(** A loop whose rounds all succeed prints the text of the rounds one
    after the other. *)
Lemma forEach_ok {A} (l : list A) (f : A -> Gen unit) :
  Forall (fun x => snd (f x) = Ok tt) l ->
  forEach l f = (flat_map (fun x => printed (f x)) l, Ok tt).
Proof.
  induction 1 as [|x l Hx _ IH]; simpl; [reflexivity|].
  rewrite IH. destruct (f x) as [out r]. simpl in *. now subst r.
Qed.

End text_facts.

Module generated_facts.
Import generated.

Section compareSlice.
Context {A : Type} (cmp : A -> A -> Z).

Lemma elementLoop_walk (this that : list A) :
  forall n i,
    (i + n = length this)%nat -> length this = length that ->
    elementLoop cmp this that i n =
    let cs := zip_with cmp (drop i this) (drop i that) in
    (seq i (upToNonZero cs), Some (firstNonZero cs)).
Proof.
  induction n as [|n IH]; intros i Hi Hl; cbv zeta.
  - rewrite (drop_ge this) by lia. reflexivity.
  - destruct (lookup_lt_is_Some_2 this i) as [x Hx]; [lia|].
    destruct (lookup_lt_is_Some_2 that i) as [y Hy]; [lia|].
    simpl elementLoop. rewrite Hx, Hy.
    rewrite (drop_S _ _ _ Hx), (drop_S _ _ _ Hy). simpl.
    destruct (cmp x y =? 0); simpl; [|reflexivity].
    rewrite IH by lia. reflexivity.
Qed.

Lemma compareSlice_same_length (this that : list A) :
  length this = length that ->
  compareSlice cmp (Some this) (Some that) =
  let cs := zip_with cmp this that in
  (seq 0 (upToNonZero cs), Some (firstNonZero cs)).
Proof.
  intros Hl. unfold compareSlice.
  rewrite (proj2 (Nat.eqb_eq _ _) Hl). simpl negb. cbv iota.
  now rewrite elementLoop_walk by lia.
Qed.

Lemma compareSlice_shorter (this that : list A) :
  (length this < length that)%nat ->
  compareSlice cmp (Some this) (Some that) = ([], Some (-1)).
Proof.
  intros Hl. unfold compareSlice.
  rewrite (proj2 (Nat.eqb_neq _ _)) by lia. simpl negb. cbv iota.
  now rewrite (proj2 (Nat.ltb_lt _ _) Hl).
Qed.

Lemma compareSlice_longer (this that : list A) :
  (length that < length this)%nat ->
  compareSlice cmp (Some this) (Some that) = ([], Some 1).
Proof.
  intros Hl. unfold compareSlice.
  rewrite (proj2 (Nat.eqb_neq _ _)) by lia. simpl negb. cbv iota.
  now rewrite (proj2 (Nat.ltb_ge _ _)) by lia.
Qed.

End compareSlice.

Section compareMap.
Context {K V : Type} `{Countable K}.
Context (zero : V) (deriveSort : list K -> list K).
Context (cmpKey : K -> K -> Z) (cmpValue : V -> V -> Z).

Lemma keyLoop_pairs (this that : gmap K V) (thatkeys : list K) :
  forall thiskeys i,
    (length thiskeys + i = length thatkeys)%nat ->
    keyLoop zero cmpKey cmpValue this that thiskeys thatkeys i =
    let pairs := zip thiskeys (drop i thatkeys) in
    let cs := List.map (verdict zero cmpKey cmpValue this that) pairs in
    (List.map (callFor zero this that) (take (upToNonZero cs) pairs),
     Some (firstNonZero cs)).
Proof.
  induction thiskeys as [|k ks IH]; intros i Hi; cbv zeta.
  - reflexivity.
  - simpl in Hi.
    destruct (lookup_lt_is_Some_2 thatkeys i) as [k' Hk']; [lia|].
    simpl keyLoop. rewrite Hk', (drop_S _ _ _ Hk').
    rewrite (IH (S i)) by lia. cbv zeta.
    change (zip (k :: ks) (k' :: drop (S i) thatkeys))
      with ((k, k') :: zip ks (drop (S i) thatkeys)).
    set (pairs := zip ks (drop (S i) thatkeys)).
    simpl List.map. simpl upToNonZero. simpl firstNonZero.
    assert (Hv : verdict zero cmpKey cmpValue this that (k, k')
                 = if bool_decide (k = k')
                   then cmpValue (index zero this k) (index zero that k')
                   else cmpKey k k') by reflexivity.
    assert (Hc : callFor zero this that (k, k')
                 = if bool_decide (k = k')
                   then CompareValues (index zero this k) (index zero that k')
                   else CompareKeys k k') by reflexivity.
    rewrite !Hv. clear Hv.
    destruct (bool_decide (k = k')).
    + destruct (cmpValue (index zero this k) (index zero that k') =? 0);
        simpl; rewrite Hc; reflexivity.
    + destruct (cmpKey k k' =? 0); simpl; rewrite Hc; reflexivity.
Qed.

(** A key that a range over the map gives, also after a sorting that
    only reorders, is a key of the map. *)
Lemma keysOf_lookup (m : gmap K V) (range : list K) (k : K) :
  keysOf m range -> (forall l, deriveSort l ≡ₚ l) ->
  k ∈ deriveSort range -> exists v, m !! k = Some v.
Proof.
  intros Hr Hs Hk. rewrite (Hs range), Hr in Hk.
  apply list_elem_of_fmap in Hk as ([k' v] & -> & Hkv).
  exists v. now apply elem_of_map_to_list.
Qed.

Lemma keysOf_length (m : gmap K V) (range : list K) :
  keysOf m range -> (forall l, deriveSort l ≡ₚ l) ->
  length (deriveSort range) = size m.
Proof.
  intros Hr Hs. rewrite (Hs range), Hr.
  now rewrite length_fmap, length_map_to_list.
Qed.

End compareMap.

Section copySlice.
Context {A : Type} (zero : A).

Lemma elements_length (h : @heap A) (s : slice) :
  valid h s -> length (elements h s) = len s.
Proof.
  intros (a & Ha & Hl & Hc). unfold elements. rewrite Ha.
  rewrite length_take, length_drop. lia.
Qed.

(** After [copy(dst, src)] with slices of the same length, [dst] holds
    the elements [src] had, also when the two share an array. *)
Lemma copy_elements (h : @heap A) (dst src : slice) :
  valid h dst -> valid h src -> len dst = len src ->
  elements (copy h dst src) dst = elements h src.
Proof.
  intros Hd Hs Hl. pose proof (elements_length h src Hs) as Hlen.
  destruct Hd as (a & Ha & Hlc & Hc).
  unfold copy. rewrite Ha, Hl, Nat.min_id.
  rewrite firstn_all2 by lia.
  unfold elements at 1. unfold heap in *.
  rewrite list_lookup_insert_eq by (eapply lookup_lt_Some; eauto).
  unfold overwrite. rewrite Hlen.
  rewrite drop_app_length' by (rewrite length_take; lia).
  rewrite take_app_length' by lia. reflexivity.
Qed.

Lemma valid_make (h : @heap A) (n : nat) :
  valid (fst (make zero h n)) (snd (make zero h n)).
Proof.
  exists (repeat zero n). unfold make, heap in *. cbn [fst snd array len cap start].
  split; [|rewrite repeat_length; lia].
  rewrite lookup_app_r by lia. now rewrite Nat.sub_diag.
Qed.

Lemma valid_app (h : @heap A) (a : list A) (s : slice) :
  valid h s -> valid (app h [a]) s.
Proof.
  intros (b & Hb & H1 & H2). exists b. unfold heap in *. split; [|lia].
  now apply lookup_app_l_Some.
Qed.

Lemma elements_app (h : @heap A) (a : list A) (s : slice) :
  valid h s -> elements (app h [a]) s = elements h s.
Proof.
  intros (b & Hb & _). unfold elements, heap in *.
  now rewrite (lookup_app_l_Some _ _ _ _ Hb), Hb.
Qed.

Lemma valid_reslice (h : @heap A) (s : slice) (n : nat) :
  valid h s -> (n <= cap s)%nat -> valid h (reslice s n).
Proof. intros (a & Ha & H1 & H2) Hn. exists a. simpl. auto. Qed.

End copySlice.

End generated_facts.

Module copyto_facts.
Import text copyto.

Lemma canCopy_unfold (tt : types.type) :
  canCopy tt =
  match types.Underlying tt with
  | types.Basic b => negb (bool_decide (types.Kind b = types.UntypedNil))
  | types.Struct fields => forallb (fun f => canCopy (snd f)) fields
  | types.Array _ elem => canCopy elem
  | _ => false
  end.
Proof. destruct tt; reflexivity. Qed.

Lemma isComparable_unfold (tt : types.type) :
  equal.isComparable tt =
  match types.Underlying tt with
  | types.Basic b => negb (bool_decide (types.Kind b = types.UntypedNil))
  | types.Struct fields => forallb (fun f => equal.isComparable (snd f)) fields
  | types.Array _ elem => equal.isComparable elem
  | _ => false
  end.
Proof. destruct tt; reflexivity. Qed.

Lemma tsize_Underlying (t : types.type) :
  (types.tsize (types.Underlying t) <= types.tsize t)%nat.
Proof. destruct t; simpl; lia. Qed.

Lemma tsize_field (f : string * types.type) (fs : list (string * types.type)) :
  List.In f fs ->
  (types.tsize (snd f) <= list_sum (List.map (fun f => types.tsize (snd f)) fs))%nat.
Proof.
  induction fs as [|g fs IH]; simpl; [tauto|].
  intros [->|Hin]; [lia|]. specialize (IH Hin). lia.
Qed.

(** Induction on a type through its underlying type: to prove [P t] one
    may use [P] for the fields of the struct and for the element of the
    array that [t] is underneath. *)
Lemma underlying_ind (P : types.type -> Prop) :
  (forall t,
     (forall fs f, types.Underlying t = types.Struct fs -> List.In f fs -> P (snd f)) ->
     (forall n e, types.Underlying t = types.Array n e -> P e) ->
     P t) ->
  forall t, P t.
Proof.
  intros step.
  assert (H : forall n t, (types.tsize t < n)%nat -> P t).
  { induction n as [|n IH]; intros t Hlt; [lia|].
    apply step.
    - intros fs f Hu Hin. apply IH.
      pose proof (tsize_Underlying t) as Hle. rewrite Hu in Hle. simpl in Hle.
      pose proof (tsize_field f fs Hin). lia.
    - intros m e Hu. apply IH.
      pose proof (tsize_Underlying t) as Hle. rewrite Hu in Hle. simpl in Hle. lia. }
  intros t. apply (H (S (types.tsize t))). lia.
Qed.

Lemma canCopy_bulk (t : types.type) : canCopy t = true <-> bulk t.
Proof.
  induction t as [t IHs IHa] using underlying_ind.
  rewrite canCopy_unfold. split.
  - destruct (types.Underlying t) as [k| | n e| | |fs| | | |] eqn:Hu;
      try discriminate; intros Hc.
    + apply (bulk_basic t k Hu). intros Hk. rewrite Hk in Hc. discriminate.
    + apply (bulk_array t n e Hu). now apply (IHa n e).
    + apply (bulk_struct t fs Hu). apply List.Forall_forall. intros f Hin.
      apply (IHs fs f eq_refl Hin).
      rewrite forallb_forall in Hc. now apply Hc.
  - intros Hb.
    inversion Hb as [t' k Hu Hk Et|t' fs Hu Hf Et|t' n e Hu He Et]; subst t';
      rewrite Hu.
    + apply negb_true_iff. now apply bool_decide_eq_false.
    + apply forallb_forall. intros f Hin.
      apply (IHs fs f Hu Hin). rewrite List.Forall_forall in Hf. now apply Hf.
    + now apply (IHa n e Hu).
Qed.

(** [isComparable] and [canCopy] are the same function, written twice. *)
Lemma isComparable_canCopy (t : types.type) : equal.isComparable t = canCopy t.
Proof. reflexivity. Qed.

Lemma genStatement_canCopy (g : gen) (typ : types.type) (this that : string) :
  canCopy typ = true ->
  genStatement g typ this that = ([P (Sprintf "%s = %s" [that; this])], Ok tt).
Proof. intros H. unfold genStatement. now rewrite H. Qed.

Lemma genField_canCopy (g : gen) (typ : types.type) (this that : string) :
  canCopy typ = true ->
  genField g typ this that = ([P (Sprintf "%s = %s" [that; this])], Ok tt).
Proof. intros H. destruct typ; simpl in *; rewrite ?H; try reflexivity; discriminate. Qed.

Lemma canCopy_Slice (typ elem : types.type) :
  types.Underlying typ = types.Slice elem -> canCopy typ = false.
Proof. intros H. now rewrite canCopy_unfold, H. Qed.

Lemma genStatement_Slice_copy (g : gen) (typ elem : types.type) (this that : string) :
  types.Underlying typ = types.Slice elem -> canCopy elem = true ->
  genStatement g typ this that = ([P (Sprintf "copy(%s, %s)" [that; this])], Ok tt).
Proof.
  intros Hu Hc. unfold genStatement.
  now rewrite (canCopy_Slice _ _ Hu), Hu, Hc.
Qed.

Lemma equal_field_comparable (e : equal.equal) (typ : types.type) (this that : string) :
  equal.isComparable typ = true ->
  equal.field e this that typ = Ok (Sprintf "%s == %s" [this; that]).
Proof. intros H. destruct typ; simpl in *; rewrite ?H; try reflexivity; discriminate. Qed.

(** The array case of [genField] is the call of [genStatement] the
    source makes, with the error dropped. *)
Lemma genField_Array (g : gen) (fieldType : types.type) (n : Z) (elem : types.type)
  (thisField thatField : string) :
  types.Underlying fieldType = types.Array n elem ->
  canCopy fieldType = false ->
  genField g fieldType thisField thatField
  = (printed (genStatement g fieldType thisField thatField), Ok tt).
Proof.
  intros Hu Hc. unfold genStatement. rewrite Hc, Hu.
  destruct fieldType; simpl in Hu; try discriminate Hu.
  - injection Hu as -> ->. simpl in *. now rewrite Hc.
  - subst. simpl in *. now rewrite Hc.
Qed.

(** What [genField] prints for a field whose type is a slice. *)
Lemma genField_Slice (g : gen) (fieldType elem : types.type)
  (thisField thatField : string) :
  types.Underlying fieldType = types.Slice elem ->
  genField g fieldType thisField thatField =
  (generated.copySliceText thisField thatField (TypeString g (types.Slice elem))
     (if canCopy elem
      then P (Sprintf "copy(%s, %s)" [thatField; thisField])
      else P (Sprintf "%s(%s, %s)"
                [GetFuncName g (types.Slice elem); thisField; thatField])),
   Ok tt).
Proof.
  intros Hu.
  assert (E : genField g fieldType thisField thatField
              = genField g (types.Slice elem) thisField thatField).
  { destruct fieldType; simpl in Hu; try discriminate Hu;
      [injection Hu as ->; reflexivity | subst; reflexivity]. }
  rewrite E. simpl. destruct (canCopy elem); reflexivity.
Qed.

(** With the builtin [copy], the destination ends with the length and
    the elements of the source, whatever it was before. *)
Lemma copySlice_builtin {A : Type} (zero : A) (h : @generated.heap A)
  (s : generated.slice) (that : option generated.slice) :
  generated.valid h s ->
  (forall d, that = Some d -> generated.valid h d) ->
  exists h2 d2,
    generated.copySlice zero generated.builtinCopy h (Some s) that = (h2, Some d2) /\
    generated.len d2 = generated.len s /\
    generated.elements h2 d2 = generated.elements h s.
Proof.
  intros Vs Vd. unfold generated.copySlice, generated.builtinCopy.
  assert (fresh : exists h2 d2,
    (let (h0, that0) := generated.make zero h (generated.len s) in
     (generated.copy h0 that0 s, Some that0)) = (h2, Some d2) /\
    generated.len d2 = generated.len s /\
    generated.elements h2 d2 = generated.elements h s).
  { pose proof (generated_facts.valid_make zero h (generated.len s)) as Vm.
    destruct (generated.make zero h (generated.len s)) as [h0 d0] eqn:E.
    unfold generated.make in E. injection E as <- <-.
    eexists _, _. split; [reflexivity|]. split; [reflexivity|].
    rewrite generated_facts.copy_elements; auto.
    - now apply generated_facts.elements_app.
    - now apply generated_facts.valid_app. }
  assert (resl : forall d n, generated.valid h d -> (n <= generated.cap d)%nat ->
    n = generated.len s ->
    exists h2 d2,
      (generated.copy h (generated.reslice d n) s, Some (generated.reslice d n))
      = (h2, Some d2) /\
      generated.len d2 = generated.len s /\
      generated.elements h2 d2 = generated.elements h s).
  { intros d n Vd' Hn ->. eexists _, _. split; [reflexivity|]. split; [reflexivity|].
    apply generated_facts.copy_elements; auto.
    now apply generated_facts.valid_reslice. }
  destruct that as [d|]; [|exact fresh].
  specialize (Vd d eq_refl). pose proof Vd as (a & _ & Hlc & _).
  destruct (Nat.ltb_spec (generated.len d) (generated.len s)).
  - destruct (Nat.leb_spec (generated.len s) (generated.cap d)); [|exact fresh].
    apply resl; auto.
  - destruct (Nat.ltb_spec (generated.len s) (generated.len d)).
    + apply resl; auto. lia.
    + eexists _, _. split; [reflexivity|]. split; [lia|].
      apply generated_facts.copy_elements; auto. lia.
Qed.

(** C6 (as amended): for a field of slice type [genField] prints
    [copySliceText], and that text sets the destination to nil for a nil
    source; for a longer source it reslices the destination when its
    capacity suffices and makes a new array otherwise; for a shorter
    source it reslices the destination, without a new array; for a nil
    destination it makes a new array; and then copies the elements: with
    the builtin [copy] when they can be copied in one piece, so that the
    destination ends with the length and the elements of the source, and
    otherwise with a call of the function derived for the slice type.
    That function, which [genStatement] prints for a slice type, adjusts
    nothing: it is the one call of [copy], or a loop over the elements
    that copies each of them as [genField] copies a field. *)
Theorem slice_field_adjusted_then_copied (g : gen) (fieldType elem : types.type)
  (thisField thatField : string) :
  types.Underlying fieldType = types.Slice elem ->
  genField g fieldType thisField thatField =
  (generated.copySliceText thisField thatField (TypeString g (types.Slice elem))
     (if canCopy elem
      then P (Sprintf "copy(%s, %s)" [thatField; thisField])
      else P (Sprintf "%s(%s, %s)"
                [GetFuncName g (types.Slice elem); thisField; thatField])),
   Ok tt) /\
  (forall (A : Type) (zero : A)
         (copyElements : @generated.heap A -> generated.slice -> generated.slice
                         -> @generated.heap A)
         (h : @generated.heap A) (s d : generated.slice),
    let cs := generated.copySlice zero copyElements in
    let kept := generated.reslice d (generated.len s) in
    let fresh := {| generated.array := length h; generated.start := 0;
                    generated.len := generated.len s;
                    generated.cap := generated.len s |} in
    let h' := app h [repeat zero (generated.len s)] in
    (forall that, cs h None that = (h, None)) /\
    ((generated.len d < generated.len s)%nat ->
     (generated.len s <= generated.cap d)%nat ->
     cs h (Some s) (Some d) = (copyElements h s kept, Some kept)) /\
    ((generated.len d < generated.len s)%nat ->
     (generated.cap d < generated.len s)%nat ->
     cs h (Some s) (Some d) = (copyElements h' s fresh, Some fresh)) /\
    ((generated.len s < generated.len d)%nat ->
     cs h (Some s) (Some d) = (copyElements h s kept, Some kept)) /\
    (generated.len s = generated.len d ->
     cs h (Some s) (Some d) = (copyElements h s d, Some d)) /\
    cs h (Some s) None = (copyElements h' s fresh, Some fresh) /\
    (forall that,
       generated.valid h s -> (forall d, that = Some d -> generated.valid h d) ->
       exists h2 d2,
         generated.copySlice zero generated.builtinCopy h (Some s) that
         = (h2, Some d2) /\
         generated.len d2 = generated.len s /\
         generated.elements h2 d2 = generated.elements h s)) /\
  (forall this that : string,
     genStatement g (types.Slice elem) this that
     = if canCopy elem
       then ([P (Sprintf "copy(%s, %s)" [that; this])], Ok tt)
       else
         ([forLine this; In], Ok tt) ;;;
         genField g elem (prepend this "value")
           (wrap that ++ "[" ++ prepend this "i" ++ "]") ;;;
         ([Out; P "}"], Ok tt)).
Proof.
  intros Hu. split; [now apply genField_Slice|]. split.
  - intros A zero ce h s d. cbv zeta. unfold generated.copySlice.
    do 1 (split; [reflexivity|]).
    split; [|split; [|split; [|split; [|split; [reflexivity|]]]]].
    + intros H1 H2.
      rewrite (proj2 (Nat.ltb_lt _ _) H1), (proj2 (Nat.leb_le _ _) H2). reflexivity.
    + intros H1 H2.
      rewrite (proj2 (Nat.ltb_lt _ _) H1), (proj2 (Nat.leb_gt _ _) H2). reflexivity.
    + intros H1.
      rewrite (proj2 (Nat.ltb_ge _ _)) by lia.
      rewrite (proj2 (Nat.ltb_lt _ _) H1). reflexivity.
    + intros H1.
      rewrite (proj2 (Nat.ltb_ge _ _)) by lia.
      rewrite (proj2 (Nat.ltb_ge _ _)) by lia. reflexivity.
    + intros that Vs Vd. now apply copySlice_builtin.
  - intros this that. unfold genStatement.
    change (canCopy (types.Slice elem)) with false. cbv iota.
    cbn [types.Underlying]. destruct (canCopy elem); [reflexivity|].
    unfold rangeLoop, forLine.
    destruct (genField g elem _ _) as [out [[]|msg|msg]]; reflexivity.
Qed.

Lemma slice_field_adjusted_then_copied_witness :
  let h : @generated.heap Z := [[1; 2; 3]; [7; 7; 0; 0; 0]] in
  let s := {| generated.array := 0; generated.start := 0;
              generated.len := 3; generated.cap := 3 |} in
  let d := {| generated.array := 1; generated.start := 0;
              generated.len := 2; generated.cap := 5 |} in
  let kept := {| generated.array := 1; generated.start := 0;
                 generated.len := 3; generated.cap := 5 |} in
  types.Underlying (types.Slice (types.Basic (types.Typ types.Int)))
  = types.Slice (types.Basic (types.Typ types.Int)) /\
  generated.copySlice 0 generated.builtinCopy h (Some s) (Some d)
  = ([[1; 2; 3]; [1; 2; 3; 0; 0]], Some kept) /\
  genStatement main (types.Slice (types.Basic (types.Typ types.Int))) "this" "that"
  = ([P "copy(that, this)"], Ok tt).
Proof.
  cbv zeta. split; [reflexivity|].
  destruct (slice_field_adjusted_then_copied main
              (types.Slice (types.Basic (types.Typ types.Int))) (types.Basic (types.Typ types.Int))
              "this.Xs" "that.Xs" eq_refl) as (_ & Hs & Hroot).
  destruct (Hs Z 0 generated.builtinCopy [[1; 2; 3]; [7; 7; 0; 0; 0]]
              {| generated.array := 0; generated.start := 0;
                 generated.len := 3; generated.cap := 3 |}
              {| generated.array := 1; generated.start := 0;
                 generated.len := 2; generated.cap := 5 |})
    as (_ & Hgrow & _).
  split; [rewrite Hgrow; [reflexivity | simpl; lia | simpl; lia]|].
  rewrite Hroot. reflexivity.
Defined.

(** C6 (as stated) fails for the function derived for a slice type
    itself: for [[]int] [genStatement] prints the one call of [copy],
    with no case for nil and no adjustment of the length. With a source
    of three elements and a destination of two, the destination keeps
    its length and receives two elements, where the text for a field
    reslices it to three; and a nil source leaves the destination as it
    is. For a slice of slices the function is a loop over the elements,
    each copied as a field. *)
Lemma slice_root_copies_without_adjusting :
  let int := types.Basic (types.Typ types.Int) in
  let h : @generated.heap Z := [[1; 2; 3]; [7; 7; 0; 0; 0]] in
  let s := {| generated.array := 0; generated.start := 0;
              generated.len := 3; generated.cap := 3 |} in
  let d := {| generated.array := 1; generated.start := 0;
              generated.len := 2; generated.cap := 5 |} in
  genFunc main (types.Slice int)
  = ([ P ""; P "func deriveCopyToSliceOfint(this, that []int) {"; In;
         P "copy(that, this)"; Out;
       P "}" ], Ok tt) /\
  generated.copyRoot h (Some s) (Some d) = ([[1; 2; 3]; [1; 2; 0; 0; 0]], Some d) /\
  generated.elements (fst (generated.copyRoot h (Some s) (Some d))) d = [1; 2] /\
  generated.copyRoot h None (Some d) = (h, Some d) /\
  generated.copySlice 0 generated.builtinCopy h (Some s) (Some d)
  = ([[1; 2; 3]; [1; 2; 3; 0; 0]], Some (generated.reslice d 3)) /\
  generated.copySlice 0 generated.builtinCopy h None (Some d) = (h, None) /\
  printed (genStatement main (types.Slice (types.Slice int)) "this" "that")
  = app [ P "for this_i, this_value := range this {"; In ]
        (app (generated.copySliceText "this_value" "that[this_i]" "[]int"
                (P "copy(that[this_i], this_value)"))
             [ Out; P "}" ]).
Proof. cbv zeta. repeat split. Qed.

(** C7 (as amended): [canCopy] and [isComparable] hold exactly for the
    types whose underlying type is a basic type other than the untyped
    nil, a struct whose fields are all such types, or an array of such a
    type. For such a type the copy printed is one assignment and the
    comparison printed by [equal.field] is one [==]; an array of such a
    type is again such a type; and for a slice of such a type the copy
    printed is one call of the builtin [copy], after the adjustment of
    the destination when the slice is a field. *)
Theorem bulk_types_in_one_piece (g : gen) (e : equal.equal) (t : types.type)
  (this that : string) :
  (canCopy t = true <-> bulk t) /\
  (equal.isComparable t = true <-> bulk t) /\
  (bulk t ->
   genStatement g t this that = ([P (Sprintf "%s = %s" [that; this])], Ok tt) /\
   genField g t this that = ([P (Sprintf "%s = %s" [that; this])], Ok tt) /\
   equal.field e this that t = Ok (Sprintf "%s == %s" [this; that])) /\
  (bulk t -> forall n, bulk (types.Array n t)) /\
  (bulk t -> forall s, types.Underlying s = types.Slice t ->
   genStatement g s this that = ([P (Sprintf "copy(%s, %s)" [that; this])], Ok tt) /\
   genField g s this that =
   (generated.copySliceText this that (TypeString g (types.Slice t))
      (P (Sprintf "copy(%s, %s)" [that; this])),
    Ok tt)).
Proof.
  split; [apply canCopy_bulk|]. split; [apply canCopy_bulk|]. split; [|split].
  - intros Hb. apply canCopy_bulk in Hb. repeat split.
    + now apply genStatement_canCopy.
    + now apply genField_canCopy.
    + now apply equal_field_comparable.
  - intros Hb n. now apply (bulk_array _ n t).
  - intros Hb s Hu. apply canCopy_bulk in Hb. split.
    + now apply (genStatement_Slice_copy g s t).
    + rewrite (genField_Slice g s t this that Hu). now rewrite Hb.
Qed.

Lemma bulk_types_in_one_piece_witness :
  let point := types.Named "main" "Point"
                 (types.Struct [("X", types.Basic (types.Typ types.Int));
                                ("Y", types.Array 2 (types.Basic (types.Typ types.Float64)))]) [] in
  bulk point /\
  genStatement main point "this" "that" = ([P "that = this"], Ok tt) /\
  equal.field (equal.newEqual (types.RelativeTo "main") "deriveEqual")
    "this" "that" point = Ok "this == that" /\
  genStatement main (types.Slice point) "this" "that"
  = ([P "copy(that, this)"], Ok tt).
Proof.
  cbv zeta.
  set (point := types.Named "main" "Point"
                  (types.Struct [("X", types.Basic (types.Typ types.Int));
                                 ("Y", types.Array 2 (types.Basic (types.Typ types.Float64)))]) []).
  destruct (bulk_types_in_one_piece main
              (equal.newEqual (types.RelativeTo "main") "deriveEqual")
              point "this" "that") as (Hc & _ & Hone & _ & Hslice).
  assert (Hb : bulk point) by (apply Hc; reflexivity).
  destruct (Hone Hb) as (H1 & _ & H3).
  destruct (Hslice Hb (types.Slice point) eq_refl) as (H4 & _).
  split; [exact Hb|]. split; [exact H1|]. split; [exact H3|exact H4].
Defined.

(** C7 (as stated) fails twice. The untyped nil is a basic type, and
    [canCopy] and [isComparable] are false for it. And for a slice of
    [int], whose elements can be compared with [==], the equality
    function printed walks the elements in a loop. *)
Lemma untyped_nil_and_slice_equality :
  bulkAsStated (types.Basic (types.Typ types.UntypedNil)) /\
  canCopy (types.Basic (types.Typ types.UntypedNil)) = false /\
  equal.isComparable (types.Basic (types.Typ types.UntypedNil)) = false /\
  equal.isComparable (types.Basic (types.Typ types.Int)) = true /\
  equal.genFuncFor (equal.newEqual (types.RelativeTo "main") "deriveEqual")
    (types.Slice (types.Basic (types.Typ types.Int)))
  = ([ P "";
       P "func deriveEqualSliceOfint(this, that []int) bool {"; In;
         P "if this == nil || that == nil {"; In;
           P "return this == nil && that == nil"; Out;
         P "}";
         P "if len(this) != len(that) {"; In;
           P "return false"; Out;
         P "}";
         P "for i := 0; i < len(this); i++ {"; In;
           P "if !(this[i] == that[i]) {"; In;
             P "return false"; Out;
           P "}"; Out;
         P "}";
         P "return true"; Out;
       P "}" ],
     Ok tt).
Proof.
  split; [now apply (stated_basic _ (types.Typ types.UntypedNil))|].
  repeat split.
Qed.




End copyto_facts.


Module compare_facts.
Import text generated.

Lemma genStatement_Slice (g : compare.compare) (elem : types.type)
  (this that cmpStr : string) :
  compare.field g (this ++ "[i]") (that ++ "[i]") elem = Ok cmpStr ->
  compare.genStatement g (types.Slice elem) this that
  = (compareSliceText this that cmpStr, Ok tt).
Proof. intros H. unfold compare.genStatement. rewrite H. reflexivity. Qed.

Lemma genStatement_Map (g : compare.compare) (key elem : types.type)
  (this that cmpStr cmpStr2 : string) :
  compare.field g "thisvalue" "thatvalue" elem = Ok cmpStr ->
  compare.field g "thiskey" "thatkey" key = Ok cmpStr2 ->
  compare.genStatement g (types.Map key elem) this that
  = (compareMapText this that
       (compare.sort g (types.Slice key)) (compare.keys g (types.Map key elem))
       cmpStr cmpStr2,
     Ok tt).
Proof. intros H1 H2. unfold compare.genStatement. rewrite H1, H2. reflexivity. Qed.

(** C5 (as amended): for a slice type the comparison printed is
    [compareSliceText], and that body settles nil against nil and a
    difference in length without looking at an element: nil and nil are
    equal, nil is less than a slice, a shorter slice is less than a
    longer one; only slices of the same length are walked, in index
    order, up to the first pair of elements that differ. Slices of
    lengths 2 and 3 compare as -1 with no element inspected. A slice met
    as a field or as an element is compared by a call of the function
    derived for its type, unless its elements are bytes: then it is
    compared by [bytes.Compare]. *)
Theorem slice_lengths_decide_first (g : compare.compare) (elem : types.type)
  (this that cmpStr : string) :
  compare.field g (this ++ "[i]") (that ++ "[i]") elem = Ok cmpStr ->
  compare.genStatement g (types.Slice elem) this that
  = (compareSliceText this that cmpStr, Ok tt) /\
  (forall (A : Type) (cmp : A -> A -> Z) (l1 l2 : list A),
    compareSlice cmp None None = ([], Some 0) /\
    compareSlice cmp None (Some l2) = ([], Some (-1)) /\
    compareSlice cmp (Some l1) None = ([], Some 1) /\
    ((length l1 < length l2)%nat ->
     compareSlice cmp (Some l1) (Some l2) = ([], Some (-1))) /\
    ((length l2 < length l1)%nat ->
     compareSlice cmp (Some l1) (Some l2) = ([], Some 1)) /\
    (length l1 = length l2 ->
     compareSlice cmp (Some l1) (Some l2)
     = (seq 0 (upToNonZero (zip_with cmp l1 l2)),
        Some (firstNonZero (zip_with cmp l1 l2)))) /\
    (forall a b c d e : A,
     compareSlice cmp (Some [a; b]) (Some [c; d; e]) = ([], Some (-1)))) /\
  (forall thisField thatField : string,
    ((forall b, elem = types.Basic b -> types.Kind b <> types.Byte) ->
     compare.field g thisField thatField (types.Slice elem)
     = Ok (Sprintf "%s(%s, %s)"
             [compare.GetFuncName g (types.Slice elem); thisField; thatField])) /\
    (forall b, elem = types.Basic b -> types.Kind b = types.Byte ->
     compare.field g thisField thatField (types.Slice elem)
     = Ok (Sprintf "%s.Compare(%s, %s)"
             [compare.bytesPkg g; thisField; thatField]))).
Proof.
  intros Hf. split; [now apply genStatement_Slice|]. split.
  - intros A cmp l1 l2. do 3 (split; [reflexivity|]).
    split; [|split; [|split; [|reflexivity]]].
    + apply generated_facts.compareSlice_shorter.
    + apply generated_facts.compareSlice_longer.
    + apply generated_facts.compareSlice_same_length.
  - intros thisField thatField. split.
    + intros Hb. destruct elem as [b| | | | | | | | |]; try reflexivity.
      cbn [compare.field]. now rewrite bool_decide_eq_false_2 by now apply Hb.
    + intros b -> Hb. cbn [compare.field]. now rewrite bool_decide_eq_true_2.
Qed.

Lemma slice_lengths_decide_first_witness :
  let T := types.Named "main" "T"
             (types.Struct [("ValueA", types.Basic (types.Typ types.Int64));
                            ("RefB", types.Pointer (types.Basic (types.Typ types.String)))]) [] in
  compare.field compare.main "this[i]" "that[i]" T
  = Ok "deriveComparePtrToT(&this[i], &that[i])" /\
  compareSlice compareInt (Some [5; 7]) (Some [1; 2; 3]) = ([], Some (-1)) /\
  compareSlice compareInt (Some [5; 7; 1]) (Some [5; 8; 0])
  = ([0%nat; 1%nat], Some (-1)) /\
  compare.field compare.main "this.Ts" "that.Ts" (types.Slice T)
  = Ok "deriveCompareSliceOfT(this.Ts, that.Ts)".
Proof.
  cbv zeta. split; [reflexivity|].
  destruct (slice_lengths_decide_first compare.main
              (types.Named "main" "T"
                 (types.Struct [("ValueA", types.Basic (types.Typ types.Int64));
                                ("RefB", types.Pointer (types.Basic (types.Typ types.String)))]) [])
              "this" "that" "deriveComparePtrToT(&this[i], &that[i])" eq_refl)
    as (_ & Hs & Hfield).
  destruct (Hs Z compareInt [5; 7] [1; 2; 3]) as (_ & _ & _ & Hlt & _).
  destruct (Hs Z compareInt [5; 7; 1] [5; 8; 0]) as (_ & _ & _ & _ & _ & Heq & _).
  split; [apply Hlt; simpl; lia|]. split; [apply Heq; reflexivity|].
  apply (proj1 (Hfield "this.Ts" "that.Ts")). discriminate.
Defined.

(** C5 (as stated) fails for slices of bytes met as a field or as an
    element: [compare.field] prints [bytes.Compare] for them, which
    walks the bytes from the start, so that a slice of length 2 is
    greater than one of length 3 when its first byte is, and which takes
    a nil slice for an empty one. The function derived for a slice type
    gives -1 in both cases. *)
Lemma byte_slices_compared_by_bytes_Compare :
  let bytes := types.Slice (types.Basic types.universeByte) in
  compare.field compare.main "this.B" "that.B" bytes
  = Ok "bytes.Compare(this.B, that.B)" /\
  compare.genStatement compare.main (types.Slice bytes) "this" "that"
  = (compareSliceText "this" "that" "bytes.Compare(this[i], that[i])", Ok tt) /\
  bytesCompare (Some [9; 9]) (Some [1; 1; 1]) = 1 /\
  compareSlice compareInt (Some [9; 9]) (Some [1; 1; 1]) = ([], Some (-1)) /\
  bytesCompare None (Some []) = 0 /\
  compareSlice compareInt None (Some []) = ([], Some (-1)).
Proof. cbv zeta. repeat split. Qed.

(** C4: for a map type the comparison printed is [compareMapText], and
    that body settles nil and a difference in size first, with no call
    made; otherwise it takes the keys of both maps, in whatever order
    the ranges give them, sorts both with the same function, pairs the
    sorted keys by index, and returns the first result that is not zero
    of: the comparison of the two values, [this[thiskey]] and
    [that[thatkey]], where the paired keys are equal, the comparison of
    the two keys where they are not. When the sorting only reorders, the
    loop stays within both slices, and the values compared at a pair of
    equal keys are the ones the two maps hold under that key. *)
Theorem map_keys_sorted_then_paired (g : compare.compare) (key elem : types.type)
  (this that cmpStr cmpStr2 : string) :
  compare.field g "thisvalue" "thatvalue" elem = Ok cmpStr ->
  compare.field g "thiskey" "thatkey" key = Ok cmpStr2 ->
  compare.genStatement g (types.Map key elem) this that
  = (compareMapText this that
       (compare.sort g (types.Slice key)) (compare.keys g (types.Map key elem))
       cmpStr cmpStr2,
     Ok tt) /\
  forall (K V : Type) `(Countable K) (zero : V) (deriveSort : list K -> list K)
         (cmpKey : K -> K -> Z) (cmpValue : V -> V -> Z) (m1 m2 : gmap K V)
         (range1 range2 : list K),
    let cm := compareMap zero deriveSort cmpKey cmpValue range1 range2 in
    let keys1 := deriveSort range1 in
    let keys2 := deriveSort range2 in
    let value := fun (m : gmap K V) (k : K) =>
      match m !! k with Some v => v | None => zero end in
    let verdictAt := fun p : K * K =>
      if bool_decide (fst p = snd p)
      then cmpValue (value m1 (fst p)) (value m2 (snd p))
      else cmpKey (fst p) (snd p) in
    let callAt := fun p : K * K =>
      if bool_decide (fst p = snd p)
      then CompareValues (value m1 (fst p)) (value m2 (snd p))
      else CompareKeys (fst p) (snd p) in
    let pairs := zip keys1 keys2 in
    let cs := List.map verdictAt pairs in
    cm None None = ([], Some 0) /\
    cm None (Some m2) = ([], Some (-1)) /\
    cm (Some m1) None = ([], Some 1) /\
    ((size m1 < size m2)%nat -> cm (Some m1) (Some m2) = ([], Some (-1))) /\
    ((size m2 < size m1)%nat -> cm (Some m1) (Some m2) = ([], Some 1)) /\
    (size m1 = size m2 -> length keys1 = length keys2 ->
     cm (Some m1) (Some m2)
     = (Keys m1 :: SortKeys range1 :: Keys m2 :: SortKeys range2
          :: List.map callAt (take (upToNonZero cs) pairs),
        Some (firstNonZero cs))) /\
    (keysOf m1 range1 -> keysOf m2 range2 -> (forall l, deriveSort l ≡ₚ l) ->
     size m1 = size m2 ->
     length keys1 = length keys2 /\
     forall k, (k, k) ∈ pairs ->
       exists v1 v2, m1 !! k = Some v1 /\ m2 !! k = Some v2 /\
                     verdictAt (k, k) = cmpValue v1 v2 /\
                     callAt (k, k) = CompareValues v1 v2).
Proof.
  intros H1 H2. split; [now apply genStatement_Map|].
  intros K V EqK CK zero deriveSort cmpKey cmpValue m1 m2 range1 range2.
  cbv zeta. do 3 (split; [reflexivity|]).
  split; [|split; [|split; [|intros Hr1 Hr2 Hsort Hs; split]]].
  - intros Hl. unfold compareMap.
    rewrite (proj2 (Nat.eqb_neq _ _)) by lia. simpl negb. cbv iota.
    now rewrite (proj2 (Nat.ltb_lt _ _) Hl).
  - intros Hl. unfold compareMap.
    rewrite (proj2 (Nat.eqb_neq _ _)) by lia. simpl negb. cbv iota.
    now rewrite (proj2 (Nat.ltb_ge _ _)) by lia.
  - intros Hs Hl. unfold compareMap.
    rewrite (proj2 (Nat.eqb_eq _ _) Hs). simpl negb. cbv iota zeta.
    rewrite generated_facts.keyLoop_pairs by (rewrite Hl; lia).
    cbv zeta. rewrite drop_0. reflexivity.
  - rewrite (generated_facts.keysOf_length deriveSort m1 range1 Hr1 Hsort).
    rewrite (generated_facts.keysOf_length deriveSort m2 range2 Hr2 Hsort).
    exact Hs.
  - intros k Hk.
    apply elem_of_zip_l in Hk as Hk1. apply elem_of_zip_r in Hk as Hk2.
    destruct (generated_facts.keysOf_lookup deriveSort m1 range1 k Hr1 Hsort Hk1)
      as [v1 Hv1].
    destruct (generated_facts.keysOf_lookup deriveSort m2 range2 k Hr2 Hsort Hk2)
      as [v2 Hv2].
    exists v1, v2. cbn [fst snd].
    rewrite bool_decide_eq_true_2 by reflexivity.
    rewrite Hv1, Hv2. auto.
Qed.

Lemma map_keys_sorted_then_paired_witness :
  let m1 : gmap Z Z := {[ 1 := 10; 3 := 30 ]} in
  let m2 : gmap Z Z := {[ 1 := 10; 2 := 99 ]} in
  compare.field compare.main "thisvalue" "thatvalue" (types.Basic (types.Typ types.Int))
  = Ok "deriveCompareint(thisvalue, thatvalue)" /\
  compare.field compare.main "thiskey" "thatkey" (types.Basic (types.Typ types.Int))
  = Ok "deriveCompareint(thiskey, thatkey)" /\
  compareMap 0 sortInts compareInt compareInt [3; 1] [1; 2] (Some m1) (Some m2)
  = ([Keys m1; SortKeys [3; 1]; Keys m2; SortKeys [1; 2];
      CompareValues 10 10; CompareKeys 3 2], Some 1) /\
  exists v1 v2, m1 !! 1 = Some v1 /\ m2 !! 1 = Some v2 /\
                compareInt (default 0 (m1 !! 1)) (default 0 (m2 !! 1))
                = compareInt v1 v2.
Proof.
  cbv zeta. split; [reflexivity|]. split; [reflexivity|].
  destruct (map_keys_sorted_then_paired compare.main
              (types.Basic (types.Typ types.Int)) (types.Basic (types.Typ types.Int)) "this" "that"
              "deriveCompareint(thisvalue, thatvalue)"
              "deriveCompareint(thiskey, thatkey)" eq_refl eq_refl) as [_ Hs].
  destruct (Hs Z Z _ _ 0 sortInts compareInt compareInt
              {[ 1 := 10; 3 := 30 ]} {[ 1 := 10; 2 := 99 ]} [3; 1] [1; 2])
    as (_ & _ & _ & _ & _ & Heq & Hstored).
  split; [rewrite Heq; reflexivity|].
  destruct Hstored as [_ Hstored].
  - unfold keysOf. vm_compute. first [reflexivity | apply perm_swap].
  - unfold keysOf. vm_compute. first [reflexivity | apply perm_swap].
  - intros l. apply merge_sort_Permutation.
  - reflexivity.
  - destruct (Hstored 1) as (v1 & v2 & H1 & H2 & Hv & _).
    + vm_compute. left.
    + exists v1, v2. split; [exact H1|]. split; [exact H2|].
      cbn [fst snd] in Hv. rewrite bool_decide_eq_true_2 in Hv by reflexivity.
      exact Hv.
Defined.

End compare_facts.

Module fields_facts.
Import text.

(** What [copyto.genStatement] prints for a pointer to a named struct
    with fields: the two reflected values if the struct needs them, then
    the copy of each field in declaration order. *)
Lemma copyto_struct (g : copyto.gen) (pkg name : string)
  (strct methods : list (string * types.type)) (this that : string) :
  let fields := registry.StructFields (copyto.TypesMap g) strct in
  let thisv := copyto.prepend this "v" in
  let thatv := copyto.prepend that "v" in
  let round := fun field =>
    copyto.genField g (registry.Typ field)
      (fst (copyto.fieldOperands g field this that thisv thatv))
      (snd (copyto.fieldOperands g field this that thisv thatv)) in
  registry.Fields fields <> [] ->
  Forall (fun field => snd (round field) = Ok tt) (registry.Fields fields) ->
  copyto.genStatement g (types.Pointer (types.Named pkg name (types.Struct strct) methods))
    this that
  = (app (if registry.Reflect fields
          then [ P (Sprintf (thisv ++ " := " ++ copyto.reflectPkg g ++ ".Indirect("
                             ++ copyto.reflectPkg g ++ ".ValueOf(%s))") [this]);
                 P (Sprintf (thatv ++ " := " ++ copyto.reflectPkg g ++ ".Indirect("
                             ++ copyto.reflectPkg g ++ ".ValueOf(%s))") [that]) ]
          else [])
         (flat_map (fun field => printed (round field)) (registry.Fields fields)),
     Ok tt).
Proof.
  cbv zeta. intros Hne Hok. unfold copyto.genStatement.
  change (copyto.canCopy (types.Pointer _)) with false. cbv iota.
  cbn [types.Underlying copyto.isNamed].
  destruct (registry.Fields (registry.StructFields (copyto.TypesMap g) strct))
    as [|f fs] eqn:E; [congruence|].
  cbn [length Nat.ltb Nat.leb].
  rewrite (text_facts.forEach_ok (f :: fs)
             (fun field =>
                let (thisField, thatField) :=
                  copyto.fieldOperands g field this that
                    (copyto.prepend this "v") (copyto.prepend that "v") in
                copyto.genField g (registry.Typ field) thisField thatField)).
  - rewrite (flat_map_ext _
               (fun field =>
                  printed (copyto.genField g (registry.Typ field)
                    (fst (copyto.fieldOperands g field this that
                            (copyto.prepend this "v") (copyto.prepend that "v")))
                    (snd (copyto.fieldOperands g field this that
                            (copyto.prepend this "v") (copyto.prepend that "v")))))).
    + destruct (registry.Reflect _); reflexivity.
    + intros fld.
      destruct (copyto.fieldOperands g fld this that _ _); reflexivity.
  - eapply Forall_impl; [exact Hok|]. intros fld Hf. simpl in Hf.
    destruct (copyto.fieldOperands g fld this that _ _); exact Hf.
Qed.

(** What [compare.genStatement] prints for a pointer to a named struct:
    the checks for nil, the two reflected values if the struct needs
    them, then for each field in declaration order the comparison
    [compare.field] gives for its two operands, and [return 0]. *)
Lemma compare_struct (g : compare.compare) (pkg name : string)
  (strct methods : list (string * types.type)) (this that : string)
  (fieldStrs : list string) :
  let fields := registry.StructFields (compare.TypesMap g) strct in
  Forall2 (fun field fieldStr =>
             compare.field g
               (if registry.Private field
                then registry.Name field "thisv" (Some (compare.unsafePkg g))
                else registry.Name field this None)
               (if registry.Private field
                then registry.Name field "thatv" (Some (compare.unsafePkg g))
                else registry.Name field that None)
               (registry.Typ field) = Ok fieldStr)
          (registry.Fields fields) fieldStrs ->
  compare.genStatement g
    (types.Pointer (types.Named pkg name (types.Struct strct) methods)) this that
  = (app (printed (compare.nilChecks this that))
      (app (if registry.Reflect fields
            then [ P (Sprintf ("thisv := " ++ compare.reflectPkg g ++ ".Indirect("
                               ++ compare.reflectPkg g ++ ".ValueOf(" ++ this ++ "))") []);
                   P (Sprintf ("thatv := " ++ compare.reflectPkg g ++ ".Indirect("
                               ++ compare.reflectPkg g ++ ".ValueOf(" ++ that ++ "))") []) ]
            else [])
      (app (flat_map (fun fieldStr => printed (compare.returnIfDiffers fieldStr))
              fieldStrs)
           [P "return 0"])),
     Ok tt).
Proof.
  cbv zeta. intros Hf. unfold compare.genStatement.
  set (fields := registry.StructFields (compare.TypesMap g) strct) in *.
  assert (Hloop :
    forEach (registry.Fields fields) (fun fld =>
      let fieldType := registry.Typ fld in
      let (thisField, thatField) := compare.fieldOperands g fld this that in
      fieldStr <- lift (compare.field g thisField thatField fieldType) ;;
      compare.returnIfDiffers fieldStr)
    = (flat_map (fun fieldStr => printed (compare.returnIfDiffers fieldStr)) fieldStrs,
       Ok tt)).
  { induction Hf as [|fld fieldStr flds strs Hfld _ IH]; [reflexivity|].
    cbn [forEach flat_map].
    match goal with
    | |- bind ?m _ = _ =>
        assert (Hx : m = (printed (compare.returnIfDiffers fieldStr), Ok tt))
    end.
    { cbv zeta. unfold compare.fieldOperands.
      destruct (registry.Private fld); cbn [negb]; rewrite Hfld; reflexivity. }
    rewrite Hx. unfold bind at 1. cbv beta iota zeta in IH |- *. rewrite IH. reflexivity. }
  unfold compare.genStatement. fold fields. cbv zeta in Hloop |- *.
  destruct (registry.Reflect fields);
    cbn [bind compare.nilChecks printf emit ret];
    rewrite Hloop; reflexivity.
Qed.

(** C8 (as amended): the access path is chosen field by field. A field
    that is not accessible is reached through the reflected value and
    the unsafe address, an accessible field of the same struct by a
    plain selector; the reflected values are set up once, when some
    field of the struct is inaccessible. This is what [genStatement]
    prints for a pointer to a named struct, in the copy and in the
    comparison. *)
Theorem field_access_follows_visibility (gc : copyto.gen) (gk : compare.compare)
  (field : registry.Field) (this that thisv thatv : string) :
  copyto.fieldOperands gc field this that thisv thatv
  = (if registry.Private field
     then (registry.Name field thisv (Some (copyto.unsafePkg gc)),
           registry.Name field thatv (Some (copyto.unsafePkg gc)))
     else (registry.Name field this None, registry.Name field that None)) /\
  compare.fieldOperands gk field this that
  = (if registry.Private field
     then (registry.Name field "thisv" (Some (compare.unsafePkg gk)),
           registry.Name field "thatv" (Some (compare.unsafePkg gk)))
     else (registry.Name field this None, registry.Name field that None)) /\
  (forall (pkg name : string) (strct methods : list (string * types.type)),
    let fields := registry.StructFields (copyto.TypesMap gc) strct in
    let round := fun field =>
      copyto.genField gc (registry.Typ field)
        (fst (copyto.fieldOperands gc field this that
                (copyto.prepend this "v") (copyto.prepend that "v")))
        (snd (copyto.fieldOperands gc field this that
                (copyto.prepend this "v") (copyto.prepend that "v"))) in
    registry.Fields fields <> [] ->
    Forall (fun field => snd (round field) = Ok tt) (registry.Fields fields) ->
    copyto.genStatement gc
      (types.Pointer (types.Named pkg name (types.Struct strct) methods)) this that
    = (app (if registry.Reflect fields
            then [ P (Sprintf (copyto.prepend this "v" ++ " := "
                               ++ copyto.reflectPkg gc ++ ".Indirect("
                               ++ copyto.reflectPkg gc ++ ".ValueOf(%s))") [this]);
                   P (Sprintf (copyto.prepend that "v" ++ " := "
                               ++ copyto.reflectPkg gc ++ ".Indirect("
                               ++ copyto.reflectPkg gc ++ ".ValueOf(%s))") [that]) ]
            else [])
           (flat_map (fun field => printed (round field)) (registry.Fields fields)),
       Ok tt)) /\
  (forall (pkg name : string) (strct methods : list (string * types.type))
          (fieldStrs : list string),
    let fields := registry.StructFields (compare.TypesMap gk) strct in
    Forall2 (fun field fieldStr =>
               compare.field gk
                 (if registry.Private field
                  then registry.Name field "thisv" (Some (compare.unsafePkg gk))
                  else registry.Name field this None)
                 (if registry.Private field
                  then registry.Name field "thatv" (Some (compare.unsafePkg gk))
                  else registry.Name field that None)
                 (registry.Typ field) = Ok fieldStr)
            (registry.Fields fields) fieldStrs ->
    compare.genStatement gk
      (types.Pointer (types.Named pkg name (types.Struct strct) methods)) this that
    = (app (printed (compare.nilChecks this that))
        (app (if registry.Reflect fields
              then [ P (Sprintf ("thisv := " ++ compare.reflectPkg gk ++ ".Indirect("
                                 ++ compare.reflectPkg gk ++ ".ValueOf(" ++ this ++ "))") []);
                     P (Sprintf ("thatv := " ++ compare.reflectPkg gk ++ ".Indirect("
                                 ++ compare.reflectPkg gk ++ ".ValueOf(" ++ that ++ "))") []) ]
              else [])
        (app (flat_map (fun fieldStr => printed (compare.returnIfDiffers fieldStr))
                fieldStrs)
             [P "return 0"])),
       Ok tt)).
Proof.
  split; [|split; [|split]].
  - unfold copyto.fieldOperands. now destruct (registry.Private field).
  - unfold compare.fieldOperands. now destruct (registry.Private field).
  - intros pkg name strct methods. apply copyto_struct.
  - intros pkg name strct methods fieldStrs. apply compare_struct.
Qed.

Lemma field_access_follows_visibility_witness :
  let A := {| registry.FieldName := "A"; registry.Typ := types.Basic (types.Typ types.Int);
              registry.typeStr := "int"; registry.Private := false |} in
  let b := {| registry.FieldName := "b"; registry.Typ := types.Basic (types.Typ types.String);
              registry.typeStr := "string"; registry.Private := true |} in
  let unsafe := fun recv =>
    "*(*string)(unsafe.Pointer(" ++ recv ++ ".FieldByName(" ++ quote ++ "b" ++ quote
    ++ ").UnsafeAddr()))" in
  registry.Fields (registry.StructFields (copyto.TypesMap copyto.main)
                     [("A", types.Basic (types.Typ types.Int)); ("b", types.Basic (types.Typ types.String))])
  = [A; b] /\
  copyto.genStatement copyto.main (types.Pointer copyto.mixed) "this" "that"
  = ([ P "this_v := reflect.Indirect(reflect.ValueOf(this))";
       P "that_v := reflect.Indirect(reflect.ValueOf(that))";
       P "that.A = this.A";
       P (unsafe "that_v" ++ " = " ++ unsafe "this_v") ],
     Ok tt) /\
  compare.genStatement compare.main (types.Pointer copyto.mixed) "this" "that"
  = (app (printed (compare.nilChecks "this" "that"))
       [ P "thisv := reflect.Indirect(reflect.ValueOf(this))";
         P "thatv := reflect.Indirect(reflect.ValueOf(that))";
         P "if c := deriveCompareint(this.A, that.A); c != 0 {"; In;
           P "return c"; Out;
         P "}";
         P ("if c := strings.Compare(" ++ unsafe "thisv" ++ ", " ++ unsafe "thatv"
            ++ "); c != 0 {"); In;
           P "return c"; Out;
         P "}";
         P "return 0" ],
     Ok tt).
Proof.
  cbv zeta. split; [reflexivity|].
  destruct (field_access_follows_visibility copyto.main compare.main
              {| registry.FieldName := "A"; registry.Typ := types.Basic (types.Typ types.Int);
                 registry.typeStr := "int"; registry.Private := false |}
              "this" "that" "this_v" "that_v") as (_ & _ & Hcopy & Hcompare).
  unfold copyto.mixed. split.
  - rewrite (Hcopy "lib" "T"
               [("A", types.Basic (types.Typ types.Int)); ("b", types.Basic (types.Typ types.String))] []).
    + reflexivity.
    + discriminate.
    + repeat constructor.
  - rewrite (Hcompare "lib" "T"
               [("A", types.Basic (types.Typ types.Int)); ("b", types.Basic (types.Typ types.String))] []
               [ "deriveCompareint(this.A, that.A)";
                 "strings.Compare("
                 ++ "*(*string)(unsafe.Pointer(thisv.FieldByName(" ++ quote ++ "b" ++ quote
                 ++ ").UnsafeAddr()))" ++ ", "
                 ++ "*(*string)(unsafe.Pointer(thatv.FieldByName(" ++ quote ++ "b" ++ quote
                 ++ ").UnsafeAddr()))" ++ ")" ]).
    + reflexivity.
    + repeat constructor.
Defined.

(** C8 (as stated) fails: the struct [T] has the inaccessible field [b],
    so it needs the reflected values, and yet its accessible field [A]
    is copied and compared through the plain selector while [b] goes
    through the unsafe address. *)
Lemma mixed_field_access :
  let A := {| registry.FieldName := "A"; registry.Typ := types.Basic (types.Typ types.Int);
              registry.typeStr := "int"; registry.Private := false |} in
  let b := {| registry.FieldName := "b"; registry.Typ := types.Basic (types.Typ types.String);
              registry.typeStr := "string"; registry.Private := true |} in
  let unsafe := fun recv =>
    "*(*string)(unsafe.Pointer(" ++ recv ++ ".FieldByName(" ++ quote ++ "b" ++ quote
    ++ ").UnsafeAddr()))" in
  registry.StructFields (copyto.TypesMap copyto.main)
    [("A", types.Basic (types.Typ types.Int)); ("b", types.Basic (types.Typ types.String))]
  = {| registry.Fields := [A; b]; registry.Reflect := true |} /\
  copyto.fieldOperands copyto.main A "this" "that" "this_v" "that_v"
  = ("this.A", "that.A") /\
  copyto.fieldOperands copyto.main b "this" "that" "this_v" "that_v"
  = (unsafe "this_v", unsafe "that_v") /\
  compare.fieldOperands compare.main A "this" "that" = ("this.A", "that.A") /\
  compare.fieldOperands compare.main b "this" "that"
  = (unsafe "thisv", unsafe "thatv") /\
  copyto.genStatement copyto.main (types.Pointer copyto.mixed) "this" "that"
  = ([ P "this_v := reflect.Indirect(reflect.ValueOf(this))";
       P "that_v := reflect.Indirect(reflect.ValueOf(that))";
       P "that.A = this.A";
       P (unsafe "that_v" ++ " = " ++ unsafe "this_v") ],
     Ok tt).
Proof. cbv zeta. repeat split. Qed.

End fields_facts.

(* ===================================================================== *)
(** * Further properties                                                 *)
(* ===================================================================== *)

Module text_more_facts.
Import text.

Lemma closes_app (l1 l2 : list Line) :
  forall d, closes d (app l1 l2)
            = match closes d l1 with
              | Some d' => closes d' l2
              | None => None
              end.
Proof.
  induction l1 as [|[line| |] l1 IH]; intros d; simpl; auto.
  destruct d; auto.
Qed.

Lemma bind_ok_inv {A B} (m : Gen A) (k : A -> Gen B) (b : B) :
  snd (bind m k) = Ok b ->
  exists a, snd m = Ok a /\ snd (k a) = Ok b /\
            printed (bind m k) = app (printed m) (printed (k a)).
Proof.
  destruct m as [out [a|msg|msg]]; simpl; try discriminate.
  destruct (k a) as [out' r] eqn:E. simpl. intros ->.
  exists a. rewrite E. auto.
Qed.

Lemma forEach_closes {A} (f : A -> Gen unit) (l : list A) :
  (forall x d, snd (f x) = Ok tt -> closes d (printed (f x)) = Some d) ->
  snd (forEach l f) = Ok tt ->
  forall d, closes d (printed (forEach l f)) = Some d.
Proof.
  intros Hf. induction l as [|x l IH]; simpl; [reflexivity|].
  intros Hr d. apply bind_ok_inv in Hr as ([] & Hx & Hl & ->).
  rewrite closes_app, (Hf x d Hx). now apply IH.
Qed.

Lemma printed_emit_bind {B} (l : Line) (k : unit -> Gen B) :
  printed (bind (emit l) k) = l :: printed (k tt).
Proof. unfold printed, bind, emit. now destruct (k tt). Qed.

Lemma printed_printf_bind {B} (format : string) (a : list string) (k : unit -> Gen B) :
  printed (bind (printf format a) k) = P (Sprintf format a) :: printed (k tt).
Proof. apply printed_emit_bind. Qed.

Lemma snd_after {B} (l : Line) (m : Gen B) : snd (emit l ;;; m) = snd m.
Proof. unfold bind, emit. now destruct m. Qed.

Lemma snd_then (m k : Gen unit) : snd k = Ok tt -> snd (m ;;; k) = snd m.
Proof.
  destruct m as [out [[]|msg|msg]], k as [out' r]; simpl; auto.
Qed.

Lemma HasPrefix_dropPrefix (prefix : string) :
  forall s, HasPrefix s prefix = true -> s = prefix ++ dropPrefix s prefix.
Proof.
  induction prefix as [|p prefix IH]; intros [|c s]; simpl; try discriminate; auto.
  intros H. apply andb_true_iff in H as [Hc Hp].
  apply Ascii.eqb_eq in Hc as ->. f_equal. now apply IH.
Qed.

End text_more_facts.

(* --------------------------------------------------------------------- *)
(** ** derive/find.go: the reports of the finder                         *)
(* --------------------------------------------------------------------- *)

Module finder_facts.
Import derive.
Local Open Scope nat_scope.

Lemma fold_Walk (decls : list Node) (this : finder) :
  fold_left Walk decls this = fold_left Visit (flat_map nodes decls) this.
Proof.
  apply derive_facts.fold_Walk_nodes. apply List.Forall_forall.
  intros a _ f. apply derive_facts.Walk_nodes.
Qed.

Lemma isUndefined_callee files uses node :
  isUndefined files uses node = true ->
  exists fn name Args, node = CallExpr (Ident fn name) Args.
Proof.
  unfold isUndefined, classify.
  destruct node as [p n|X sel|Fun Args|cs]; simpl; try discriminate.
  destruct Fun as [fn nm| | |]; simpl; try discriminate. eauto.
Qed.

Lemma isDerived_callee files uses node :
  isDerived files uses node = true ->
  exists fn name Args, node = CallExpr (Ident fn name) Args.
Proof.
  unfold isDerived, classify.
  destruct node as [p n|X sel|Fun Args|cs]; simpl; try discriminate.
  destruct Fun as [fn nm| | |]; simpl; try discriminate. eauto.
Qed.

(** [newCall] does not panic on calls whose callees are identifiers, and
    keeps each expression. *)
Lemma newCalls_ok (pkgInfo : PackageInfo) (exprs : list Node) :
  Forall (fun e => exists fn name Args, e = CallExpr (Ident fn name) Args) exprs ->
  exists calls, newCalls pkgInfo exprs = text.Ok calls /\
                List.map Expr calls = exprs /\
                Forall (fun c => newCall pkgInfo (Expr c) = text.Ok c) calls.
Proof.
  induction 1 as [|e exprs (fn & name & Args & ->) _ (calls & He & Hm & Hf)]; simpl.
  - exists []. repeat split. constructor.
  - rewrite He. eexists. split; [reflexivity|]. simpl. rewrite Hm.
    split; [reflexivity|]. constructor; [reflexivity|exact Hf].
Qed.

Lemma filter_callee (keep : Node -> bool) (l : list Node) :
  (forall n, keep n = true -> exists fn name Args, n = CallExpr (Ident fn name) Args) ->
  Forall (fun e => exists fn name Args, e = CallExpr (Ident fn name) Args)
         (List.filter keep l).
Proof.
  intros HP. apply List.Forall_forall. intros n Hn.
  apply filter_In in Hn as [_ Hn]. auto.
Qed.

Lemma fold_Visit_funcNames (l : list Node) :
  forall this,
    funcNames (fold_left Visit l this)
    = funcNames this ∪ list_to_set (omap (knownName (program this) (pkgInfo this)) l).
Proof.
  induction l as [|a l IH]; intros this.
  - simpl. set_solver.
  - simpl fold_left. rewrite IH. rewrite derive_facts.Visit_classify.
    rewrite derive_facts.record_program, derive_facts.record_pkgInfo.
    simpl omap. unfold knownName at 2.
    destruct (classify (program this) (pkgInfo this) a); simpl; set_solver.
Qed.

(** X1 ([NewFileInfos]): the scan of a package never panics, so the
    panic of [newCall] is indeed not reached. It reports, in the order
    of the package, exactly the files that the file set has and that are
    not named derived.gen.go; and the report of a file lists exactly the
    undefined and the derived calls of the declarations of that file, in
    source order, each a call [newCall] accepts, and the names of the
    callees that other files declare. *)
Theorem NewFileInfos_reports (program : list File) (pkgInfo : PackageInfo) :
  exists infos,
    NewFileInfos program pkgInfo = text.Ok infos /\
    List.map astFile infos = List.filter (scanned program) (Files pkgInfo) /\
    Forall (fun info =>
      (exists file, Fset_File program (FilePos (astFile info)) = Some file /\
                    fullpath info = derive.Name file) /\
      snd (Split (fullpath info)) <> derivedFilename /\
      List.map Expr (undefinedCalls info)
      = List.filter (isUndefined program (Uses pkgInfo))
                    (flat_map nodes (Decls (astFile info))) /\
      List.map Expr (derivedCalls info)
      = List.filter (isDerived program (Uses pkgInfo))
                    (flat_map nodes (Decls (astFile info))) /\
      Forall (fun c => newCall pkgInfo (Expr c) = text.Ok c)
             (app (undefinedCalls info) (derivedCalls info)) /\
      knownNames info
      = list_to_set (omap (knownName program (Uses pkgInfo))
                          (flat_map nodes (Decls (astFile info))))) infos.
Proof.
  unfold NewFileInfos. induction (Files pkgInfo) as [|f files IH].
  - exists []. repeat split. constructor.
  - destruct IH as (infos & IHe & IHm & IHf).
    simpl fileInfos. simpl List.filter. unfold scanned at 1.
    destruct (Fset_File program (FilePos f)) as [file|] eqn:Hfile.
    2:{ exists infos. auto. }
    destruct (Split (derive.Name file)) as [dir fname] eqn:Hsplit.
    cbn [snd].
    destruct (String.eqb fname derivedFilename) eqn:Hname.
    { exists infos. auto. }
    cbn [negb].
    rewrite fold_Walk.
    set (f0 := {| program := program; pkgInfo := Uses pkgInfo;
                  undefined := []; derived := []; funcNames := ∅ |}).
    destruct (derive_facts.fold_Visit (flat_map nodes (Decls f)) f0)
      as (_ & _ & Hu & Hd).
    pose proof (fold_Visit_funcNames (flat_map nodes (Decls f)) f0) as Hn.
    cbv zeta in Hu, Hd. simpl in Hu, Hd, Hn. rewrite Hu, Hd.
    destruct (newCalls_ok pkgInfo _
                (filter_callee (isUndefined program (Uses pkgInfo))
                   (flat_map nodes (Decls f)) (isUndefined_callee _ _)))
      as (us & -> & Hum & Huf).
    destruct (newCalls_ok pkgInfo _
                (filter_callee (isDerived program (Uses pkgInfo))
                   (flat_map nodes (Decls f)) (isDerived_callee _ _)))
      as (ds & -> & Hdm & Hdf).
    rewrite IHe. eexists. split; [reflexivity|].
    simpl. rewrite IHm. split; [reflexivity|].
    constructor; [|exact IHf].
    simpl. repeat split; auto.
    + exists file. auto.
    + rewrite Hsplit. simpl. intros ->. discriminate.
    + apply Forall_app. auto.
    + rewrite Hn. set_solver.
Qed.

(** X2 ([finder.Visit] under [ast.Walk]): after a walk the set of known
    function names is what it was before together with the callee names
    of the calls of the tree that resolve to a symbol declared in a file
    other than derived.gen.go; the file set and [Uses] are untouched. *)
Theorem Walk_funcNames (this : finder) (node : Node) :
  funcNames (Walk this node)
  = funcNames this
    ∪ list_to_set (omap (knownName (program this) (pkgInfo this)) (nodes node)) /\
  program (Walk this node) = program this /\
  pkgInfo (Walk this node) = pkgInfo this.
Proof.
  rewrite derive_facts.Walk_nodes. split; [apply fold_Visit_funcNames|].
  destruct (derive_facts.fold_Visit (nodes node) this) as (Hp & Hu & _). auto.
Qed.

End finder_facts.

(* --------------------------------------------------------------------- *)
(** ** The command: the calls of a file                                  *)
(* --------------------------------------------------------------------- *)

Module dispatch_facts.
Import driver.

Section calls.
Context {S : Type} (autoname dedup : bool).

Lemma generated_first (gs : list (Generator S)) (call : derive.Call)
  (ch : bool) (s : S) acts isGenerated ch' s' :
  generated autoname dedup gs call ch s = (acts, text.Ok (isGenerated, ch', s')) ->
  isGenerated = existsb (takes call) gs /\
  List.filter isAsked acts
  = match List.find (takes call) gs with
    | Some g => [Asked (GeneratorName g) (derive.CallName call) (derive.CallArgs call)]
    | None => []
    end /\
  (autoname = false -> dedup = false ->
   ch' = ch /\ List.filter isNewIdent acts = []).
Proof.
  induction gs as [|g gs IH]; simpl.
  - intros E. injection E as <- <- <- <-. auto.
  - unfold takes at 1 3. simpl.
    destruct (text.HasPrefix (derive.CallName call) (GetPrefix g)); simpl.
    2:{ exact IH. }
    destruct (Add g _ _ s) as [r s1].
    destruct r as [name|err|msg]; try discriminate.
    destruct (String.eqb name (derive.CallName call)); simpl.
    + intros E. injection E as <- <- <- <-. auto.
    + destruct autoname, dedup; simpl; try discriminate;
        intros E; injection E as <- <- <- <-; repeat split; auto; discriminate.
Qed.

(** X3 (the loop of [main] over the calls of a file): when the loop ends
    without a fatal error or a panic, every call has gone one of two
    ways. The calls listed as not generated are, in order, exactly those
    with an undefined argument and those whose name has the prefix of no
    generator; every other call was handed to one plugin, the first in
    the list of generators whose prefix its name has, and to no other.
    Without -autoname and -dedup no call is renamed. *)
Theorem forCalls_partition (generators : list (Generator S))
  (calls : list derive.Call) :
  forall (notgenerated : list derive.Node) (changed : bool) (s : S)
         acts notgenerated' changed' s',
  forCalls autoname dedup generators calls notgenerated changed s
  = (acts, text.Ok (notgenerated', changed', s')) ->
  notgenerated'
  = app notgenerated
        (List.map derive.Expr
           (List.filter (fun call => derive.HasUndefined call
                                     || negb (existsb (takes call) generators))
                        calls)) /\
  List.filter isAsked acts = flat_map (request generators) calls /\
  (autoname = false -> dedup = false ->
   changed' = changed /\ List.filter isNewIdent acts = []).
Proof.
  induction calls as [|call calls IH]; intros ng ch s acts ng' ch' s'; simpl.
  - intros E. injection E as <- <- <- <-. rewrite app_nil_r. auto.
  - unfold request at 1.
    destruct (derive.HasUndefined call) eqn:Hu; simpl.
    + intros E. apply IH in E as (-> & Ha & Hc).
      rewrite <- app_assoc. auto.
    + destruct (generated autoname dedup generators call ch s) as [acts1 r1] eqn:G.
      destruct r1 as [[[isGenerated ch1] s1]|err|msg]; try discriminate.
      apply generated_first in G as (-> & Ha1 & Hc1).
      destruct (forCalls autoname dedup generators calls _ ch1 s1)
        as [acts2 r2] eqn:F.
      intros E. injection E as <- ->.
      apply IH in F as (-> & Ha2 & Hc2).
      rewrite !List.filter_app, Ha1, Ha2.
      split; [|split; [reflexivity|]].
      * destruct (existsb (takes call) generators); simpl;
          rewrite <- ?app_assoc; reflexivity.
      * intros Hn Hd. destruct (Hc1 Hn Hd) as [-> ->].
        destruct (Hc2 Hn Hd) as [-> ->]. auto.
Qed.

End calls.

Lemma forCalls_partition_witness :
  let int := Some (types.Basic (types.Typ types.Int)) in
  let generators := [accepting "equal" "deriveEqual"; accepting "all" "derive"] in
  let call name typs :=
    {| derive.Expr := derive.CallExpr (derive.Ident 1%nat name) [];
       derive.CallName := name; derive.CallArgs := typs |} in
  let calls := [call "deriveEqualInt" [int; int]; call "deriveCompare" [int; None];
                call "max" [int]] in
  forCalls false false generators calls [] false tt
  = ([Asked "equal" "deriveEqualInt" [int; int]],
     text.Ok ([derive.CallExpr (derive.Ident 1%nat "deriveCompare") [];
               derive.CallExpr (derive.Ident 1%nat "max") []], false, tt)) /\
  List.filter isAsked [Asked "equal" "deriveEqualInt" [int; int]]
  = flat_map (request generators) calls.
Proof.
  cbv zeta. split; [reflexivity|].
  refine (proj1 (proj2 (forCalls_partition false false _ _ [] false tt _ _ _ _ _))).
  reflexivity.
Defined.

End dispatch_facts.

(* --------------------------------------------------------------------- *)
(** ** The derived comparison as an order                                *)
(* --------------------------------------------------------------------- *)

Module order_facts.
Import generated.

Lemma compareInt_zero (x y : Z) : compareInt x y = 0 <-> x = y.
Proof.
  unfold compareInt. destruct (Z.eqb_spec x y); simpl; [tauto|].
  destruct (x <? y); split; intros; try discriminate; contradiction.
Qed.

Lemma compareInt_sgn (x y : Z) : Z.sgn (compareInt y x) = - Z.sgn (compareInt x y).
Proof.
  unfold compareInt.
  destruct (Z.eqb_spec x y), (Z.eqb_spec y x); simpl; try lia.
  destruct (Z.ltb_spec x y), (Z.ltb_spec y x); simpl; lia.
Qed.

Lemma compareInt_neg (x y : Z) : compareInt x y < 0 <-> x < y.
Proof.
  unfold compareInt.
  destruct (Z.eqb_spec x y); simpl; [lia|].
  destruct (Z.ltb_spec x y); lia.
Qed.

Lemma compareInt_trans (x y z : Z) :
  compareInt x y < 0 -> compareInt y z < 0 -> compareInt x z < 0.
Proof. rewrite !compareInt_neg. lia. Qed.

Section compareSlice.
Context {A : Type} (cmp : A -> A -> Z).

Lemma firstNonZero_swap (a : list A) :
  (forall x y, Z.sgn (cmp y x) = - Z.sgn (cmp x y)) ->
  forall b, Z.sgn (firstNonZero (zip_with cmp b a))
            = - Z.sgn (firstNonZero (zip_with cmp a b)).
Proof.
  intros anti. induction a as [|x a IH]; intros [|y b]; simpl; auto.
  specialize (anti x y).
  destruct (Z.eqb_spec (cmp x y) 0) as [E|E], (Z.eqb_spec (cmp y x) 0) as [E'|E'];
    simpl; auto; lia.
Qed.

(** X4 (the function printed for a slice type, and the test
    [TestCompareStructs]): when the comparison of the elements changes
    sign with the order of its arguments, the derived comparison gives 0
    for a slice against itself, and comparing two slices the other way
    round gives the opposite sign; nil slices included. *)
Theorem compareSlice_antisymmetric :
  (forall x y, Z.sgn (cmp y x) = - Z.sgn (cmp x y)) ->
  forall this that : option (list A),
    snd (compareSlice cmp this this) = Some 0 /\
    exists c1 c2,
      snd (compareSlice cmp this that) = Some c1 /\
      snd (compareSlice cmp that this) = Some c2 /\
      Z.sgn c2 = - Z.sgn c1.
Proof.
  intros anti this that. split.
  - destruct this as [l|]; [|reflexivity].
    rewrite generated_facts.compareSlice_same_length by reflexivity.
    cbv zeta. simpl. f_equal.
    induction l as [|x l IH]; simpl; [reflexivity|].
    pose proof (anti x x). replace (cmp x x =? 0) with true; [exact IH|].
    symmetry. apply Z.eqb_eq. lia.
  - destruct this as [a|], that as [b|]; try (eexists _, _; repeat split; fail).
    destruct (Nat.lt_trichotomy (length a) (length b)) as [H|[H|H]].
    + rewrite (generated_facts.compareSlice_shorter cmp a b H),
        (generated_facts.compareSlice_longer cmp b a H).
      eexists _, _; repeat split.
    + rewrite (generated_facts.compareSlice_same_length cmp a b H),
        (generated_facts.compareSlice_same_length cmp b a (eq_sym H)).
      eexists _, _. split; [reflexivity|]. split; [reflexivity|].
      now apply firstNonZero_swap.
    + rewrite (generated_facts.compareSlice_longer cmp a b H),
        (generated_facts.compareSlice_shorter cmp b a H).
      eexists _, _; repeat split.
Qed.

Lemma firstNonZero_zero (a : list A) :
  (forall x y, cmp x y = 0 <-> x = y) ->
  forall b, length a = length b ->
            (firstNonZero (zip_with cmp a b) = 0 <-> a = b).
Proof.
  intros zero. induction a as [|x a IH]; intros [|y b] Hl; simpl in *;
    try discriminate; [tauto|].
  injection Hl as Hl. specialize (IH b Hl).
  destruct (Z.eqb_spec (cmp x y) 0) as [E|E]; simpl.
  - apply zero in E as ->. rewrite IH. split; [now intros ->|now intros [= ->]].
  - split; [contradiction|]. intros [= -> ->]. destruct E. now apply zero.
Qed.

(** X5 (the function printed for a slice type): when the comparison of
    the elements gives 0 exactly for equal elements, the derived
    comparison gives 0 exactly for equal slices; a nil slice and an empty
    slice are not equal. *)
Theorem compareSlice_zero_iff_equal :
  (forall x y, cmp x y = 0 <-> x = y) ->
  forall this that : option (list A),
    snd (compareSlice cmp this that) = Some 0 <-> this = that.
Proof.
  intros zero [a|] [b|];
    [|simpl; split; discriminate|simpl; split; discriminate|simpl; tauto].
  destruct (Nat.lt_trichotomy (length a) (length b)) as [H|[H|H]].
  - rewrite (generated_facts.compareSlice_shorter cmp a b H). simpl.
    split; [discriminate|]. intros [= ->]. lia.
  - rewrite (generated_facts.compareSlice_same_length cmp a b H). simpl.
    pose proof (firstNonZero_zero a zero b H) as Hz.
    split.
    + intros [= E]. f_equal. now apply Hz.
    + intros [= E]. f_equal. now apply Hz.
  - rewrite (generated_facts.compareSlice_longer cmp a b H). simpl.
    split; [discriminate|]. intros [= ->]. lia.
Qed.

Lemma firstNonZero_trans (a : list A) :
  (forall x y, cmp x y = 0 <-> x = y) ->
  (forall x y z, cmp x y < 0 -> cmp y z < 0 -> cmp x z < 0) ->
  forall b c, length a = length b -> length b = length c ->
    firstNonZero (zip_with cmp a b) < 0 ->
    firstNonZero (zip_with cmp b c) < 0 ->
    firstNonZero (zip_with cmp a c) < 0.
Proof.
  intros zero trans. induction a as [|x a IH]; intros [|y b] [|z c] Hab Hbc;
    simpl in *; try discriminate; try lia.
  injection Hab as Hab. injection Hbc as Hbc.
  destruct (Z.eqb_spec (cmp x y) 0) as [Exy|Exy]; simpl.
  - apply zero in Exy as ->.
    destruct (Z.eqb_spec (cmp y z) 0) as [Eyz|Eyz]; simpl; [|auto].
    now apply IH.
  - intros Hxy.
    destruct (Z.eqb_spec (cmp y z) 0) as [Eyz|Eyz]; simpl.
    + apply zero in Eyz as <-. intros _.
      destruct (Z.eqb_spec (cmp x y) 0); simpl; [contradiction|exact Hxy].
    + intros Hyz. pose proof (trans x y z Hxy Hyz) as Hxz.
      destruct (Z.eqb_spec (cmp x z) 0); simpl; lia.
Qed.

(** The outcome of a comparison of two slices that are not nil: decided
    by the lengths, or by the elements. *)
Lemma compareSlice_cases (a b : list A) :
  snd (compareSlice cmp (Some a) (Some b))
  = Some (if Nat.ltb (length a) (length b) then -1
          else if Nat.ltb (length b) (length a) then 1
          else firstNonZero (zip_with cmp a b)).
Proof.
  destruct (Nat.lt_trichotomy (length a) (length b)) as [H|[H|H]].
  - rewrite (generated_facts.compareSlice_shorter cmp a b H).
    now rewrite (proj2 (Nat.ltb_lt _ _) H).
  - rewrite (generated_facts.compareSlice_same_length cmp a b H).
    rewrite !(proj2 (Nat.ltb_ge _ _)) by lia. reflexivity.
  - rewrite (generated_facts.compareSlice_longer cmp a b H).
    rewrite (proj2 (Nat.ltb_ge _ _)) by lia.
    now rewrite (proj2 (Nat.ltb_lt _ _) H).
Qed.

(** X6 (the function printed for a slice type): when the comparison of
    the elements gives 0 exactly for equal elements and its "less" is
    transitive, the "less" of the derived comparison is transitive, which
    is what sorting with it needs. *)
Theorem compareSlice_transitive :
  (forall x y, cmp x y = 0 <-> x = y) ->
  (forall x y z, cmp x y < 0 -> cmp y z < 0 -> cmp x z < 0) ->
  forall (a b c : option (list A)) (ab bc : Z),
    snd (compareSlice cmp a b) = Some ab -> ab < 0 ->
    snd (compareSlice cmp b c) = Some bc -> bc < 0 ->
    exists ac, snd (compareSlice cmp a c) = Some ac /\ ac < 0.
Proof.
  intros zero trans a b c ab bc.
  destruct a as [a|], b as [b|], c as [c|];
    try (simpl; intros [= <-] ? [= <-] ?; lia);
    try (simpl; intros; eexists; split; [reflexivity|lia]);
    try (intros _ _ [= <-] ?; lia).
  rewrite !compareSlice_cases.
  intros [= <-] Hab [= <-] Hbc. eexists. split; [reflexivity|].
  destruct (Nat.ltb_spec (length a) (length b)),
    (Nat.ltb_spec (length b) (length c)),
    (Nat.ltb_spec (length b) (length a)),
    (Nat.ltb_spec (length c) (length b)); try lia;
    destruct (Nat.ltb_spec (length a) (length c)); try lia;
    destruct (Nat.ltb_spec (length c) (length a)); try lia.
  apply (firstNonZero_trans a zero trans b c); lia.
Qed.

End compareSlice.

Lemma compareSlice_antisymmetric_witness :
  snd (compareSlice compareInt (Some [1; 2]) (Some [1; 2])) = Some 0 /\
  exists c1 c2,
    snd (compareSlice compareInt (Some [1; 2]) (Some [1; 3])) = Some c1 /\
    snd (compareSlice compareInt (Some [1; 3]) (Some [1; 2])) = Some c2 /\
    Z.sgn c2 = - Z.sgn c1.
Proof.
  destruct (compareSlice_antisymmetric compareInt compareInt_sgn
              (Some [1; 2]) (Some [1; 3])) as [Hr Ha].
  split; [exact Hr|exact Ha].
Defined.

Lemma compareSlice_zero_iff_equal_witness :
  (snd (compareSlice compareInt (Some [1; 2]) (Some [1; 2])) = Some 0
   <-> Some [1; 2] = Some [1; 2]) /\
  (snd (compareSlice compareInt (Some []) None) = Some 0
   <-> Some [] = @None (list Z)).
Proof.
  split; apply (compareSlice_zero_iff_equal compareInt compareInt_zero).
Defined.

Lemma compareSlice_transitive_witness :
  exists ac,
    snd (compareSlice compareInt (Some [1; 2]) (Some [2; 0; 0])) = Some ac /\ ac < 0.
Proof.
  apply (compareSlice_transitive compareInt compareInt_zero compareInt_trans
           (Some [1; 2]) (Some [1; 3]) (Some [2; 0; 0]) (-1) (-1));
    [reflexivity | lia | reflexivity | lia].
Defined.

Section compareMap.
Context {K V : Type} `{Countable K}.
Context (zero : V) (deriveSort : list K -> list K).
Context (cmpKey : K -> K -> Z) (cmpValue : V -> V -> Z).

Lemma compareMap_same_size (m1 m2 : gmap K V) (range1 range2 : list K) :
  size m1 = size m2 ->
  length (deriveSort range1) = length (deriveSort range2) ->
  snd (compareMap zero deriveSort cmpKey cmpValue range1 range2 (Some m1) (Some m2))
  = Some (firstNonZero
            (List.map (verdict zero cmpKey cmpValue m1 m2)
               (zip (deriveSort range1) (deriveSort range2)))).
Proof.
  intros Hs Hl. unfold compareMap.
  rewrite (proj2 (Nat.eqb_eq _ _) Hs). simpl negb. cbv iota zeta.
  rewrite generated_facts.keyLoop_pairs by (rewrite Hl; lia).
  cbv zeta. rewrite drop_0. reflexivity.
Qed.

Lemma verdicts_swap (m1 m2 : gmap K V) :
  (forall k k', Z.sgn (cmpKey k' k) = - Z.sgn (cmpKey k k')) ->
  (forall v v', Z.sgn (cmpValue v' v) = - Z.sgn (cmpValue v v')) ->
  forall ks1 ks2,
    Z.sgn (firstNonZero (List.map (verdict zero cmpKey cmpValue m2 m1) (zip ks2 ks1)))
    = - Z.sgn (firstNonZero (List.map (verdict zero cmpKey cmpValue m1 m2) (zip ks1 ks2))).
Proof.
  intros antiK antiV. induction ks1 as [|k ks1 IH]; intros [|k' ks2];
    try reflexivity.
  change (zip (k' :: ks2) (k :: ks1)) with ((k', k) :: zip ks2 ks1).
  change (zip (k :: ks1) (k' :: ks2)) with ((k, k') :: zip ks1 ks2).
  cbn [List.map firstNonZero].
  assert (Hv : Z.sgn (verdict zero cmpKey cmpValue m2 m1 (k', k))
               = - Z.sgn (verdict zero cmpKey cmpValue m1 m2 (k, k'))).
  { unfold verdict. cbn [fst snd].
    destruct (decide (k = k')) as [->|Hne].
    - rewrite !bool_decide_eq_true_2 by reflexivity. apply antiV.
    - rewrite !bool_decide_eq_false_2 by congruence. apply antiK. }
  specialize (IH ks2).
  destruct (Z.eqb_spec (verdict zero cmpKey cmpValue m1 m2 (k, k')) 0),
    (Z.eqb_spec (verdict zero cmpKey cmpValue m2 m1 (k', k)) 0);
    cbn [negb]; auto; lia.
Qed.

Lemma verdicts_same (m : gmap K V) (ks : list K) :
  (forall v, cmpValue v v = 0) ->
  firstNonZero (List.map (verdict zero cmpKey cmpValue m m) (zip ks ks)) = 0.
Proof.
  intros refl. induction ks as [|k ks IH]; [reflexivity|].
  change (zip (k :: ks) (k :: ks)) with ((k, k) :: zip ks ks).
  cbn [List.map firstNonZero].
  assert (Hv : verdict zero cmpKey cmpValue m m (k, k) = 0).
  { unfold verdict. cbn [fst snd]. rewrite bool_decide_eq_true_2 by reflexivity.
    apply refl. }
  rewrite Hv. exact IH.
Qed.

(** Two ranges over the same map give the same keys after sorting, when
    the sorting does not depend on the order it is given. *)
Lemma sorted_ranges (m : gmap K V) (range range' : list K) :
  (forall l l', l ≡ₚ l' -> deriveSort l = deriveSort l') ->
  keysOf m range -> keysOf m range' ->
  deriveSort range = deriveSort range'.
Proof.
  intros Hsort Hr Hr'. apply Hsort. unfold keysOf in *. now rewrite Hr, Hr'.
Qed.

(** X7 (the function printed for a map type, and the test
    [TestCompareStructs]): when the sorting of the keys only reorders
    them and gives the same slice for every order of the same keys, and
    the comparisons of keys and of values change sign with the order of
    their arguments, then, whatever order each range over a map takes,
    the derived comparison gives 0 for a map against itself, and
    comparing two maps the other way round gives the opposite sign. *)
Theorem compareMap_antisymmetric :
  (forall l l', l ≡ₚ l' -> deriveSort l = deriveSort l') ->
  (forall l, deriveSort l ≡ₚ l) ->
  (forall k k', Z.sgn (cmpKey k' k) = - Z.sgn (cmpKey k k')) ->
  (forall v v', Z.sgn (cmpValue v' v) = - Z.sgn (cmpValue v v')) ->
  forall (this that : option (gmap K V)) (range1 range1' range2 range2' : list K),
    (forall m, this = Some m -> keysOf m range1 /\ keysOf m range1') ->
    (forall m, that = Some m -> keysOf m range2 /\ keysOf m range2') ->
    let cm := compareMap zero deriveSort cmpKey cmpValue in
    snd (cm range1 range1' this this) = Some 0 /\
    exists c1 c2,
      snd (cm range1 range2 this that) = Some c1 /\
      snd (cm range2' range1' that this) = Some c2 /\
      Z.sgn c2 = - Z.sgn c1.
Proof.
  intros Hsort Hperm antiK antiV this that range1 range1' range2 range2' Hr1 Hr2.
  cbv zeta. split.
  - destruct this as [m|]; [|reflexivity].
    destruct (Hr1 m eq_refl) as [Ha Hb].
    rewrite compareMap_same_size
      by (rewrite ?(generated_facts.keysOf_length deriveSort m _ Ha Hperm),
                  ?(generated_facts.keysOf_length deriveSort m _ Hb Hperm);
          reflexivity).
    rewrite (sorted_ranges m range1' range1 Hsort Hb Ha). f_equal.
    apply verdicts_same. intros v. pose proof (antiV v v). lia.
  - destruct this as [m1|], that as [m2|]; try (eexists _, _; repeat split; fail).
    destruct (Hr1 m1 eq_refl) as [Ha Ha']. destruct (Hr2 m2 eq_refl) as [Hb Hb'].
    destruct (Nat.lt_trichotomy (size m1) (size m2)) as [Hs|[Hs|Hs]].
    + exists (-1), 1. unfold compareMap.
      rewrite !(proj2 (Nat.eqb_neq _ _)) by lia. simpl negb. cbv iota.
      rewrite (proj2 (Nat.ltb_lt _ _) Hs), (proj2 (Nat.ltb_ge _ _)) by lia.
      repeat split.
    + rewrite (compareMap_same_size m1 m2 range1 range2 Hs)
        by (rewrite (generated_facts.keysOf_length deriveSort m1 _ Ha Hperm),
                    (generated_facts.keysOf_length deriveSort m2 _ Hb Hperm);
            exact Hs).
      rewrite (compareMap_same_size m2 m1 range2' range1' (eq_sym Hs))
        by (rewrite (generated_facts.keysOf_length deriveSort m1 _ Ha' Hperm),
                    (generated_facts.keysOf_length deriveSort m2 _ Hb' Hperm);
            now symmetry).
      rewrite (sorted_ranges m1 range1' range1 Hsort Ha' Ha).
      rewrite (sorted_ranges m2 range2' range2 Hsort Hb' Hb).
      eexists _, _. split; [reflexivity|]. split; [reflexivity|].
      now apply verdicts_swap.
    + exists 1, (-1). unfold compareMap.
      rewrite !(proj2 (Nat.eqb_neq _ _)) by lia. simpl negb. cbv iota.
      rewrite (proj2 (Nat.ltb_lt _ _) Hs), (proj2 (Nat.ltb_ge _ _)) by lia.
      repeat split.
Qed.

End compareMap.

Lemma sortInts_Permutation (l : list Z) : sortInts l ≡ₚ l.
Proof. apply merge_sort_Permutation. Qed.

(** The sorted slice is the same for every order of the same integers. *)
Lemma sortInts_order (l l' : list Z) : l ≡ₚ l' -> sortInts l = sortInts l'.
Proof.
  intros Hp. unfold sortInts.
  apply (Sorted_unique Z.le); try apply Sorted_merge_sort; try apply _.
  now rewrite !merge_sort_Permutation.
Qed.

Lemma compareMap_antisymmetric_witness :
  let m1 : gmap Z Z := {[ 1 := 10; 3 := 30 ]} in
  let m2 : gmap Z Z := {[ 1 := 10; 2 := 99 ]} in
  let cm := compareMap 0 sortInts compareInt compareInt in
  snd (cm [1; 3] [3; 1] (Some m1) (Some m1)) = Some 0 /\
  exists c1 c2,
    snd (cm [1; 3] [2; 1] (Some m1) (Some m2)) = Some c1 /\
    snd (cm [1; 2] [3; 1] (Some m2) (Some m1)) = Some c2 /\
    Z.sgn c2 = - Z.sgn c1.
Proof.
  apply (compareMap_antisymmetric 0 sortInts compareInt compareInt
           sortInts_order sortInts_Permutation compareInt_sgn compareInt_sgn
           (Some {[ 1 := 10; 3 := 30 ]}) (Some {[ 1 := 10; 2 := 99 ]})
           [1; 3] [3; 1] [2; 1] [1; 2]).
  - intros m [= <-]. unfold keysOf.
    split; vm_compute; first [reflexivity | apply perm_swap].
  - intros m [= <-]. unfold keysOf.
    split; vm_compute; first [reflexivity | apply perm_swap].
Defined.

End order_facts.

(* --------------------------------------------------------------------- *)
(** ** plugin/copyto/copyto.go: errors and layout of [genField]          *)
(* --------------------------------------------------------------------- *)

Module copyto_more_facts.
Import text copyto.

Ltac under t Hu :=
  destruct t; simpl in Hu; try discriminate Hu;
  [injection Hu as ?; subst | subst].

Ltac branches :=
  repeat match goal with
         | |- context [if ?c then _ else _] => destruct c
         end.

Lemma genField_supported (g : gen) (fieldType : types.type)
  (thisField thatField : string) :
  snd (genField g fieldType thisField thatField)
  = (if fieldSupported fieldType then Ok tt
     else Err (Sprintf "unsupported field type %s" [TypeString g fieldType])) /\
  (fieldSupported fieldType = false ->
   printed (genField g fieldType thisField thatField) = []).
Proof.
  unfold fieldSupported.
  destruct (canCopy fieldType) eqn:Hc.
  - rewrite (copyto_facts.genField_canCopy g _ _ _ Hc). simpl.
    split; [reflexivity|discriminate].
  - simpl orb.
    destruct fieldType as [b|e|n e|e|k e|fs|p n u ms|ps rs|e|ms]; simpl in *;
      rewrite ?Hc; simpl;
      try (split; [reflexivity|try discriminate; reflexivity]).
    + destruct (isNamed e && hasCopyToMethod e), (canCopy e);
        (split; [reflexivity|discriminate]).
    + destruct (canCopy e); (split; [reflexivity|discriminate]).
    + destruct u as [b|e|n' e|e|k e|fs|p' n' u' ms'|ps rs|e|ms'']; simpl in *;
        rewrite ?Hc; simpl;
        try (split; [reflexivity|try discriminate; reflexivity]).
      * destruct (isNamed e && hasCopyToMethod e), (canCopy e);
          (split; [reflexivity|discriminate]).
      * destruct (canCopy e); (split; [reflexivity|discriminate]).
      * destruct (existsb _ ms); (split; [reflexivity|discriminate]).
Qed.

(** X8 ([gen.genField] of copyto): the function returns without an error
    exactly for the types that can be copied in one piece and those
    whose underlying type is a pointer, an array, a slice, a map or a
    struct; for every other type (channels, functions, interfaces, the
    untyped nil) it prints nothing and returns the error "unsupported
    field type" with the type. It never panics. *)
Theorem copyto_genField_result (g : gen) (fieldType : types.type)
  (thisField thatField : string) :
  snd (genField g fieldType thisField thatField)
  = (if fieldSupported fieldType then Ok tt
     else Err (Sprintf "unsupported field type %s" [TypeString g fieldType])) /\
  (fieldSupported fieldType = false ->
   printed (genField g fieldType thisField thatField) = []).
Proof. apply genField_supported. Qed.

Lemma rangeLoop_ok (gf : types.type -> string -> string -> Gen unit)
  (elmType : types.type) (this that : string) :
  let inner := gf elmType (prepend this "value")
                 (wrap that ++ "[" ++ prepend this "i" ++ "]") in
  snd inner = Ok tt ->
  rangeLoop gf elmType this that
  = (forLine this :: In :: app (printed inner) [Out; P "}"], Ok tt).
Proof.
  cbv zeta. unfold rangeLoop. intros H.
  destruct (gf elmType _ _) as [out r]. simpl in *. subst r. reflexivity.
Qed.

Lemma rangeLoop_err (gf : types.type -> string -> string -> Gen unit)
  (elmType : types.type) (this that msg : string) :
  let inner := gf elmType (prepend this "value")
                 (wrap that ++ "[" ++ prepend this "i" ++ "]") in
  snd inner = Err msg ->
  rangeLoop gf elmType this that
  = (forLine this :: In :: printed inner, Err msg).
Proof.
  cbv zeta. unfold rangeLoop. intros H.
  destruct (gf elmType _ _) as [out r]. simpl in *. subst r. reflexivity.
Qed.

Lemma canCopy_Array (t : types.type) (n : Z) (elem : types.type) :
  types.Underlying t = types.Array n elem -> canCopy t = canCopy elem.
Proof. intros H. now rewrite copyto_facts.canCopy_unfold, H. Qed.

Lemma fieldSupported_canCopy (t : types.type) :
  fieldSupported t = false -> canCopy t = false.
Proof. unfold fieldSupported. now destruct (canCopy t). Qed.

Lemma genField_Array_loop (g : gen) (fieldType : types.type) (n : Z)
  (elem : types.type) (thisField thatField : string) :
  types.Underlying fieldType = types.Array n elem ->
  canCopy fieldType = false ->
  genField g fieldType thisField thatField
  = (printed (rangeLoop (genField g) elem thisField thatField), Ok tt).
Proof.
  intros Hu Hc.
  destruct fieldType; simpl in Hu; try discriminate Hu.
  - injection Hu as -> ->. simpl in *. now rewrite Hc.
  - subst. simpl in *. now rewrite Hc.
Qed.

(** X9 ([gen.genField] of copyto, the case of an array, which calls
    [genStatement] and drops its error): for an array whose element type
    [genField] has no case for, [genStatement] returns the error
    "unsupported field type", while [genField] reports success; both
    have printed the first line of the loop and stepped in, and nothing
    after it. *)
Theorem array_field_error_dropped (g : gen) (fieldType : types.type) (n : Z)
  (elem : types.type) (thisField thatField : string) :
  types.Underlying fieldType = types.Array n elem ->
  fieldSupported elem = false ->
  genStatement g fieldType thisField thatField
  = ([forLine thisField; In],
     Err (Sprintf "unsupported field type %s" [TypeString g elem])) /\
  genField g fieldType thisField thatField = ([forLine thisField; In], Ok tt).
Proof.
  intros Hu Hs.
  assert (Hc : canCopy fieldType = false).
  { rewrite (canCopy_Array _ _ _ Hu). now apply fieldSupported_canCopy. }
  destruct (genField_supported g elem (prepend thisField "value")
              (wrap thatField ++ "[" ++ prepend thisField "i" ++ "]")) as [Hr Hp].
  rewrite Hs in Hr. specialize (Hp Hs).
  pose proof (rangeLoop_err (genField g) elem thisField thatField _ Hr) as Hl.
  cbv zeta in Hl. rewrite Hp in Hl.
  split.
  - unfold genStatement. rewrite Hc, Hu. exact Hl.
  - rewrite (genField_Array_loop g fieldType n elem _ _ Hu Hc), Hl. reflexivity.
Qed.

Lemma array_field_error_dropped_witness :
  let chans := types.Array 3 (types.Chan (types.Basic (types.Typ types.Int))) in
  genStatement main chans "this.C" "that.C"
  = ([P "for this_i, this_value := range this.C {"; In],
     Err "unsupported field type chan int") /\
  genField main chans "this.C" "that.C"
  = ([P "for this_i, this_value := range this.C {"; In], Ok tt).
Proof.
  exact (array_field_error_dropped main
           (types.Array 3 (types.Chan (types.Basic (types.Typ types.Int)))) 3
           (types.Chan (types.Basic (types.Typ types.Int))) "this.C" "that.C"
           eq_refl eq_refl).
Defined.

Lemma sound_unfold (t : types.type) :
  sound t
  = canCopy t ||
    match types.Underlying t with
    | types.Pointer _ | types.Slice _ | types.Map _ _ | types.Struct _ => true
    | types.Array _ elem => sound elem
    | _ => false
    end.
Proof. destruct t; reflexivity. Qed.

(** A type that is sound gives text that closes what it opens. *)
Lemma genField_closes (g : gen) (t : types.type) :
  sound t = true ->
  forall thisField thatField d,
    snd (genField g t thisField thatField) = Ok tt /\
    closes d (printed (genField g t thisField thatField)) = Some d.
Proof.
  induction t as [t IHs IHa] using copyto_facts.underlying_ind.
  intros Hs a b d. rewrite sound_unfold in Hs.
  destruct (canCopy t) eqn:Hc.
  { rewrite (copyto_facts.genField_canCopy g _ _ _ Hc). auto. }
  simpl in Hs.
  destruct (types.Underlying t) as [k|e|n e|e|k e|fs|p n u ms|ps rs|e|ms] eqn:Hu;
    try discriminate Hs.
  - (* pointer *)
    under t Hu; simpl in *; rewrite ?Hc; simpl; branches; simpl; auto.
  - (* array *)
    rewrite (genField_Array_loop g t n e _ _ Hu Hc).
    destruct (IHa n e eq_refl Hs (prepend a "value")
                (wrap b ++ "[" ++ prepend a "i" ++ "]") (S d)) as [Hr Hcl].
    rewrite (rangeLoop_ok (genField g) e a b Hr). split; [reflexivity|].
    unfold printed, forLine in *. cbn [fst closes].
    rewrite text_more_facts.closes_app, Hcl. reflexivity.
  - (* slice *)
    rewrite (copyto_facts.genField_Slice g t e a b Hu). split; [reflexivity|].
    unfold printed. cbn [fst]. destruct (canCopy e); reflexivity.
  - (* map *)
    under t Hu; simpl in *; rewrite ?Hc; simpl; auto.
  - (* struct *)
    under t Hu; simpl in *; rewrite ?Hc; simpl; branches; simpl; auto.
Qed.

(** A type that has a case but is not sound leaves text open. *)
Lemma genField_open (g : gen) (t : types.type) :
  sound t = false -> fieldSupported t = true ->
  forall thisField thatField d,
    exists k, closes d (printed (genField g t thisField thatField))
              = Some (d + S k)%nat.
Proof.
  induction t as [t IHs IHa] using copyto_facts.underlying_ind.
  intros Hs Hf a b d. rewrite sound_unfold in Hs. unfold fieldSupported in Hf.
  destruct (canCopy t) eqn:Hc; [discriminate Hs|]. simpl in Hs, Hf.
  destruct (types.Underlying t) as [k|e|n e|e|k e|fs|p n u ms|ps rs|e|ms] eqn:Hu;
    try discriminate Hs; try discriminate Hf.
  rewrite (genField_Array_loop g t n e _ _ Hu Hc).
  destruct (fieldSupported e) eqn:He.
  - destruct (IHa n e eq_refl Hs He (prepend a "value")
                (wrap b ++ "[" ++ prepend a "i" ++ "]") (S d)) as [k Hk].
    destruct (genField_supported g e (prepend a "value")
                (wrap b ++ "[" ++ prepend a "i" ++ "]")) as [Hr _].
    rewrite He in Hr.
    rewrite (rangeLoop_ok (genField g) e a b Hr).
    unfold printed, forLine in *. cbn [fst closes].
    rewrite text_more_facts.closes_app, Hk. simpl. exists k. f_equal; lia.
  - destruct (genField_supported g e (prepend a "value")
                (wrap b ++ "[" ++ prepend a "i" ++ "]")) as [Hr Hp].
    rewrite He in Hr. specialize (Hp He).
    rewrite (rangeLoop_err (genField g) e a b _ Hr), Hp.
    exists 0%nat. simpl. f_equal; lia.
Qed.

(** X10 ([gen.genField] of copyto): the function reports success with a
    text that steps out exactly as often as it steps in if and only if
    the type is sound: it can be copied in one piece, or its underlying
    type is a pointer, a slice, a map or a struct, or it is an array of
    a sound type. For an array that ends in a type without a case the
    function reports success with loops left open. *)
Theorem genField_balanced (g : gen) (fieldType : types.type)
  (thisField thatField : string) (depth : nat) :
  (snd (genField g fieldType thisField thatField) = Ok tt /\
   closes depth (printed (genField g fieldType thisField thatField)) = Some depth)
  <-> sound fieldType = true.
Proof.
  split.
  - intros [Hr Hc]. destruct (sound fieldType) eqn:Hs; [reflexivity|].
    destruct (genField_supported g fieldType thisField thatField) as [Hr' _].
    rewrite Hr in Hr'. destruct (fieldSupported fieldType) eqn:Hf; [|discriminate].
    destruct (genField_open g fieldType Hs Hf thisField thatField depth) as [k Hk].
    rewrite Hk in Hc. injection Hc as Hc. lia.
  - intros Hs. now apply genField_closes.
Qed.

End copyto_more_facts.

(* --------------------------------------------------------------------- *)
(** ** The derived copy of a slice writes the destination only           *)
(* --------------------------------------------------------------------- *)

Module copy_more_facts.
Import generated.

Section copySlice.
Context {A : Type} (zero : A).

Lemma elements_copy_other (h : @heap A) (dst src other : slice) :
  array other <> array dst ->
  elements (copy h dst src) other = elements h other.
Proof.
  intros Hne. unfold elements, copy.
  destruct (h !! array dst) as [a|] eqn:Ha; [|reflexivity].
  unfold heap in *. now rewrite list_lookup_insert_ne by auto.
Qed.

Lemma valid_lt (h : @heap A) (s : slice) : valid h s -> (array s < length h)%nat.
Proof. intros (a & Ha & _). unfold heap in *. eapply lookup_lt_Some; eauto. Qed.

(** X11 (the text [genField] of copyto prints for a slice, with the
    builtin [copy]): when source and destination do not share an array,
    the copy writes only the array of the destination. That array is the
    one the destination had, or a new one when the destination was nil
    or too small; every slice of another array, the source among them,
    keeps its elements, and the result does not share the array of the
    source. *)
Theorem copySlice_writes_destination_only (h : @heap A) (s : slice)
  (that : option slice) :
  valid h s ->
  (forall d, that = Some d -> valid h d /\ array d <> array s) ->
  exists h2 d2,
    copySlice zero builtinCopy h (Some s) that = (h2, Some d2) /\
    array d2 <> array s /\
    (forall d, that = Some d ->
               array d2 = array d \/ array d2 = length h /\ (cap d < len s)%nat) /\
    (that = None -> array d2 = length h) /\
    forall other, valid h other -> array other <> array d2 ->
                  elements h2 other = elements h other.
Proof.
  intros Vs Vd. pose proof (valid_lt h s Vs) as Hlt.
  unfold copySlice, builtinCopy.
  assert (fresh :
    (forall d, that = Some d -> (cap d < len s)%nat) ->
    exists h2 d2,
      (let (h0, that0) := make zero h (len s) in (copy h0 that0 s, Some that0))
      = (h2, Some d2) /\
      array d2 <> array s /\
      (forall d, that = Some d ->
                 array d2 = array d \/ array d2 = length h /\ (cap d < len s)%nat) /\
      (that = None -> array d2 = length h) /\
      forall other, valid h other -> array other <> array d2 ->
                    elements h2 other = elements h other).
  { intros Hcap. unfold make. eexists _, _. split; [reflexivity|]. simpl.
    split; [lia|]. split; [intros d Hd; right; split; [reflexivity|eauto]|].
    split; [reflexivity|].
    intros other Vo Hne. rewrite elements_copy_other by exact Hne.
    now apply generated_facts.elements_app. }
  assert (kept : forall d d', that = Some d -> array d' = array d ->
    exists h2 d2,
      (copy h d' s, Some d') = (h2, Some d2) /\
      array d2 <> array s /\
      (forall d, that = Some d ->
                 array d2 = array d \/ array d2 = length h /\ (cap d < len s)%nat) /\
      (that = None -> array d2 = length h) /\
      forall other, valid h other -> array other <> array d2 ->
                    elements h2 other = elements h other).
  { intros d d' Hd Ha. destruct (Vd d Hd) as [_ Hne].
    eexists _, _. split; [reflexivity|]. rewrite Ha.
    split; [exact Hne|]. split; [intros d0 Hd0; left; congruence|].
    split; [congruence|].
    intros other Vo Hno. apply elements_copy_other. congruence. }
  destruct that as [d|]; [|apply fresh; discriminate].
  destruct (Nat.ltb_spec (len d) (len s)).
  - destruct (Nat.leb_spec (len s) (cap d)).
    + apply (kept d); reflexivity.
    + apply fresh. intros d0 [= <-]. lia.
  - destruct (Nat.ltb_spec (len s) (len d)); apply (kept d); reflexivity.
Qed.

End copySlice.

Lemma copySlice_writes_destination_only_witness :
  let h : @heap Z := [[1; 2; 3]; [7; 7]] in
  let s := {| array := 0; start := 0; len := 3; cap := 3 |} in
  let d := {| array := 1; start := 0; len := 2; cap := 2 |} in
  exists h2 d2,
    copySlice 0 builtinCopy h (Some s) (Some d) = (h2, Some d2) /\
    array d2 = 2%nat /\ elements h2 s = [1; 2; 3] /\ elements h2 d = [7; 7].
Proof.
  cbv zeta.
  assert (Vs : valid [[1; 2; 3]; [7; 7]]
                 {| array := 0; start := 0; len := 3; cap := 3 |}).
  { exists [1; 2; 3]. simpl. repeat split; lia. }
  assert (Vd : valid [[1; 2; 3]; [7; 7]]
                 {| array := 1; start := 0; len := 2; cap := 2 |}).
  { exists [7; 7]. simpl. repeat split; lia. }
  destruct (copySlice_writes_destination_only 0 [[1; 2; 3]; [7; 7]]
              {| array := 0; start := 0; len := 3; cap := 3 |}
              (Some {| array := 1; start := 0; len := 2; cap := 2 |}) Vs)
    as (h2 & d2 & E & Hne & Hd & _ & Ho).
  { intros d [= <-]. split; [exact Vd|]. simpl. lia. }
  exists h2, d2. split; [exact E|].
  vm_compute in E. injection E as <- <-.
  repeat split.
Defined.

End copy_more_facts.

(* --------------------------------------------------------------------- *)
(** ** The compare plugin: errors, a panic, and layout                   *)
(* --------------------------------------------------------------------- *)

Module compare_more_facts.
Import text.

(** X12 ([compare.field]): the function gives an expression for every
    type except a struct type that is not named, a function type, a
    channel type and an interface type, for which it returns the error
    "unsupported field type" with the type. It never panics. *)
Theorem compare_field_result (g : compare.compare) (thisField thatField : string)
  (fieldType : types.type) :
  match compare.field g thisField thatField fieldType with
  | Ok _ => compare.fieldSupported fieldType = true
  | Err msg =>
      compare.fieldSupported fieldType = false /\
      msg = Sprintf "unsupported field type %s" [compare.TypeString g fieldType]
  | Panic _ => False
  end.
Proof.
  destruct fieldType as [b|e|n e|e|k e|fs|p n u ms|ps rs|e|ms]; simpl; auto.
  - destruct (bool_decide _); reflexivity.
  - destruct e; simpl; try reflexivity. destruct (existsb _ _); reflexivity.
  - destruct e; simpl; try reflexivity. destruct (bool_decide _); reflexivity.
  - destruct (existsb _ _); reflexivity.
Qed.

(** X13 ([compare.genStatement], the conversion of the underlying type
    of a named type to a struct): for a pointer to a named type that is
    not a struct, [genStatement] panics after the checks for nil, and so
    does [genFunc]; yet [compare.field] accepts a field of that type,
    when the named type has no Compare method, and refers to the
    function derived for it. *)
Theorem pointer_to_named_non_struct_panics (g : compare.compare)
  (pkg name : string) (underlying : types.type)
  (methods : list (string * types.type)) (this that : string) :
  (forall fields, underlying <> types.Struct fields) ->
  let named := types.Named pkg name underlying methods in
  (exists msg,
     compare.genStatement g (types.Pointer named) this that
     = (printed (compare.nilChecks this that), Panic msg)) /\
  (exists msg, snd (compare.genFunc g (types.Pointer named)) = Panic msg) /\
  (compare.hasCompareMethod named = false ->
   forall thisField thatField,
     compare.field g thisField thatField (types.Pointer named)
     = Ok (Sprintf "%s(%s, %s)"
             [compare.GetFuncName g (types.Pointer named); thisField; thatField])).
Proof.
  intros Hn. cbv zeta. split; [|split].
  - destruct underlying; try (eexists; reflexivity). now destruct (Hn fields).
  - destruct underlying; try (eexists; reflexivity). now destruct (Hn fields).
  - intros Hm a b. simpl in *. now rewrite Hm.
Qed.

Lemma pointer_to_named_non_struct_panics_witness :
  let ints := types.Named "main" "Ints"
                (types.Slice (types.Basic (types.Typ types.Int))) [] in
  (exists msg, snd (compare.genFunc compare.main (types.Pointer ints)) = Panic msg) /\
  compare.field compare.main "this.Xs" "that.Xs" (types.Pointer ints)
  = Ok "deriveComparePtrToInts(this.Xs, that.Xs)".
Proof.
  cbv zeta.
  destruct (pointer_to_named_non_struct_panics compare.main "main" "Ints"
              (types.Slice (types.Basic (types.Typ types.Int))) [] "this" "that")
    as (_ & Hp & Hf).
  - intros fields. discriminate.
  - split; [exact Hp|]. exact (Hf eq_refl "this.Xs" "that.Xs").
Defined.

Lemma nilChecks_closes (this that : string) (d : nat) :
  closes d (printed (compare.nilChecks this that)) = Some d.
Proof. reflexivity. Qed.

Lemma genStatement_closes (g : compare.compare) (typ : types.type)
  (this that : string) :
  snd (compare.genStatement g typ this that) = Ok tt ->
  forall d, closes d (printed (compare.genStatement g typ this that)) = Some d.
Proof.
  destruct typ as [b|e|n e|e|k e|fs|p n u ms|ps rs|e|ms];
    unfold compare.genStatement; try (simpl; discriminate).
  - (* basic *) intros _ d. destruct (types.Kind b); reflexivity.
  - (* pointer *)
    destruct e as [b|e|n e|e|k e|fs|p n u ms|ps rs|e|ms]; try (intros _ d; reflexivity).
    destruct u as [b|e|n' e|e|k e|fs|p' n' u' ms'|ps rs|e|ms'']; try (simpl; discriminate).
    set (fields := registry.StructFields (compare.TypesMap g) fs).
    intros Hr d.
    apply text_more_facts.bind_ok_inv in Hr as ([] & _ & Hr & ->).
    rewrite text_more_facts.closes_app, nilChecks_closes.
    apply text_more_facts.bind_ok_inv in Hr as ([] & _ & Hr & ->).
    rewrite text_more_facts.closes_app.
    match goal with
    | |- context [closes d (printed ?m)] =>
        assert (Hrefl : closes d (printed m) = Some d)
          by (destruct (registry.Reflect fields); reflexivity)
    end.
    rewrite Hrefl.
    apply text_more_facts.bind_ok_inv in Hr as ([] & Hr & _ & ->).
    rewrite text_more_facts.closes_app.
    rewrite (text_more_facts.forEach_closes _ _) ; [reflexivity| |exact Hr].
    intros fld d0. cbv beta.
    destruct (compare.fieldOperands g fld this that) as [a b].
    destruct (compare.field g a b (registry.Typ fld)); try (simpl; discriminate).
    reflexivity.
  - (* array *)
    destruct (compare.field g _ _ e); try (simpl; discriminate). reflexivity.
  - (* slice *)
    destruct (compare.field g _ _ e); try (simpl; discriminate). reflexivity.
  - (* map *)
    destruct (compare.field g "thisvalue" "thatvalue" e); try (simpl; discriminate).
    destruct (compare.field g "thiskey" "thatkey" k); try (simpl; discriminate).
    reflexivity.
  - (* named *)
    intros _ d. simpl. destruct (existsb _ ms); reflexivity.
Qed.

(** X14 ([compare.genFunc] with [compare.genStatement]): whenever the
    generator returns without an error, the function it has printed
    steps out exactly as often as it stepped in, and never further: the
    text ends at the depth of indentation it started at. *)
Theorem genFunc_closes (g : compare.compare) (typ : types.type) (depth : nat) :
  snd (compare.genFunc g typ) = Ok tt ->
  closes depth (printed (compare.genFunc g typ)) = Some depth.
Proof.
  unfold compare.genFunc. intros Hr.
  apply text_more_facts.bind_ok_inv in Hr as ([] & _ & Hr & ->).
  apply text_more_facts.bind_ok_inv in Hr as ([] & _ & Hr & ->).
  apply text_more_facts.bind_ok_inv in Hr as ([] & _ & Hr & ->).
  apply text_more_facts.bind_ok_inv in Hr as ([] & Hr & _ & ->).
  repeat (rewrite text_more_facts.closes_app; cbn [printed fst printf emit closes]).
  change (fst (compare.genStatement g typ "this" "that"))
    with (printed (compare.genStatement g typ "this" "that")).
  rewrite (genStatement_closes g typ "this" "that" Hr). reflexivity.
Qed.

Lemma genFunc_closes_witness :
  let t := types.Pointer
             (types.Named "main" "T"
                (types.Struct [("A", types.Basic (types.Typ types.Int64));
                               ("B", types.Pointer (types.Basic (types.Typ types.String)))])
                []) in
  closes 0 (printed (compare.genFunc compare.main t)) = Some 0%nat.
Proof. apply genFunc_closes. reflexivity. Defined.

End compare_more_facts.

(* --------------------------------------------------------------------- *)
(** ** The first equal generator: requests and fields                    *)
(* --------------------------------------------------------------------- *)

Module equal_more_facts.
Import text.

Lemma genFuncFor_header (this : equal.equal) (typ : types.type) :
  exists rest,
    printed (equal.genFuncFor this typ)
    = P "" :: P (Sprintf "func %s(this, that %s) bool {"
                   [equal.funcName this typ; types.TypeString typ (equal.qual this)])
        :: In :: rest.
Proof.
  unfold equal.genFuncFor.
  rewrite !text_more_facts.printed_printf_bind, text_more_facts.printed_emit_bind.
  eauto.
Qed.

(** X15 ([generateEqual], its loop over the calls, with [genFuncFor]):
    when the loop accepts the calls of a package, the types it hands on
    are, in order, those of the calls whose callee is an identifier with
    the prefix deriveEqual; each such call has two arguments of
    identical types, its name is the prefix followed by the label
    [typeName] of the type, and the function [genFuncFor] prints for the
    type is declared under exactly the name of the call. *)
Theorem requests_names (qual : types.Qualifier)
  (calls : list (derive.Node * list types.type)) :
  forall typs,
    equal.requests qual calls = Ok typs ->
    Forall2 (fun call typ =>
               (exists t1, snd call = [typ; t1] /\ types.Identical typ t1 = true) /\
               equal.calleeName call
               = equal.eqFuncPrefix ++ helper.typeName typ qual /\
               exists rest,
                 printed (equal.genFuncFor (equal.newEqual qual equal.eqFuncPrefix) typ)
                 = P "" :: P (Sprintf "func %s(this, that %s) bool {"
                                [equal.calleeName call; types.TypeString typ qual])
                     :: In :: rest)
            (List.filter equal.isRequest calls) typs.
Proof.
  induction calls as [|[Fun Args] calls IH]; intros typs; simpl.
  - intros [= <-]. constructor.
  - unfold equal.isRequest at 1. cbn [fst].
    destruct Fun as [pos Name|X Sel|F As|children]; try (now apply IH).
    destruct (HasPrefix Name equal.eqFuncPrefix) eqn:Hp; cbn [negb];
      [|now apply IH].
    destruct Args as [|t0 [|t1 [|t2 Args]]]; try discriminate.
    cbn [length Nat.eqb negb].
    destruct (types.Identical t0 t1) eqn:Hi; cbn [negb]; [|discriminate].
    destruct (String.eqb_spec (helper.typeName t0 qual)
                (TrimPrefix Name equal.eqFuncPrefix)) as [He|He];
      cbn [negb]; [|discriminate].
    destruct (equal.requests qual calls) as [typs'|msg|msg]; try discriminate.
    intros [= <-]. constructor; [|now apply IH].
    assert (Hn : Name = equal.eqFuncPrefix ++ helper.typeName t0 qual).
    { rewrite He. unfold TrimPrefix. rewrite Hp.
      now apply text_more_facts.HasPrefix_dropPrefix. }
    cbn [snd fst equal.calleeName]. split; [eauto|]. split; [exact Hn|].
    destruct (genFuncFor_header (equal.newEqual qual equal.eqFuncPrefix) t0)
      as [rest Hrest].
    exists rest. rewrite Hrest. unfold equal.funcName. cbn [equal.qual equal.newEqual].
    now rewrite <- Hn.
Qed.

Lemma requests_names_witness :
  let int := types.Basic (types.Typ types.Int) in
  let calls := [(derive.Ident 7%nat "deriveEqualSliceOfint",
                 [types.Slice int; types.Slice int]);
                (derive.Ident 9%nat "len", [types.Slice int])] in
  equal.requests (types.RelativeTo "main") calls = Ok [types.Slice int] /\
  Forall2 (fun call typ =>
             (exists t1, snd call = [typ; t1] /\ types.Identical typ t1 = true) /\
             equal.calleeName call
             = equal.eqFuncPrefix ++ helper.typeName typ (types.RelativeTo "main") /\
             exists rest,
               printed (equal.genFuncFor
                          (equal.newEqual (types.RelativeTo "main") equal.eqFuncPrefix) typ)
               = P "" :: P (Sprintf "func %s(this, that %s) bool {"
                              [equal.calleeName call;
                               types.TypeString typ (types.RelativeTo "main")])
                   :: In :: rest)
          (List.filter equal.isRequest calls) [types.Slice int].
Proof.
  cbv zeta. split; [reflexivity|].
  apply (requests_names (types.RelativeTo "main")). reflexivity.
Defined.

(** X16 ([equal.field]): the function gives an expression exactly for
    the types compared with [==], for arrays, slices, maps and named
    types, for pointers to named types, and for pointers to a type it
    gives an expression for; for every other type (a struct that is not
    named and cannot be compared with [==], a channel, a function, an
    interface, the untyped nil, and pointers to these) it returns an
    error. It never panics. *)
Theorem equal_field_result (this : equal.equal) (fieldType : types.type) :
  forall thisField thatField,
    match equal.field this thisField thatField fieldType with
    | Ok _ => equal.fieldSupported fieldType = true
    | Err _ => equal.fieldSupported fieldType = false
    | Panic _ => False
    end.
Proof.
  induction fieldType as [b|e IH|n e IH|e IH|k IHk e IHe|fs|p n u IH ms|ps rs|e IH|ms];
    intros a b'.
  2:{ (* pointer *)
    assert (E : equal.field this a b' (types.Pointer e)
                = match e with
                  | types.Named _ _ _ _ => Ok (Sprintf "%s.Equal(%s)" [a; b'])
                  | _ =>
                      match equal.field this ("*" ++ a) ("*" ++ b') e with
                      | Ok eqStr =>
                          Ok (Sprintf
                                "((%s == nil && %s == nil) || (%s != nil && %s != nil && %s))"
                                [a; b'; a; b'; eqStr])
                      | Err msg => Err msg
                      | Panic msg => Panic msg
                      end
                  end) by (destruct e; reflexivity).
    assert (S : equal.fieldSupported (types.Pointer e)
                = match e with
                  | types.Named _ _ _ _ => true
                  | _ => equal.fieldSupported e
                  end) by (destruct e; reflexivity).
    rewrite E, S. specialize (IH ("*" ++ a) ("*" ++ b')).
    destruct e; try reflexivity;
      destruct (equal.field this ("*" ++ a) ("*" ++ b') _); auto. }
  all: simpl;
    try (destruct (negb _); reflexivity);
    try (destruct (equal.isComparable _); reflexivity);
    try (destruct (forallb _ _); reflexivity);
    try reflexivity.
  - destruct e; simpl; try reflexivity. destruct (bool_decide _); reflexivity.
  - destruct (match u with types.Basic _ => _ | _ => _ end); reflexivity.
Qed.

End equal_more_facts.

(* --------------------------------------------------------------------- *)
(** ** The max plugin                                                    *)
(* --------------------------------------------------------------------- *)

Module max_facts.

Lemma genTwo_ok (this : max.gen) (typ typ2 : types.type) :
  snd (max.genTwo this typ typ2) = text.Ok tt.
Proof. destruct typ; reflexivity. Qed.

Lemma genSlice_ok (this : max.gen) (etyp typ2 : types.type) :
  snd (max.genSlice this etyp typ2) = text.Ok tt.
Proof. destruct etyp; reflexivity. Qed.

Section Add.
Context (AssignableTo : types.type -> types.type -> bool).

(** X17 ([gen.Add] and [gen.Generate] of max): whatever [Add] gets a
    name for, [Generate] generates without an error. [Add] gets as far
    as the registry only for two types, which are identical, or of which
    the first is a slice whose elements the second can be assigned to;
    and it hands both types to the registry. *)
Theorem max_Add_then_Generate {R : Type}
  (SetFuncName : string -> list types.type -> R -> text.result string * R)
  (this : max.gen) (name : string) (typs : list types.type) (r : R) (reserved : string) :
  fst (max.Add AssignableTo SetFuncName this name typs r) = text.Ok reserved ->
  snd (max.Generate this typs) = text.Ok tt /\
  exists typs0 typs1,
    typs = [typs0; typs1] /\
    max.Add AssignableTo SetFuncName this name typs r
    = SetFuncName name [typs0; typs1] r /\
    (types.Identical typs0 typs1 = true \/
     exists elem, typs0 = types.Slice elem /\ AssignableTo typs1 elem = true).
Proof.
  unfold max.Add, max.Generate.
  destruct typs as [|t0 [|t1 [|t2 typs]]]; try discriminate.
  cbn [length Nat.eqb negb].
  destruct (types.Identical t0 t1) eqn:Hi.
  - intros _. split; [apply genTwo_ok|]. exists t0, t1. auto.
  - destruct t0; try discriminate.
    destruct (AssignableTo t1 t0) eqn:Ha; [|discriminate].
    intros _. split; [apply genSlice_ok|]. exists (types.Slice t0), t1.
    cbn [negb]. repeat split. right. eauto.
Qed.

End Add.

Lemma max_Add_then_Generate_witness :
  let int := types.Basic (types.Typ types.Int) in
  snd (max.Generate max.main [types.Slice int; int]) = text.Ok tt.
Proof.
  cbv zeta.
  refine (proj1 (max_Add_then_Generate (fun _ _ => true)
                   (fun name _ (r : unit) => (text.Ok name, r))
                   max.main "deriveMax"
                   [types.Slice (types.Basic (types.Typ types.Int));
                    types.Basic (types.Typ types.Int)] tt "deriveMax" _)).
  reflexivity.
Defined.

Section derived.
Context {T : Type} (greater : T -> T -> bool).

Lemma rangeList_fold (list_ : list T) :
  forall rest i m,
    drop i list_ = rest ->
    max.rangeList greater list_ rest i m
    = fold_left (fun m v => if greater v m then v else m) rest m.
Proof.
  induction rest as [|v rest IH]; intros i m Hd; simpl; [reflexivity|].
  assert (Hv : list_ !! i = Some v).
  { rewrite <- (Nat.add_0_r i), <- lookup_drop, Hd. reflexivity. }
  rewrite Hv. apply IH.
  rewrite (drop_S _ _ _ Hv) in Hd. now injection Hd.
Qed.

Lemma deriveMax_fold (list_ : list T) (def : T) :
  max.deriveMax greater list_ def
  = match list_ with
    | [] => def
    | m :: rest => fold_left (fun m v => if greater v m then v else m) rest m
    end.
Proof.
  destruct list_ as [|m rest]; [reflexivity|].
  unfold max.deriveMax. cbn [length Nat.eqb].
  apply rangeList_fold. reflexivity.
Qed.

End derived.

Lemma fold_max (rest : list Z) :
  forall m,
    let r := fold_left (fun m v => if Z.gtb v m then v else m) rest m in
    (r = m \/ List.In r rest) /\ m <= r /\ forall x, List.In x rest -> x <= r.
Proof.
  induction rest as [|v rest IH]; intros m; cbv zeta; simpl.
  - split; [now left|]. split; [lia|]. intros x [].
  - destruct (IH (if Z.gtb v m then v else m)) as (Hin & Hle & Hall).
    cbv zeta in *.
    set (r := fold_left _ rest _) in *.
    destruct (Z.gtb_spec v m) as [Hgt|Hgt].
    + split; [destruct Hin; auto|]. split; [lia|].
      intros x [<-|Hx]; auto.
    + split; [destruct Hin; auto|]. split; [lia|].
      intros x [<-|Hx]; auto. lia.
Qed.

(** X18 ([gen.genSlice] of max): the function printed for a slice is
    [maxSliceText], and for a slice of integers, where the test is
    [v > m], that function returns the default for an empty slice, and
    otherwise an element of the slice that no element exceeds. *)
Theorem deriveMax_is_maximum (this : max.gen) (etyp typ2 : types.type) :
  max.genSlice this etyp typ2
  = (max.maxSliceText
       (text.Sprintf "func %s(list []%s, def %s) %s {"
          [max.GetFuncName this [types.Slice etyp; typ2]; max.TypeString this etyp;
           max.TypeString this etyp; max.TypeString this etyp])
       (match etyp with
        | types.Basic _ => "if v > m {"
        | _ => text.Sprintf "if %s(v, m) > 0 {" [max.compare this etyp]
        end),
     text.Ok tt) /\
  forall (list_ : list Z) (def : Z),
    max.deriveMax Z.gtb [] def = def /\
    (list_ <> [] ->
     List.In (max.deriveMax Z.gtb list_ def) list_ /\
     forall x, List.In x list_ -> x <= max.deriveMax Z.gtb list_ def).
Proof.
  split.
  - unfold max.genSlice. destruct etyp; reflexivity.
  - intros list_ def. split; [reflexivity|].
    intros Hne. rewrite deriveMax_fold.
    destruct list_ as [|m rest]; [contradiction|].
    destruct (fold_max rest m) as (Hin & Hle & Hall). cbv zeta in *.
    split.
    + destruct Hin as [->|Hin]; [now left|now right].
    + intros x [<-|Hx]; auto.
Qed.

End max_facts.

(* --------------------------------------------------------------------- *)
(** ** The compose plugin                                                *)
(* --------------------------------------------------------------------- *)

Module compose_facts.
Import text.

Lemma vars_length (prefix : string) (num : nat) : length (compose.vars prefix num) = num.
Proof. unfold compose.vars. now rewrite length_map, length_seq. Qed.

Lemma append_inj_l (p s1 s2 : string) : p ++ s1 = p ++ s2 -> s1 = s2.
Proof. induction p; simpl; intros H; [exact H|]. injection H as H. auto. Qed.

(** X19 ([vars]): the names are as many as asked for, the name at index
    [i] is the prefix followed by [i] in decimal, and no two of them are
    the same, so that they can stand side by side in a parameter
    list. *)
Theorem vars_distinct (prefix : string) (num : nat) :
  length (compose.vars prefix num) = num /\
  NoDup (compose.vars prefix num) /\
  forall i, (i < num)%nat ->
            compose.vars prefix num !! i = Some (prefix ++ types.Itoa (Z.of_nat i)).
Proof.
  split; [apply vars_length|]. split.
  - unfold compose.vars. apply NoDup_fmap_2; [|apply NoDup_seq].
    intros i j E. apply append_inj_l, helper_facts.Itoa_inj in E. lia.
  - intros i Hi. unfold compose.vars.
    rewrite list_lookup_fmap, lookup_seq_lt by exact Hi. reflexivity.
Qed.

Lemma zip_spec (ss : list string) :
  forall rr,
    compose.zip ss rr
    = if Nat.leb (length ss) (length rr)
      then Ok (zip_with (fun s r => s ++ " " ++ r) ss rr)
      else Panic "index out of range".
Proof.
  induction ss as [|s ss IH]; intros [|r rr]; simpl; try reflexivity.
  rewrite IH. destruct (Nat.leb (length ss) (length rr)); reflexivity.
Qed.

(** X20 ([zip]): the function pairs the two lists index by index when
    the second is at least as long as the first, and what the second has
    beyond that is ignored; when the second is shorter it panics with an
    index out of range. The result is as long as the first list; and the
    call [genError] makes, with the variables made for a list of types,
    does not panic. *)
Theorem zip_bounds (ss rr : list string) :
  compose.zip ss rr
  = (if Nat.leb (length ss) (length rr)
     then Ok (zip_with (fun s r => s ++ " " ++ r) ss rr)
     else Panic "index out of range") /\
  (forall qq, compose.zip ss rr = Ok qq -> length qq = length ss) /\
  (forall prefix, exists qq, compose.zip (compose.vars prefix (length rr)) rr = Ok qq).
Proof.
  split; [apply zip_spec|]. split.
  - intros qq. rewrite zip_spec.
    destruct (Nat.leb_spec (length ss) (length rr)); [|discriminate].
    intros [= <-]. rewrite length_zip_with. lia.
  - intros prefix. rewrite zip_spec, vars_length, Nat.leb_refl. eauto.
Qed.

Section gen.
Context (IsError : types.type -> bool).
Context (AssignableTo : types.type -> types.type -> bool).
Context (Zero : types.type -> string).

Lemma last_None_nil {A} (l : list A) : last l = None -> l = [].
Proof. intros H. now apply last_None in H. Qed.

Lemma forallb_combine (bs ps : list types.type) :
  length ps = length bs ->
  (forallb (fun p => AssignableTo (fst p) (snd p)) (combine bs ps) = true
   <-> Forall2 (fun b b2 => AssignableTo b b2 = true) bs ps).
Proof.
  revert ps. induction bs as [|b bs IH]; intros [|p ps] Hl; simpl in *;
    try discriminate.
  - split; [constructor|reflexivity].
  - injection Hl as Hl. rewrite andb_true_iff, (IH ps Hl). split.
    + intros [H1 H2]. now constructor.
    + intros H. inversion H; subst. auto.
Qed.

Lemma errorType_cases (g : compose.gen) (name : string)
  (params results params2 results2 : list types.type) :
  compose.errorType IsError AssignableTo g name
    [types.Signature params results; types.Signature params2 results2]
  = match last results with
    | None =>
        Err (Sprintf "%s, the first function, %s, does not return any parameters"
               [name; types.show (types.Signature params results)])
    | Some errType =>
        if negb (IsError errType) then
          Err (Sprintf "%s, the first function's last result, %s, is not of type error"
                 [name; types.show errType])
        else if negb (Nat.eqb (length params2) (length (removelast results))) then
          Err (Sprintf
                 "%s, the second function's (%s) number of input parameters do not match the first function's (%s) number of output parameters"
                 [name; types.show (types.Signature params2 results2);
                  types.show (types.Signature params results)])
        else if negb (forallb (fun p => AssignableTo (fst p) (snd p))
                        (combine (removelast results) params2)) then
          Err (Sprintf
                 "%s, the second function's (%s) input parameters types do not match the first function's (%s) output parameters types"
                 [name; types.show (types.Signature params2 results2);
                  types.show (types.Signature params results)])
        else
          match last results2 with
          | None => Panic compose.nilDereference
          | Some _ => Ok (params, removelast results, removelast results2)
          end
    end.
Proof.
  unfold compose.errorType. cbn [length Nat.eqb negb].
  destruct results as [|r results].
  - reflexivity.
  - cbn [length Nat.eqb].
    destruct (last (r :: results)) as [errType|] eqn:Hl.
    2:{ apply last_None_nil in Hl. discriminate. }
    destruct (IsError errType) eqn:He; cbn [negb]; [|reflexivity].
    destruct (Nat.eqb (length params2) _); cbn [negb]; [|reflexivity].
    destruct (forallb _ _); cbn [negb]; [|reflexivity].
    destruct (last results2); reflexivity.
Qed.

(** X21 ([gen.errorType] of compose): two function types are accepted
    exactly when the first has a last result that is an error, the
    second takes as many parameters as the first has results before the
    error, each of those results can be assigned to its parameter, and
    the second has a result at all; what is returned then is the
    parameters of the first, its results without the last, and the
    results of the second without the last. The last result of the
    second function is not required to be an error: the function tests
    the last result of the first a second time instead. *)
Theorem errorType_accepts (g : compose.gen) (name : string)
  (params results params2 results2 : list types.type)
  (abc : list types.type * list types.type * list types.type) :
  compose.errorType IsError AssignableTo g name
    [types.Signature params results; types.Signature params2 results2] = Ok abc
  <-> compose.composable IsError AssignableTo params results params2 results2 /\
      abc = (params, removelast results, removelast results2).
Proof.
  rewrite errorType_cases. unfold compose.composable. split.
  - destruct (last results) as [errType|] eqn:Hl; [|discriminate].
    destruct (IsError errType) eqn:He; cbn [negb]; [|discriminate].
    destruct (Nat.eqb_spec (length params2) (length (removelast results)))
      as [Hn|Hn]; cbn [negb]; [|discriminate].
    destruct (forallb _ _) eqn:Hf; cbn [negb]; [|discriminate].
    destruct (last results2) eqn:Hl2; [|discriminate].
    intros [= <-]. repeat split; eauto.
    + now apply forallb_combine.
    + intros ->. discriminate.
  - intros (((errType & -> & He) & Hn & Hf & Hr) & ->).
    rewrite He, Hn, Nat.eqb_refl. cbn [negb].
    rewrite (proj2 (forallb_combine _ _ Hn) Hf). cbn [negb].
    destruct (last results2) eqn:Hl2; [reflexivity|].
    apply last_None_nil in Hl2. contradiction.
Qed.

(** X22 ([gen.errorType] and [gen.Add] of compose, for a second function
    without results): when the first function passes all its checks and
    the second function has matching parameters but returns nothing,
    [errorType] does not return an error: it panics, dereferencing the
    nil tuple of results, and [Add] with it, leaving the registry as it
    was. *)
Theorem errorType_second_without_results (g : compose.gen) (name : string)
  (params results params2 : list types.type) (errType : types.type) :
  last results = Some errType -> IsError errType = true ->
  length params2 = length (removelast results) ->
  Forall2 (fun b b2 => AssignableTo b b2 = true) (removelast results) params2 ->
  compose.errorType IsError AssignableTo g name
    [types.Signature params results; types.Signature params2 []]
  = Panic "invalid memory address or nil pointer dereference" /\
  forall (R : Type) SetFuncName (r : R),
    compose.Add IsError AssignableTo SetFuncName g name
      [types.Signature params results; types.Signature params2 []] r
    = (Panic "invalid memory address or nil pointer dereference", r).
Proof.
  intros Hl He Hn Hf.
  assert (E : compose.errorType IsError AssignableTo g name
                [types.Signature params results; types.Signature params2 []]
              = Panic compose.nilDereference).
  { rewrite errorType_cases, Hl, He, Hn, Nat.eqb_refl. cbn [negb].
    now rewrite (proj2 (forallb_combine _ _ Hn) Hf). }
  split; [exact E|].
  intros R SetFuncName r. unfold compose.Add. cbn [length Nat.eqb negb].
  now rewrite E.
Qed.

Lemma errorType_name (g : compose.gen) (name name' : string)
  (typs : list types.type) abc :
  compose.errorType IsError AssignableTo g name typs = Ok abc ->
  compose.errorType IsError AssignableTo g name' typs = Ok abc.
Proof.
  destruct typs as [|t0 [|t1 [|t2 typs]]]; try discriminate.
  destruct t0; try discriminate. destruct t1.
  all: try (unfold compose.errorType; cbn [length Nat.eqb negb];
            destruct (Nat.eqb (length results) 0); try discriminate;
            destruct (last results); try discriminate;
            destruct (IsError _); discriminate).
  rewrite !errorType_cases.
  destruct (last results); [|discriminate].
  destruct (IsError _); cbn [negb]; [|discriminate].
  destruct (Nat.eqb _ _); cbn [negb]; [|discriminate].
  destruct (forallb _ _); cbn [negb]; [|discriminate].
  auto.
Qed.

Lemma genError_ok (g : compose.gen) (typs : list types.type) abc (d : nat) :
  compose.errorType IsError AssignableTo g (compose.GetFuncName g typs) typs = Ok abc ->
  snd (compose.genError IsError AssignableTo Zero g typs) = Ok tt /\
  closes d (printed (compose.genError IsError AssignableTo Zero g typs)) = Some d.
Proof.
  intros E. unfold compose.genError. rewrite E.
  destruct abc as [[as_ bs] cs]. cbn [lift bind].
  destruct (Nat.ltb 0 (length (compose.typeStrings g as_))).
  - rewrite zip_spec, vars_length, Nat.leb_refl. split; reflexivity.
  - split; reflexivity.
Qed.

(** X23 ([gen.Add] and [gen.Generate] of compose): whatever [Add] gets a
    name for, [Generate] generates without an error and without a panic,
    and the function it prints ends at the depth of indentation it
    started at; the name under which [errorType] reports its errors
    plays no part in what it accepts. *)
Theorem compose_Add_then_Generate {R : Type}
  (SetFuncName : string -> list types.type -> R -> result string * R)
  (g : compose.gen) (name : string) (typs : list types.type) (r : R)
  (reserved : string) (depth : nat) :
  fst (compose.Add IsError AssignableTo SetFuncName g name typs r) = Ok reserved ->
  snd (compose.Generate IsError AssignableTo Zero g typs) = Ok tt /\
  closes depth (printed (compose.Generate IsError AssignableTo Zero g typs))
  = Some depth.
Proof.
  unfold compose.Add, compose.Generate.
  destruct (negb (Nat.eqb (length typs) 2)); [discriminate|].
  destruct typs as [|t0 typs]; [discriminate|].
  destruct t0; try discriminate.
  destruct (compose.errorType IsError AssignableTo g name _) as [abc| |] eqn:E;
    try discriminate.
  intros _. apply (genError_ok g _ abc).
  now apply (errorType_name g name).
Qed.

End gen.

Lemma errorType_accepts_witness :
  let int := types.Basic (types.Typ types.Int) in
  let str := types.Basic (types.Typ types.String) in
  compose.errorType compose.isError (fun _ _ => true) compose.main "deriveCompose"
    [types.Signature [] [int; compose.error]; types.Signature [int] [str; int]]
  = Ok ([], [int], [str]).
Proof.
  cbv zeta. apply errorType_accepts. vm_compute.
  repeat split; eauto. discriminate.
Defined.

Lemma errorType_second_without_results_witness :
  compose.errorType compose.isError (fun _ _ => true) compose.main "deriveCompose"
    [types.Signature [] [compose.error]; types.Signature [] []]
  = Panic "invalid memory address or nil pointer dereference".
Proof.
  refine (proj1 (errorType_second_without_results compose.isError (fun _ _ => true)
                   compose.main "deriveCompose" [] [compose.error] [] compose.error
                   _ _ _ _));
    [reflexivity|reflexivity|reflexivity|constructor].
Defined.

Lemma compose_Add_then_Generate_witness :
  let int := types.Basic (types.Typ types.Int) in
  let str := types.Basic (types.Typ types.String) in
  let typs := [types.Signature [str] [int; compose.error];
               types.Signature [int] [str; compose.error]] in
  snd (compose.Generate compose.isError (fun _ _ => true) (fun _ => "nil")
         compose.main typs) = Ok tt /\
  closes 0 (printed (compose.Generate compose.isError (fun _ _ => true)
                       (fun _ => "nil") compose.main typs))
  = Some 0%nat.
Proof.
  cbv zeta.
  refine (compose_Add_then_Generate compose.isError (fun _ _ => true) (fun _ => "nil")
            (fun name _ (r : unit) => (Ok name, r)) compose.main "deriveCompose" _ tt
            "deriveCompose" 0 _).
  reflexivity.
Defined.

End compose_facts.

(* --------------------------------------------------------------------- *)
(** ** The gostring plugin                                               *)
(* --------------------------------------------------------------------- *)

Module gostring_facts.
Import text.

Lemma gostring_genField_supported (g : gostring.gen) (fieldType : types.type)
  (this : string) :
  (gostring.fieldSupported fieldType = true ->
   snd (gostring.genField g fieldType this) = Ok tt) /\
  (gostring.fieldSupported fieldType = false ->
   gostring.genField g fieldType this
   = ([], Err (Sprintf "unsupported field type %s" [types.show fieldType]))).
Proof.
  unfold gostring.fieldSupported, gostring.genField.
  destruct (types.Underlying fieldType) as [b|e|n e|e|k e|fs|p n u ms|ps rs|e|ms];
    split; try discriminate; try reflexivity; intros _; destruct e; reflexivity.
Qed.

(** X24 ([gen.genStatement] of gostring): the function returns without
    an error exactly for a type whose underlying type is basic, and for
    a pointer, unless the pointer is to a named struct that has a
    private field or a field of a type [genField] has no case for. A
    struct, a slice, an array or a map as such is an unsupported root
    type. It never panics. *)
Theorem gostring_genStatement_result (g : gostring.gen) (typ : types.type)
  (this : string) :
  match snd (gostring.genStatement g typ this) with
  | Ok _ => gostring.rootSupported g typ = true
  | Err _ => gostring.rootSupported g typ = false
  | Panic _ => False
  end.
Proof.
  unfold gostring.genStatement, gostring.rootSupported.
  destruct (types.Underlying typ) as [b|reftyp|n e|e|k e|fs|p n u ms|ps rs|e|ms];
    try reflexivity.
  unfold gostring.W, printf. rewrite !text_more_facts.snd_after.
  rewrite text_more_facts.snd_then by reflexivity.
  destruct (types.Underlying reftyp) as [b|e|n e|e|k e|strct|p n u ms|ps rs|e|ms];
    try reflexivity.
  destruct reftyp as [b|e|n e|e|k e|fs|p n u ms|ps rs|e|ms]; try reflexivity.
  set (fields := gostring.Fields g strct _).
  destruct (Nat.eqb_spec (length (registry.Fields fields)) 0) as [Hz|Hz].
  { destruct (registry.Fields fields); [reflexivity|discriminate]. }
  rewrite text_more_facts.snd_after, text_more_facts.snd_then by reflexivity.
  set (f := fun field : registry.Field => _).
  assert (Hf : forall x,
    match snd (f x) with
    | Ok _ => negb (registry.Private x)
              && gostring.fieldSupported (registry.Typ x) = true
    | Err _ => negb (registry.Private x)
               && gostring.fieldSupported (registry.Typ x) = false
    | Panic _ => False
    end).
  { intros x. unfold f. destruct (registry.Private x); [reflexivity|].
    destruct (gostring.fieldSupported (registry.Typ x)) eqn:Hs.
    - rewrite (proj1 (gostring_genField_supported g _ _) Hs). reflexivity.
    - rewrite (proj2 (gostring_genField_supported g _ _) Hs). reflexivity. }
  clear Hz. induction (registry.Fields fields) as [|x l IH]; [reflexivity|].
  cbn [forEach forallb]. pose proof (Hf x) as Hx.
  destruct (f x) as [out [[]|msg|msg]]; cbn [snd bind] in *.
  - rewrite Hx. destruct (forEach l f) as [out' r]. exact IH.
  - now rewrite Hx.
  - contradiction.
Qed.

(** X25 ([gen.genStatement] of gostring, the pointers it accepts without
    generating for them): for a pointer to a type that is not a struct
    and that [genField] has no case for, such as a map, the error of
    [genField] is dropped; the function reports success, and the text
    printed allocates the value and returns it without its contents. For
    a pointer to a struct type that is not named the function reports
    success with an empty branch. *)
Theorem pointer_roots_accepted_without_code (g : gostring.gen)
  (typ reftyp : types.type) (this : string) :
  types.Underlying typ = types.Pointer reftyp ->
  let head := app [P (Sprintf "if %s == nil {" [this]); In]
                  (app (printed (gostring.W g "return nil" []))
                       [Out; P "} else {"; In]) in
  ((forall fields, types.Underlying reftyp <> types.Struct fields) ->
   gostring.fieldSupported reftyp = false ->
   gostring.genStatement g typ this
   = (app head
        (app (printed (gostring.W g "%s := new(%s)" [this; gostring.TypeString g reftyp]))
             (app (printed (gostring.W g "return %s" [this])) [Out; P "}"])),
      Ok tt)) /\
  (forall fields, reftyp = types.Struct fields ->
   gostring.genStatement g typ this = (app head [Out; P "}"], Ok tt)).
Proof.
  intros Hu. cbv zeta. unfold gostring.genStatement. rewrite Hu. split.
  - intros Hn Hs.
    rewrite (proj2 (gostring_genField_supported g reftyp ("*" ++ this)) Hs).
    destruct (types.Underlying reftyp) as [b|e|n e|e|k e|strct|p n u ms|ps rs|e|ms];
      try reflexivity.
    now destruct (Hn strct).
  - intros fields ->. reflexivity.
Qed.

Lemma pointer_roots_accepted_without_code_witness :
  let m := types.Map (types.Basic (types.Typ types.String))
             (types.Basic (types.Typ types.Int)) in
  gostring.genStatement gostring.main (types.Pointer m) "this"
  = ([P "if this == nil {"; In;
        P ("fmt.Fprintf(buf, " ++ quote ++ "return nil\n" ++ quote ++ ")"); Out;
      P "} else {"; In;
        P ("fmt.Fprintf(buf, " ++ quote ++ "this := new(map[string]int)\n" ++ quote ++ ")");
        P ("fmt.Fprintf(buf, " ++ quote ++ "return this\n" ++ quote ++ ")"); Out;
      P "}"], Ok tt).
Proof.
  cbv zeta.
  refine (proj1 (pointer_roots_accepted_without_code gostring.main
                   (types.Pointer (types.Map (types.Basic (types.Typ types.String))
                                     (types.Basic (types.Typ types.Int))))
                   (types.Map (types.Basic (types.Typ types.String))
                      (types.Basic (types.Typ types.Int))) "this" eq_refl)
            _ eq_refl).
  intros fields. discriminate.
Defined.

End gostring_facts.

(* --------------------------------------------------------------------- *)
(** ** helper.go and the command, once more                              *)
(* --------------------------------------------------------------------- *)

Module label_facts.
Import helper.

Lemma typeName_injective_on_basic_witness :
  let int := types.Basic (types.Typ types.Int) in
  let qual := types.RelativeTo "main" in
  typeName (types.Slice (types.Array 2 int)) qual = "SliceOfArray2Ofint" /\
  typeName (types.Array 2 (types.Slice int)) qual = "Array2OfSliceOfint" /\
  (typeName (types.Slice (types.Array 2 int)) qual
   = typeName (types.Array 2 (types.Slice int)) qual ->
   types.Slice (types.Array 2 int) = types.Array 2 (types.Slice int)).
Proof.
  cbv zeta. split; [reflexivity|]. split; [reflexivity|].
  apply (helper_facts.typeName_injective_on_basic (types.RelativeTo "main"));
    reflexivity.
Defined.

End label_facts.

Module loop_facts.
Import driver.

Lemma loop_terminates_witness :
  exists fuel,
    snd (run fuel (fun i => leaves (repeat "deriveEqual(a, b)" (2 - i)))) = ExitOK.
Proof.
  apply (driver_facts.loop_terminates
           (fun i => leaves (repeat "deriveEqual(a, b)" (2 - i)))).
  - intros i. repeat split.
  - intros i. simpl. rewrite !repeat_length.
    destruct i as [|[|i]]; simpl; [left; lia|left; lia|right; reflexivity].
Defined.

End loop_facts.

(* --------------------------------------------------------------------- *)
(** ** plugin/copyto/copyto.go: the types [genStatement] refuses         *)
(* --------------------------------------------------------------------- *)

Module copyto_root_facts.
Import text copyto.

Lemma fieldError_bind {A B} (g : gen) (m : Gen A) (k : A -> Gen B) :
  fieldError g (snd m) -> (forall a, fieldError g (snd (k a))) ->
  fieldError g (snd (bind m k)).
Proof.
  destruct m as [out [a|msg|msg]]; simpl; auto.
  intros _ Hk. specialize (Hk a). now destruct (k a).
Qed.

Lemma fieldError_forEach {A} (g : gen) (f : A -> Gen unit) (l : list A) :
  (forall x, fieldError g (snd (f x))) -> fieldError g (snd (forEach l f)).
Proof.
  intros Hf. induction l as [|x l IH]; simpl; [exact I|].
  apply fieldError_bind; auto.
Qed.

Lemma fieldError_genField (g : gen) (t : types.type) (a b : string) :
  fieldError g (snd (genField g t a b)).
Proof.
  destruct (copyto_more_facts.genField_supported g t a b) as [-> _].
  destruct (fieldSupported t); simpl; eauto.
Qed.

Ltac steps g :=
  repeat first
    [ apply fieldError_genField
    | exact I
    | apply fieldError_bind; [|intros ?]
    | apply fieldError_forEach; intros ?
    | match goal with
      | |- fieldError _ (snd (if ?c then _ else _)) => destruct c
      | |- fieldError _ (snd (let (_, _) := ?p in _)) => destruct p
      end ].

(** X28 ([gen.genStatement] of copyto): the error "unsupported copyto
    type" is returned, with nothing printed, exactly for the types the
    function has no case for: those that cannot be copied in one piece
    and are not a slice, an array, a map or a pointer, and the pointers
    to a struct type that is not named; a struct passed by value that
    holds a slice is one of them. For every other type the function
    never panics, and the only error it can return is the one of
    [genField], "unsupported field type". *)
Theorem genStatement_roots (g : gen) (typ : types.type) (this that : string) :
  (rootSupported typ = false ->
   genStatement g typ this that
   = ([], Err (Sprintf "unsupported copyto type: %s" [TypeString g typ]))) /\
  (rootSupported typ = true ->
   fieldError g (snd (genStatement g typ this that))).
Proof.
  unfold rootSupported, genStatement.
  destruct (canCopy typ); [split; [discriminate|intros _; exact I]|].
  cbn [orb].
  destruct (types.Underlying typ) as [b|reftyp|n e|e|k e|fs|p n u ms|ps rs|e|ms];
    (split; [try discriminate; try reflexivity|try discriminate; intros Hs]).
  - (* pointer, unsupported *)
    destruct (types.Underlying reftyp); try discriminate.
    intros ->. reflexivity.
  - (* pointer, supported *)
    destruct (types.Underlying reftyp); try apply fieldError_genField.
    rewrite Hs. steps g.
  - unfold rangeLoop. steps g.
  - unfold rangeLoop. steps g.
  - steps g.
Qed.

End copyto_root_facts.
